(** * cicd-operator: the git transport helpers, the fake provider client,
      the approve plugin and the IntegrationJob reconciler

    A shallow embedding of

    - [pkg/git/http.go]            ([CheckRateLimitGetResetTime], [GetGapTime]),
    - the fake provider client     (package [fake]: [SetLabel], [DeleteLabel], ...),
    - the approve plugin           (package [approve]: [Handle], [HandleChatOps],
                                    [handleLabelEvent], [checkApproval], [authorize]),
    - [controllers/integrationjob_controller.go] ([Reconcile], [handleFinalizer],
                                    [patchJobFailed]),

    followed by the properties proved about them.  Go's [int] is taken to
    be 64 bits wide. *)

From Stdlib Require Import ZArith List String Ascii Bool Lia Permutation.
From stdpp Require Import base option list sorting gmap strings.

Import ListNotations.
Local Open Scope Z_scope.

(** ** Go values shared by all packages *)

(** Go's [int] and [int64] on the 64-bit targets the operator is built for. *)
Definition minInt : Z := - 2 ^ 63.
Definition maxInt : Z := 2 ^ 63 - 1.

(** Two's complement wrap-around of a 64-bit signed result. *)
Definition wrap64 (z : Z) : Z := (z + 2 ^ 63) mod 2 ^ 64 - 2 ^ 63.

(** The dynamic type of an [error] value, as far as the code inspects it:
    the type assertion to [git.UnauthorizedError] in the approve plugin and
    [errors.IsNotFound(err)] in the reconciler. *)
Inductive errorType : Type :=
| errorString
| UnauthorizedError (User Repo : string)
| StatusError (IsNotFound : bool).

(** A non-nil [error]: the text of [err.Error()] and the dynamic type.
    A possibly nil [error] is an [option error]. *)
Record error : Type := mkError { Error : string; dynType : errorType }.

(** [errors.New(text)] / [fmt.Errorf(text)]. *)
Definition errors_New (text : string) : error :=
  {| Error := text; dynType := errorString |}.

(** [errors.IsNotFound(err)] of k8s.io/apimachinery. *)
Definition IsNotFound (err : error) : bool :=
  match dynType err with
  | StatusError nf => nf
  | _ => false
  end.

(** The result of a Go call returning [(T, error)]. *)
Inductive result (A : Type) : Type :=
| Ok (a : A)
| Err (e : error).
Arguments Ok {A} a.
Arguments Err {A} e.

(** What a Go function does when it is run: it returns a value or it
    panics (index out of range, nil pointer dereference). *)
Inductive outcome (A : Type) : Type :=
| Returns (a : A)
| Panics.
Arguments Returns {A} a.
Arguments Panics {A}.

(** ** Package [strings] and [strconv]: the functions http.go calls

    Go strings are byte sequences; [string] is a sequence of 8-bit [ascii]. *)
Module GoStrings.

(** [strings.HasPrefix(s, prefix)] *)
Fixpoint HasPrefix (s prefix : string) : bool :=
  match prefix, s with
  | EmptyString, _ => true
  | String a p, String b s' => Ascii.eqb a b && HasPrefix s' p
  | String _ _, EmptyString => false
  end.

(** [strings.Index(s, substr)]: the offset of the first occurrence;
    [None] is Go's [-1]. *)
Fixpoint Index (s substr : string) : option nat :=
  if HasPrefix s substr then Some 0%nat
  else match s with
       | EmptyString => None
       | String _ s' => option_map S (Index s' substr)
       end.

(** [strings.Contains(s, substr)] is [Index(s, substr) >= 0]. *)
Definition Contains (s substr : string) : bool :=
  match Index s substr with
  | Some _ => true
  | None => false
  end.

(** The slice expressions [s[:m]] and [s[m:]] for [m <= len(s)]. *)
Fixpoint sliceTo (m : nat) (s : string) : string :=
  match m, s with
  | S m', String c s' => String c (sliceTo m' s')
  | _, _ => EmptyString
  end.

Fixpoint sliceFrom (m : nat) (s : string) : string :=
  match m, s with
  | S m', String _ s' => sliceFrom m' s'
  | _, _ => s
  end.

(** The loop of [strings.genSplit]: cut at the first occurrence of [sep],
    keep the part before it and go on with the part after it.  Every
    round removes at least [len(sep) >= 1] bytes, so [len(s)] rounds are
    enough. *)
Fixpoint genSplit (fuel : nat) (s sep : string) : list string :=
  match fuel, Index s sep with
  | S fuel', Some m =>
      sliceTo m s :: genSplit fuel' (sliceFrom (m + String.length sep) s) sep
  | _, _ => [s]
  end.

(** [strings.Split(s, sep)] for a non-empty separator, which is what both
    call sites in [CheckRateLimitGetResetTime] pass (["::"] and ["."]).
    For an empty separator Go splits after each UTF-8 sequence; bytes stand for
    them here. *)
Fixpoint explode (s : string) : list string :=
  match s with
  | EmptyString => []
  | String c s' => String c EmptyString :: explode s'
  end.

Definition Split (s sep : string) : list string :=
  match sep with
  | EmptyString => explode s
  | _ => genSplit (String.length s) s sep
  end.

(** The value of a decimal digit byte: [ch -= '0'; if ch > 9 { error }]. *)
Definition digitVal (ch : ascii) : option Z :=
  let n := Z.of_N (N_of_ascii ch) in
  if (48 <=? n) && (n <=? 57) then Some (n - 48) else None.

(** The digit loop of [strconv.Atoi]: [n = n*10 + int(ch)]. *)
Fixpoint atoiLoop (n : Z) (s : string) : option Z :=
  match s with
  | EmptyString => Some n
  | String ch s' =>
      match digitVal ch with
      | Some d => atoiLoop (n * 10 + d) s'
      | None => None
      end
  end.

(** [strconv.Atoi(s)]: an optional sign and at least one decimal digit;
    [None] stands for a non-nil [convertErr] (syntax error, or a value
    outside [int]: Go reports [ErrRange] on the slow path). *)
Definition Atoi (s : string) : option Z :=
  match s with
  | EmptyString => None
  | String c0 rest =>
      let neg := Ascii.eqb c0 "-" in
      let digits := if neg || Ascii.eqb c0 "+" then rest else s in
      match digits with
      | EmptyString => None
      | _ =>
          match atoiLoop 0 digits with
          | Some n =>
              let v := if neg then - n else n in
              if (minInt <=? v) && (v <=? maxInt) then Some v else None
          | None => None
          end
      end
  end.

(** The digit of [u mod 10] as a byte. *)
Definition digitChar (u : Z) : ascii :=
  ascii_of_N (Z.to_N (48 + u mod 10)).

(** The loop of [strconv.formatBits] for base 10: digits are produced
    from the least significant one, in front of what is already there.
    A 64-bit magnitude has at most 20 digits. *)
Fixpoint formatBits (fuel : nat) (u : Z) (acc : string) : string :=
  match fuel with
  | O => acc
  | S fuel' =>
      let acc' := String (digitChar u) acc in
      if u <? 10 then acc' else formatBits fuel' (u / 10) acc'
  end.

(** [strconv.FormatInt(i, 10)] *)
Definition FormatInt (i : Z) : string :=
  if i <? 0 then String "-" (formatBits 20 (- i) EmptyString) else formatBits 20 i EmptyString.

End GoStrings.

(** ** [pkg/git/http.go] *)
Module Git.

Import GoStrings.

(** [CheckRateLimitGetResetTime(err error) int].  The two index
    expressions [[1]] and [[0]] panic when the slice is too short. *)
Definition CheckRateLimitGetResetTime (err : option error) : outcome Z :=
  match err with
  | Some e =>
      if Contains (Error e) "Rate limit exceeded" then
        let strErr := Error e in
        match nth_error (Split strErr "::") 1 with
        | None => Panics
        | Some afterMarker =>
            match nth_error (Split afterMarker ".") 0 with
            | None => Panics
            | Some unixTime =>
                match Atoi unixTime with
                | Some tm => Returns tm
                | None => Returns 0
                end
            end
        end
      else Returns 0
  | None => Returns 0
  end.

(** [GetGapTime(target int) int64]; [now] is [time.Now().Unix()]. *)
Definition GetGapTime (now : Z) (target : Z) : Z :=
  wrap64 (target - now).

(** The rate-limit error as the provider clients build it:
    [fmt.Errorf("unixtime::%s. Rate limit exceeded, ...", strconv.FormatInt(reset, 10))],
    for any sentinel and any text after the dot. *)
Definition rateLimitError (sentinel : string) (epoch : Z) (text : string) : error :=
  errors_New (sentinel +:+ "::" +:+ FormatInt epoch +:+ "." +:+ text).

End Git.


(** ** Calls to collaborators

    A handler runs against the state [St] of its collaborator (the remote
    git server, the cluster) and leaves a log of the calls it made, in
    order.  A computation returns a value and the new world, or panics. *)
Module Effects.

Section Monad.
Context {St Ev : Type}.

Record World : Type := mkWorld { remote : St; calls : list Ev }.

Definition M (A : Type) : Type := World -> outcome (A * World).

Definition ret {A : Type} (a : A) : M A := fun w => Returns (a, w).

Definition bind {A B : Type} (m : M A) (k : A -> M B) : M B :=
  fun w =>
    match m w with
    | Returns (a, w') => k a w'
    | Panics => Panics
    end.

Definition panic {A : Type} : M A := fun _ => Panics.

(** Dereference of a pointer that may be nil. *)
Definition deref {A : Type} (p : option A) : M A :=
  match p with
  | Some a => ret a
  | None => panic
  end.

(** One call [ev] to the collaborator; [op] is what the collaborator does. *)
Definition call {A : Type} (ev : Ev) (op : St -> A * St) : M A :=
  fun w =>
    let '(a, s') := op (remote w) in
    Returns (a, {| remote := s'; calls := calls w ++ [ev] |}).

(** A call into a collaborator that may itself panic. *)
Definition callMayPanic {A : Type} (ev : Ev) (op : St -> outcome (A * St)) : M A :=
  fun w =>
    match op (remote w) with
    | Returns (a, s') => Returns (a, {| remote := s'; calls := calls w ++ [ev] |})
    | Panics => Panics
    end.

(** A step that involves no remote state, only noted in the log. *)
Definition note (ev : Ev) : M unit :=
  fun w => Returns (tt, {| remote := remote w; calls := calls w ++ [ev] |}).

End Monad.

Arguments World : clear implicits.
Arguments M : clear implicits.

End Effects.

Import Effects.

Declare Scope go_scope.
Delimit Scope go_scope with go.
Notation "'do' x <- m ; k" := (bind m (fun x => k))
  (at level 10, x name, m at level 100, k at level 200) : go_scope.
Notation "'do' ' pat <- m ; k" := (bind m (fun x => let 'pat := x in k))
  (at level 10, pat pattern, m at level 100, k at level 200) : go_scope.
Local Open Scope go_scope.

(** ** Package [git]: the types the handlers read

    The records have the fields the code under study selects.  A
    string-typed enumeration has the constants the code names and one more
    constructor for every other string; the zero value is the empty
    string. *)
Module GitTypes.

(** Modelled from the spec: [git.EventType], the discriminated event type of
    a normalized webhook; its declaration is not among the sources. *)
Inductive EventType : Type :=
| EventTypePullRequest
| EventTypePullRequestReview
| EventTypeOther (name : string).

(** Modelled from the spec: [git.PullRequestState], state {Open, Closed}. *)
Inductive PullRequestState : Type :=
| PullRequestStateOpen
| PullRequestStateClosed
| PullRequestStateOther (name : string).

(** Modelled from the spec: [git.PullRequestAction], the stated action of a
    pull request event (labeled, unlabeled, ...). *)
Inductive PullRequestAction : Type :=
| PullRequestActionLabeled
| PullRequestActionUnlabeled
| PullRequestActionOther (name : string).

(** Modelled from the spec: [git.PullRequestReviewState], the optional
    review state {Approved, Unapproved, none} of a comment;
    [ReviewStateNone] is the zero value, the empty string. *)
Inductive PullRequestReviewState : Type :=
| ReviewStateNone
| PullRequestReviewStateApproved
| PullRequestReviewStateUnapproved
| ReviewStateOther (name : string).

(** Modelled from the spec: [git.IssueType], the issue type argument of the
    comment and label calls. *)
Inductive IssueType : Type :=
| IssueTypeIssue
| IssueTypePullRequest.

#[global] Instance EventType_eq_dec : EqDecision EventType.
Proof. solve_decision. Defined.
#[global] Instance PullRequestState_eq_dec : EqDecision PullRequestState.
Proof. solve_decision. Defined.
#[global] Instance PullRequestAction_eq_dec : EqDecision PullRequestAction.
Proof. solve_decision. Defined.
#[global] Instance PullRequestReviewState_eq_dec : EqDecision PullRequestReviewState.
Proof. solve_decision. Defined.
#[global] Instance IssueType_eq_dec : EqDecision IssueType.
Proof. solve_decision. Defined.

(** Modelled from the spec: [git.User], a remote account (id, display name). *)
Record User : Type := mkUser {
  User_ID : Z;
  User_Name : string
}.

(** Modelled from the spec: [git.IssueLabel], a label by its name. *)
Record IssueLabel : Type := mkIssueLabel {
  IssueLabel_Name : string
}.

(** Modelled from the spec: [git.PullRequest], a snapshot of a remote pull
    request (id, title, author, state, mergeable, labels, and the labels
    changed by the last event). *)
Record PullRequest : Type := mkPullRequest {
  PullRequest_ID : Z;
  PullRequest_Title : string;
  PullRequest_State : PullRequestState;
  PullRequest_Action : PullRequestAction;
  PullRequest_Author : User;
  PullRequest_URL : string;
  PullRequest_Mergeable : bool;
  PullRequest_Labels : list IssueLabel;
  PullRequest_LabelChanged : list IssueLabel
}.

(** [pr.Labels = labels] *)
Definition PullRequest_setLabels (pr : PullRequest) (labels : list IssueLabel) : PullRequest :=
  {| PullRequest_ID := PullRequest_ID pr;
     PullRequest_Title := PullRequest_Title pr;
     PullRequest_State := PullRequest_State pr;
     PullRequest_Action := PullRequest_Action pr;
     PullRequest_Author := PullRequest_Author pr;
     PullRequest_URL := PullRequest_URL pr;
     PullRequest_Mergeable := PullRequest_Mergeable pr;
     PullRequest_Labels := labels;
     PullRequest_LabelChanged := PullRequest_LabelChanged pr |}.

(** Modelled from the spec: [git.Issue]; [Issue.PullRequest] is a pointer,
    [None] is nil. *)
Record Issue : Type := mkIssue {
  Issue_PullRequest : option PullRequest
}.

(** Modelled from the spec: [git.Comment] (body, created-at);
    [Comment.CreatedAt] is a pointer to a [metav1.Time], seconds stand for
    it. *)
Record Comment : Type := mkComment {
  Comment_Body : string;
  Comment_CreatedAt : option Z
}.

(** Modelled from the spec: [git.IssueComment], a comment or review event
    on a pull request (body, author, created-at, optional review state). *)
Record IssueComment : Type := mkIssueComment {
  IssueComment_Comment : Comment;
  IssueComment_Issue : Issue;
  IssueComment_Author : User;
  IssueComment_ReviewState : PullRequestReviewState
}.

(** Modelled from the spec: [git.Repository], the repository of an event. *)
Record Repository : Type := mkRepository {
  Repository_Name : string;
  Repository_URL : string
}.

(** Modelled from the spec: [git.Webhook], the normalized event (event
    type, sender, and the affected pull request or comment);
    [Webhook.PullRequest] and [Webhook.IssueComment] are pointers. *)
Record Webhook : Type := mkWebhook {
  Webhook_EventType : EventType;
  Webhook_Repo : Repository;
  Webhook_Sender : User;
  Webhook_PullRequest : option PullRequest;
  Webhook_IssueComment : option IssueComment
}.

(** Modelled from the spec: the capability set [git.Client], as far as the
    approve plugin uses it.
    Every method is one remote call on the state [St] of the git server.
    [ListLabels] is the one method whose implementation in this repository
    (the fake client) can panic. *)
Record Client (St : Type) : Type := mkClient {
  CanUserWriteToRepo : User -> St -> result bool * St;
  RegisterComment : IssueType -> Z -> string -> St -> option error * St;
  ListComments : Z -> St -> result (list IssueComment) * St;
  ListLabels : Z -> St -> outcome (result (list IssueLabel) * St);
  SetLabel : IssueType -> Z -> string -> St -> option error * St;
  DeleteLabel : IssueType -> Z -> string -> St -> option error * St
}.
Arguments CanUserWriteToRepo {St} _ _ _.
Arguments RegisterComment {St} _ _ _ _ _.
Arguments ListComments {St} _ _ _.
Arguments ListLabels {St} _ _ _.
Arguments SetLabel {St} _ _ _ _ _.
Arguments DeleteLabel {St} _ _ _ _ _.

End GitTypes.

Import GitTypes.

(** ** Package [api/v1]: the parts of [IntegrationConfig] and
    [IntegrationJob] the code reads *)
Module Cicdv1.

(** Modelled from the spec: [cicdv1.GitToken], the token of a configuration. *)
Record GitToken : Type := mkGitToken {
  GitToken_Value : string
}.

(** Modelled from the spec: [cicdv1.IntegrationConfig], the binding of a
    repository to automation behaviour; [Spec.Git.Token] is a pointer. *)
Record IntegrationConfig : Type := mkIntegrationConfig {
  IntegrationConfig_Name : string;
  IntegrationConfig_Namespace : string;
  Git_Repository : string;
  Git_Token : option GitToken
}.

(** Modelled from the spec: [cicdv1.IntegrationJobStatus] (state, message,
    completion time); [State] is a string-typed enumeration and
    [CompletionTime] a pointer to a [metav1.Time]. *)
Record IntegrationJobStatus : Type := mkIntegrationJobStatus {
  Status_State : string;
  Status_Message : string;
  Status_CompletionTime : option Z
}.

(** Modelled from the spec: [cicdv1.IntegrationJob], with the object
    metadata the reconciler reads ([Finalizers], [DeletionTimestamp]), the
    reference to the owning configuration, and the status. *)
Record IntegrationJob : Type := mkIntegrationJob {
  IntegrationJob_Name : string;
  IntegrationJob_Namespace : string;
  Finalizers : list string;
  DeletionTimestamp : option Z;
  ConfigRef_Name : string;
  Status : IntegrationJobStatus
}.

(** [instance.Finalizers = finalizers] *)
Definition IntegrationJob_setFinalizers (job : IntegrationJob) (finalizers : list string)
  : IntegrationJob :=
  {| IntegrationJob_Name := IntegrationJob_Name job;
     IntegrationJob_Namespace := IntegrationJob_Namespace job;
     Finalizers := finalizers;
     DeletionTimestamp := DeletionTimestamp job;
     ConfigRef_Name := ConfigRef_Name job;
     Status := Status job |}.

(** [instance.Status = status] *)
Definition IntegrationJob_setStatus (job : IntegrationJob) (status : IntegrationJobStatus)
  : IntegrationJob :=
  {| IntegrationJob_Name := IntegrationJob_Name job;
     IntegrationJob_Namespace := IntegrationJob_Namespace job;
     Finalizers := Finalizers job;
     DeletionTimestamp := DeletionTimestamp job;
     ConfigRef_Name := ConfigRef_Name job;
     Status := status |}.

End Cicdv1.

Import Cicdv1.

(** ** Package [chatops]: a command extracted from a comment body *)
Module Chatops.

(** Modelled from the spec: [chatops.Command], a command name and its
    argument list. *)
Record Command : Type := mkCommand {
  Command_Type : string;
  Command_Args : list string
}.

End Chatops.

Import Chatops.

(** ** Package [fake]: the in-memory provider client

    [Repos] is a process-wide [map[string]*Repo]; a nil map is [None].  The
    maps hold pointers to the repositories and pull requests they own, so
    an update through such a pointer is an update of the entry. *)
Module Fake.

Record Repo : Type := mkRepo {
  UserCanWrite : option (gmap string bool);
  PullRequests : option (gmap Z PullRequest);
  Comments : option (gmap Z (list IssueComment))
}.

Definition Repo_setPullRequests (repo : Repo) (prs : gmap Z PullRequest) : Repo :=
  {| UserCanWrite := UserCanWrite repo;
     PullRequests := Some prs;
     Comments := Comments repo |}.

Definition Repo_setComments (repo : Repo) (cs : gmap Z (list IssueComment)) : Repo :=
  {| UserCanWrite := UserCanWrite repo;
     PullRequests := PullRequests repo;
     Comments := Some cs |}.

(** The global variables of the package, and the clock [metav1.Now()] reads. *)
Record Store : Type := mkStore {
  Repos : option (gmap string Repo);
  Now : Z
}.

Definition Store_setRepo (st : Store) (repos : gmap string Repo)
    (name : string) (repo : Repo) : Store :=
  {| Repos := Some (<[name := repo]> repos); Now := Now st |}.

(** [Client{IntegrationConfig, K8sClient}] *)
Record Client : Type := mkClient {
  Client_IntegrationConfig : IntegrationConfig
}.

(** The common prologue: [Repos == nil], then the lookup of
    [Repos[c.IntegrationConfig.Spec.Git.Repository]]. *)
Definition lookupRepo (repoName : string) (st : Store)
  : result (gmap string Repo * Repo) :=
  match Repos st with
  | None => Err (errors_New "repos not initialized")
  | Some repos =>
      match repos !! repoName with
      | None => Err (errors_New "404 no such repository")
      | Some repo => Ok (repos, repo)
      end
  end.

(** [CanUserWriteToRepo] *)
Definition CanUserWriteToRepo (c : Client) (user : User) (st : Store)
  : result bool * Store :=
  match lookupRepo (Git_Repository (Client_IntegrationConfig c)) st with
  | Err e => (Err e, st)
  | Ok (_, repo) =>
      match UserCanWrite repo with
      | None => (Err (errors_New "userCanWrite not initialized"), st)
      | Some canWrite =>
          match canWrite !! User_Name user with
          | None => (Err (errors_New "404 no such user"), st)
          | Some privilege => (Ok privilege, st)
          end
      end
  end.

(** [RegisterComment]: the comment is appended to [repo.Comments[issueNo]];
    a missing entry reads as the nil slice. *)
Definition RegisterComment (c : Client) (_ : IssueType) (issueNo : Z) (body : string)
    (st : Store) : option error * Store :=
  let repoName := Git_Repository (Client_IntegrationConfig c) in
  match lookupRepo repoName st with
  | Err e => (Some e, st)
  | Ok (repos, repo) =>
      match Comments repo with
      | None => (Some (errors_New "comments not initialized"), st)
      | Some comments =>
          let t := Now st in
          let comment :=
            {| IssueComment_Comment := {| Comment_Body := body; Comment_CreatedAt := Some t |};
               IssueComment_Issue :=
                 {| Issue_PullRequest :=
                      Some {| PullRequest_ID := issueNo;
                              PullRequest_Title := EmptyString;
                              PullRequest_State := PullRequestStateOther EmptyString;
                              PullRequest_Action := PullRequestActionOther EmptyString;
                              PullRequest_Author := {| User_ID := 0; User_Name := EmptyString |};
                              PullRequest_URL := EmptyString;
                              PullRequest_Mergeable := false;
                              PullRequest_Labels := [];
                              PullRequest_LabelChanged := [] |} |};
               IssueComment_Author := {| User_ID := 0; User_Name := EmptyString |};
               IssueComment_ReviewState := ReviewStateNone |} in
          let existing := default [] (comments !! issueNo) in
          (None,
           Store_setRepo st repos repoName
             (Repo_setComments repo (<[issueNo := existing ++ [comment]]> comments)))
      end
  end.

(** [ListComments]: reading a nil map or a missing key gives the nil slice. *)
Definition ListComments (c : Client) (issueNo : Z) (st : Store)
  : result (list IssueComment) * Store :=
  match lookupRepo (Git_Repository (Client_IntegrationConfig c)) st with
  | Err e => (Err e, st)
  | Ok (_, repo) =>
      (Ok (default [] (mbind (fun comments => comments !! issueNo) (Comments repo))), st)
  end.

(** [ListLabels]: [repo.PullRequests[id].Labels] dereferences the nil pointer
    that a missing entry (or a nil map) reads as. *)
Definition ListLabels (c : Client) (id : Z) (st : Store)
  : outcome (result (list IssueLabel) * Store) :=
  match lookupRepo (Git_Repository (Client_IntegrationConfig c)) st with
  | Err e => Returns (Err e, st)
  | Ok (_, repo) =>
      match mbind (fun prs => prs !! id) (PullRequests repo) with
      | None => Panics
      | Some pr => Returns (Ok (PullRequest_Labels pr), st)
      end
  end.

(** [SetLabel]: [pr.Labels = append(pr.Labels, git.IssueLabel{Name: label})] *)
Definition SetLabel (c : Client) (_ : IssueType) (id : Z) (label : string) (st : Store)
  : option error * Store :=
  let repoName := Git_Repository (Client_IntegrationConfig c) in
  match lookupRepo repoName st with
  | Err e => (Some e, st)
  | Ok (repos, repo) =>
      match PullRequests repo with
      | None => (Some (errors_New "pull requests not initialized"), st)
      | Some prs =>
          match prs !! id with
          | None => (Some (errors_New "404 no such PR"), st)
          | Some pr =>
              let pr' := PullRequest_setLabels pr
                           (PullRequest_Labels pr ++ [{| IssueLabel_Name := label |}]) in
              (None,
               Store_setRepo st repos repoName (Repo_setPullRequests repo (<[id := pr']> prs)))
          end
      end
  end.

(** The search loop of [DeleteLabel]: the index of the first label named
    [label]; [None] is [idx == -1]. *)
Fixpoint indexOfLabel (labels : list IssueLabel) (label : string) : option nat :=
  match labels with
  | [] => None
  | l :: rest =>
      if bool_decide (IssueLabel_Name l = label) then Some 0%nat
      else option_map S (indexOfLabel rest label)
  end.

(** The package-level [DeleteLabel(repoName, id, label)]. *)
Definition DeleteLabel (repoName : string) (id : Z) (label : string) (st : Store)
  : option error * Store :=
  match lookupRepo repoName st with
  | Err e => (Some e, st)
  | Ok (repos, repo) =>
      match PullRequests repo with
      | None => (Some (errors_New "pull requests not initialized"), st)
      | Some prs =>
          match prs !! id with
          | None => (Some (errors_New "404 no such PR"), st)
          | Some pr =>
              match indexOfLabel (PullRequest_Labels pr) label with
              | Some idx =>
                  let labels := PullRequest_Labels pr in
                  let labels' :=
                    if bool_decide (idx = (length labels - 1)%nat) then take idx labels
                    else take idx labels ++ drop (idx + 1) labels in
                  (None,
                   Store_setRepo st repos repoName
                     (Repo_setPullRequests repo (<[id := PullRequest_setLabels pr labels']> prs)))
              | None => (None, st)
              end
          end
      end
  end.

(** The method [(c *Client) DeleteLabel]. *)
Definition Client_DeleteLabel (c : Client) (_ : IssueType) (id : Z) (label : string)
  : Store -> option error * Store :=
  DeleteLabel (Git_Repository (Client_IntegrationConfig c)) id label.

End Fake.

(** The fake client as a [git.Client]. *)
Definition fakeClient (c : Fake.Client) : Client Fake.Store :=
  {| CanUserWriteToRepo := Fake.CanUserWriteToRepo c;
     RegisterComment := Fake.RegisterComment c;
     ListComments := Fake.ListComments c;
     ListLabels := Fake.ListLabels c;
     SetLabel := Fake.SetLabel c;
     DeleteLabel := Fake.Client_DeleteLabel c |}.

(** ** Package [approve]: the approval plugin *)
Module Approve.

Definition CommandTypeApprove : string := "approve".
Definition CommandTypeGitLabApprove : string := "ci-approve".
Definition approvedLabel : string := "approved".

(** The remote calls of the plugin, as they appear in the log. *)
Inductive Call : Type :=
| CallGetGitCli (repository : string)
| CallCanUserWriteToRepo (user : User)
| CallRegisterComment (issueType : IssueType) (id : Z) (body : string)
| CallListComments (id : Z)
| CallListLabels (id : Z)
| CallSetLabel (issueType : IssueType) (id : Z) (label : string)
| CallDeleteLabel (issueType : IssueType) (id : Z) (label : string).

Definition nl : string := String (ascii_of_nat 10) EmptyString.

Definition generateUserUnauthorizedComment (user : string) : string :=
  "[APPROVE ALERT]" +:+ nl +:+ nl +:+ "User `" +:+ user +:+
  "` is not allowed to approve/cancel approve this pull request." +:+ nl +:+ nl +:+
  "Users who meet the following conditions can approve the pull request." +:+ nl +:+
  "- Not an author of the pull request" +:+ nl +:+
  "- (For GitHub) Have write permission on the repository" +:+ nl +:+
  "- (For GitLab) Be Developer, Maintainer, or Owner" +:+ nl.

Definition generateApprovedComment (user : string) : string :=
  "[APPROVE ALERT]" +:+ nl +:+ nl +:+ "User `" +:+ user +:+ "` approved this pull request!".

Definition generateApproveCanceledComment (user : string) : string :=
  "[APPROVE ALERT]" +:+ nl +:+ nl +:+ "User `" +:+ user +:+ "` canceled the approval.".

Definition generateHelpComment : string :=
  "[APPROVE ALERT]" +:+ nl +:+ nl +:+ "Approve comment is malformed" +:+ nl +:+ nl +:+
  "You can approve or cancel the approve the pull request by commenting..." +:+ nl +:+
  "- (For GitHub) `/approve`" +:+ nl +:+
  "- (For GitHub) `/approve cancel`" +:+ nl +:+
  "- (For GitLab) `/ci-approve`" +:+ nl +:+
  "- (For GitLab) `/ci-approve cancel`" +:+ nl.

(** The loops [for _, l := range labels { if l.Name == name { ...; break } }]. *)
Definition hasLabel (labels : list IssueLabel) (name : string) : bool :=
  existsb (fun l => bool_decide (IssueLabel_Name l = name)) labels.

Section Plugin.

(** The state of the remote git server. *)
Context {St : Type}.

(** [utils.GetGitCli(ic, h.Client)]: the provider client of a configuration,
    or the error of building it. *)
Variable GetGitCli : IntegrationConfig -> result (Client St).

(** [chatops.ExtractCommands(body)] *)
Variable ExtractCommands : string -> list Command.

(** [sort.Slice(comments, less)] with
    [less(i, j) = comments[j].Comment.CreatedAt.Before(comments[i].Comment.CreatedAt)]:
    the order sort.Slice leaves equal elements in is not specified. *)
Variable sortSlice : list IssueComment -> list IssueComment.

(** The text of the [Error] method of [git.UnauthorizedError] for a user and
    a repository. *)
Variable unauthorizedErrorText : string -> string -> string.

Local Abbreviation M := (Effects.M St Call).

(** [&git.UnauthorizedError{User: user, Repo: repo}] *)
Definition newUnauthorizedError (user repo : string) : error :=
  {| Error := unauthorizedErrorText user repo; dynType := UnauthorizedError user repo |}.

(** [authorize] decides if the sender is authorized to approve the PR. *)
Definition authorize (cfg : IntegrationConfig) (sender author : User) (gitCli : Client St)
  : M (option error) :=
  if bool_decide (User_ID sender = User_ID author) then
    ret (Some (newUnauthorizedError (User_Name sender) (Git_Repository cfg)))
  else
    do r <- call (CallCanUserWriteToRepo sender) (CanUserWriteToRepo gitCli sender);
    match r with
    | Err err => ret (Some err)
    | Ok true => ret None
    | Ok false => ret (Some (newUnauthorizedError (User_Name sender) (Git_Repository cfg)))
    end.

(** The inner loop of [checkApproval] over the commands of one comment:
    [Some v] is [return v], [None] is falling out of the loop. *)
Fixpoint scanCommands (commands : list Command) : option bool :=
  match commands with
  | [] => None
  | command :: rest =>
      if bool_decide (Command_Type command = "approve")
         && bool_decide (length (Command_Args command) = 0%nat)
      then Some true
      else if bool_decide (Command_Type command = "approve")
              && bool_decide (length (Command_Args command) = 1%nat)
              && bool_decide (Command_Args command !! 0%nat = Some "cancel")
      then Some false
      else scanCommands rest
  end.

(** [checkApproval(comments)] *)
Fixpoint checkApproval (comments : list IssueComment) : bool :=
  match comments with
  | [] => false
  | comment :: rest =>
      if bool_decide (IssueComment_ReviewState comment = PullRequestReviewStateApproved)
      then true
      else if bool_decide (IssueComment_ReviewState comment = PullRequestReviewStateUnapproved)
      then false
      else
        match scanCommands (ExtractCommands (Comment_Body (IssueComment_Comment comment))) with
        | Some verdict => verdict
        | None => checkApproval rest
        end
  end.

(** [handleApproveCommand] handles the '/approve' command. *)
Definition handleApproveCommand (issueComment : IssueComment) (gitCli : Client St)
  : M (option error) :=
  do pr <- deref (Issue_PullRequest (IssueComment_Issue issueComment));
  do e <- call (CallSetLabel IssueTypePullRequest (PullRequest_ID pr) approvedLabel)
            (SetLabel gitCli IssueTypePullRequest (PullRequest_ID pr) approvedLabel);
  match e with
  | Some err => ret (Some err)
  | None =>
      let body := generateApprovedComment (User_Name (IssueComment_Author issueComment)) in
      call (CallRegisterComment IssueTypePullRequest (PullRequest_ID pr) body)
        (RegisterComment gitCli IssueTypePullRequest (PullRequest_ID pr) body)
  end.

(** The test [err != nil && !strings.Contains(err.Error(), "Label does not exist")]. *)
Definition isDeleteLabelFailure (e : option error) : option error :=
  match e with
  | Some err =>
      if GoStrings.Contains (Error err) "Label does not exist" then None else Some err
  | None => None
  end.

(** [handleApproveCancelCommand] handles the '/approve cancel' command. *)
Definition handleApproveCancelCommand (issueComment : IssueComment) (gitCli : Client St)
  : M (option error) :=
  do pr <- deref (Issue_PullRequest (IssueComment_Issue issueComment));
  do e <- call (CallDeleteLabel IssueTypePullRequest (PullRequest_ID pr) approvedLabel)
            (DeleteLabel gitCli IssueTypePullRequest (PullRequest_ID pr) approvedLabel);
  match isDeleteLabelFailure e with
  | Some err => ret (Some err)
  | None =>
      let body := generateApproveCanceledComment (User_Name (IssueComment_Author issueComment)) in
      call (CallRegisterComment IssueTypePullRequest (PullRequest_ID pr) body)
        (RegisterComment gitCli IssueTypePullRequest (PullRequest_ID pr) body)
  end.

(** [syncApproval]: the two tests exclude each other, so at most one of the
    two handlers runs. *)
Definition syncApproval (label comment : bool) (issueComment : IssueComment)
    (gitCli : Client St) : M (option error) :=
  do e <- (if comment && negb label then handleApproveCommand issueComment gitCli
           else ret None);
  match e with
  | Some err => ret (Some err)
  | None =>
      if negb comment && label then handleApproveCancelCommand issueComment gitCli
      else ret None
  end.

(** [handleApproveCheckCommand] *)
Definition handleApproveCheckCommand (issueComment : IssueComment) (gitCli : Client St)
  : M (option error) :=
  do pr <- deref (Issue_PullRequest (IssueComment_Issue issueComment));
  do r <- callMayPanic (CallListLabels (PullRequest_ID pr)) (ListLabels gitCli (PullRequest_ID pr));
  match r with
  | Err err => ret (Some err)
  | Ok labels =>
      let approveLabel := hasLabel labels "approved" in
      do r' <- call (CallListComments (PullRequest_ID pr)) (ListComments gitCli (PullRequest_ID pr));
      match r' with
      | Err err => ret (Some err)
      | Ok comments =>
          let comments := sortSlice comments in
          let approvedComment := checkApproval comments in
          syncApproval approveLabel approvedComment issueComment gitCli
      end
  end.

(** [handleLabelEvent] handles a labeled/unlabeled event for the
    'approved' label; [pr] is [wh.PullRequest], which [Handle] found non-nil. *)
Definition handleLabelEvent (wh : Webhook) (ic : IntegrationConfig) (gitCli : Client St)
  : M (option error) :=
  do pr <- deref (Webhook_PullRequest wh);
  let isApprovedChanged := hasLabel (PullRequest_LabelChanged pr) approvedLabel in
  if negb isApprovedChanged then ret None
  else
    let isApprovedLabeled := hasLabel (PullRequest_Labels pr) approvedLabel in
    do e <- authorize ic (Webhook_Sender wh) (PullRequest_Author pr) gitCli;
    match e with
    | None => ret None
    | Some err =>
        match dynType err with
        | UnauthorizedError user _ =>
            do e' <- (if isApprovedLabeled then
                        do d <- call (CallDeleteLabel IssueTypePullRequest (PullRequest_ID pr) approvedLabel)
                                  (DeleteLabel gitCli IssueTypePullRequest (PullRequest_ID pr) approvedLabel);
                        ret (isDeleteLabelFailure d)
                      else
                        call (CallSetLabel IssueTypePullRequest (PullRequest_ID pr) approvedLabel)
                          (SetLabel gitCli IssueTypePullRequest (PullRequest_ID pr) approvedLabel));
            match e' with
            | Some err' => ret (Some err')
            | None =>
                let body := generateUserUnauthorizedComment user in
                call (CallRegisterComment IssueTypePullRequest (PullRequest_ID pr) body)
                  (RegisterComment gitCli IssueTypePullRequest (PullRequest_ID pr) body)
            end
        | _ => ret (Some err)
        end
    end.

(** [getGitCli] is the call of [utils.GetGitCli]; it does not touch the
    remote state. *)
Definition getGitCli (ic : IntegrationConfig) : M (result (Client St)) :=
  do _ <- note (CallGetGitCli (Git_Repository ic));
  ret (GetGitCli ic).

(** [Handle] handles a raw webhook. *)
Definition Handle (wh : Webhook) (ic : IntegrationConfig) : M (option error) :=
  match Git_Token ic with
  | None => ret None
  | Some _ =>
      do isApproval <-
        (if bool_decide (Webhook_EventType wh = EventTypePullRequestReview) then
           match Webhook_IssueComment wh with
           | None => ret false
           | Some issueComment =>
               do pr <- deref (Issue_PullRequest (IssueComment_Issue issueComment));
               ret (bool_decide (PullRequest_State pr = PullRequestStateOpen)
                    && negb (bool_decide (IssueComment_ReviewState issueComment = ReviewStateNone)))
           end
         else ret false);
      let isLabeled :=
        bool_decide (Webhook_EventType wh = EventTypePullRequest)
        && match Webhook_PullRequest wh with
           | None => false
           | Some pr =>
               bool_decide (PullRequest_Action pr = PullRequestActionLabeled)
               || bool_decide (PullRequest_Action pr = PullRequestActionUnlabeled)
           end in
      if negb isApproval && negb isLabeled then ret None
      else
        do r <- getGitCli ic;
        match r with
        | Err err => ret (Some err)
        | Ok gitCli =>
            if isLabeled then handleLabelEvent wh ic gitCli
            else
              do issueComment <- deref (Webhook_IssueComment wh);
              match IssueComment_ReviewState issueComment with
              | PullRequestReviewStateApproved => handleApproveCommand issueComment gitCli
              | PullRequestReviewStateUnapproved => handleApproveCancelCommand issueComment gitCli
              | _ => ret None
              end
        end
  end.

(** [HandleChatOps] handles comment commands. *)
Definition HandleChatOps (command : Command) (webhook : Webhook) (config : IntegrationConfig)
  : M (option error) :=
  do issueComment <- deref (Webhook_IssueComment webhook);
  match Issue_PullRequest (IssueComment_Issue issueComment) with
  | None => ret None
  | Some pr =>
      if negb (bool_decide (PullRequest_State pr = PullRequestStateOpen)) then ret None
      else
        match Git_Token config with
        | None => ret None
        | Some _ =>
            do r <- getGitCli config;
            match r with
            | Err err => ret (Some err)
            | Ok gitCli =>
                do e <- authorize config (Webhook_Sender webhook) (PullRequest_Author pr) gitCli;
                match e with
                | Some err =>
                    match dynType err with
                    | UnauthorizedError user _ =>
                        let body := generateUserUnauthorizedComment user in
                        call (CallRegisterComment IssueTypePullRequest (PullRequest_ID pr) body)
                          (RegisterComment gitCli IssueTypePullRequest (PullRequest_ID pr) body)
                    | _ => ret (Some err)
                    end
                | None =>
                    match Command_Args command with
                    | [] => handleApproveCommand issueComment gitCli
                    | [arg] =>
                        if bool_decide (arg = "cancel") then
                          handleApproveCancelCommand issueComment gitCli
                        else if bool_decide (arg = "check") then
                          handleApproveCheckCommand issueComment gitCli
                        else
                          call (CallRegisterComment IssueTypePullRequest (PullRequest_ID pr)
                                  generateHelpComment)
                            (RegisterComment gitCli IssueTypePullRequest (PullRequest_ID pr)
                               generateHelpComment)
                    | _ =>
                        call (CallRegisterComment IssueTypePullRequest (PullRequest_ID pr)
                                generateHelpComment)
                          (RegisterComment gitCli IssueTypePullRequest (PullRequest_ID pr)
                             generateHelpComment)
                    end
                end
            end
        end
  end.

End Plugin.

End Approve.

(** ** Package [controllers]: the IntegrationJob reconciler *)
Module Controllers.

(** [types.NamespacedName] *)
Record NamespacedName : Type := mkNamespacedName {
  Namespace : string;
  Name : string
}.

(** [ctrl.Result]; every return of [Reconcile] gives the zero value. *)
Record Result : Type := mkResult {
  Requeue : bool;
  RequeueAfter : Z
}.

Definition emptyResult : Result := {| Requeue := false; RequeueAfter := 0 |}.

(** The collaborators of the reconciler, each call acting on the state [K]
    of the cluster: the API client ([Get], [Patch], [Status().Patch]; a
    successful patch writes the server's answer back into [instance]), the
    admission scheduler ([Notify]) and the pipeline manager
    ([ReflectStatus], which updates [instance] in place). *)
Record Cluster (K PipelineRun : Type) : Type := mkCluster {
  GetIntegrationJob : NamespacedName -> K -> result IntegrationJob * K;
  GetIntegrationConfig : NamespacedName -> K -> result IntegrationConfig * K;
  GetPipelineRun : NamespacedName -> K -> result PipelineRun * K;
  Patch : IntegrationJob -> IntegrationJob -> K -> result IntegrationJob * K;
  StatusPatch : IntegrationJob -> IntegrationJob -> K -> result IntegrationJob * K;
  Notify : IntegrationJob -> K -> unit * K;
  ReflectStatus : option PipelineRun -> IntegrationJob -> IntegrationConfig ->
                  K -> (IntegrationJob * option error) * K
}.
Arguments GetIntegrationJob {K PipelineRun} _ _ _.
Arguments GetIntegrationConfig {K PipelineRun} _ _ _.
Arguments GetPipelineRun {K PipelineRun} _ _ _.
Arguments Patch {K PipelineRun} _ _ _ _.
Arguments StatusPatch {K PipelineRun} _ _ _ _.
Arguments Notify {K PipelineRun} _ _ _.
Arguments ReflectStatus {K PipelineRun} _ _ _ _ _.

(** The calls of one reconcile pass, as they appear in the log.  The two
    patches carry [instance] as it is sent. *)
Inductive Event : Type :=
| EvGetIntegrationJob (key : NamespacedName)
| EvGetIntegrationConfig (key : NamespacedName)
| EvGetPipelineRun (key : NamespacedName)
| EvPatch (instance : IntegrationJob)
| EvStatusPatch (instance : IntegrationJob)
| EvNotify (instance : IntegrationJob)
| EvReflectStatus (instance : IntegrationJob).

Definition isNotify (e : Event) : bool :=
  match e with EvNotify _ => true | _ => false end.

Definition isStatusPatch (e : Event) : bool :=
  match e with EvStatusPatch _ => true | _ => false end.

Section Reconciler.

Context {K PipelineRun : Type}.

(** The constant [finalizer] of the package (declared with the
    IntegrationConfig reconciler). *)
Variable finalizer : string.

(** [cicdv1.IntegrationJobStateFailed] *)
Variable IntegrationJobStateFailed : string.

(** [instance.Status.SetDefaults()] *)
Variable SetDefaults : IntegrationJobStatus -> IntegrationJobStatus.

(** [pipelinemanager.Name(instance)] *)
Variable pipelineRunName : IntegrationJob -> string.

(** [r.Client], [r.scheduler] and [r.pm]. *)
Variable r : Cluster K PipelineRun.

Local Abbreviation M := (Effects.M K Event).

(** The search loop of [handleFinalizer]: [Some i] is [found = true, idx = i]. *)
Fixpoint indexOfFinalizer (finalizers : list string) : option nat :=
  match finalizers with
  | [] => None
  | f :: rest =>
      if bool_decide (f = finalizer) then Some 0%nat
      else option_map S (indexOfFinalizer rest)
  end.

(** The deletion of the finalizer at [idx]: the last entry is moved into
    its slot and the slice is cut by one. *)
Definition deleteFinalizerAt (idx : nat) (finalizers : list string) : list string :=
  if bool_decide (length finalizers = 1%nat) then []
  else
    let last := (length finalizers - 1)%nat in
    let moved := <[idx := finalizers !!! last]> finalizers in
    let cleared := <[last := EmptyString]> moved in
    take last cleared.

(** The two assignments of [patchJobFailed]:
    [instance.Status.State = cicdv1.IntegrationJobStateFailed] and
    [instance.Status.Message = message]. *)
Definition markFailed (instance : IntegrationJob) (message : string) : IntegrationJob :=
  IntegrationJob_setStatus instance
    {| Status_State := IntegrationJobStateFailed;
       Status_Message := message;
       Status_CompletionTime := Status_CompletionTime (Status instance) |}.

(** [patchJobFailed]; a failure of the patch is only logged.  The result is
    [instance] as the call leaves it. *)
Definition patchJobFailed (instance original : IntegrationJob) (message : string)
  : M IntegrationJob :=
  let instance := markFailed instance message in
  do p <- call (EvStatusPatch instance) (StatusPatch r instance original);
  match p with
  | Ok updated => ret updated
  | Err _ => ret instance
  end.

(** [handleFinalizer]: [instance] as the call leaves it, and [(exit, err)]. *)
Definition handleFinalizer (instance original : IntegrationJob)
  : M (IntegrationJob * (bool * option error)) :=
  match indexOfFinalizer (Finalizers instance) with
  | None =>
      let instance :=
        IntegrationJob_setFinalizers instance (Finalizers instance ++ [finalizer]) in
      do p <- call (EvPatch instance) (Patch r instance original);
      match p with
      | Err err => ret (instance, (false, Some err))
      | Ok updated => ret (updated, (true, None))
      end
  | Some idx =>
      match DeletionTimestamp instance with
      | Some _ =>
          do _ <- call (EvNotify instance) (Notify r instance);
          let instance :=
            IntegrationJob_setFinalizers instance (deleteFinalizerAt idx (Finalizers instance)) in
          do p <- call (EvPatch instance) (Patch r instance original);
          match p with
          | Err err => ret (instance, (false, Some err))
          | Ok updated => ret (updated, (true, None))
          end
      | None => ret (instance, (false, None))
      end
  end.

(** What [Reconcile] makes of the answer to the Get of the PipelineRun:
    an error that is not NotFound is an error, NotFound is [pr = nil]. *)
Definition notFoundAsNil (g : result PipelineRun) : result (option PipelineRun) :=
  match g with
  | Ok run => Ok (Some run)
  | Err err => if negb (IsNotFound err) then Err err else Ok None
  end.

(** The keys of the two Gets below the finalizer handling. *)
Definition configKey (instance : IntegrationJob) : NamespacedName :=
  {| Namespace := IntegrationJob_Namespace instance; Name := ConfigRef_Name instance |}.

Definition runKey (instance : IntegrationJob) : NamespacedName :=
  {| Namespace := IntegrationJob_Namespace instance; Name := pipelineRunName instance |}.

(** The part of [Reconcile] below [defer r.scheduler.Notify(instance)]:
    [instance] as it is when the function returns, and the return values. *)
Definition reconcileStatus (instance original : IntegrationJob)
  : M (IntegrationJob * (Result * option error)) :=
  do c <- call (EvGetIntegrationConfig (configKey instance))
            (GetIntegrationConfig r (configKey instance));
  match c with
  | Err err =>
      do instance <- patchJobFailed instance original (Error err);
      ret (instance, (emptyResult, None))
  | Ok config =>
      do g <- call (EvGetPipelineRun (runKey instance)) (GetPipelineRun r (runKey instance));
      match notFoundAsNil g with
      | Err err =>
          do instance <- patchJobFailed instance original (Error err);
          ret (instance, (emptyResult, None))
      | Ok pr =>
          let instance := IntegrationJob_setStatus instance (SetDefaults (Status instance)) in
          do '(instance, e) <- call (EvReflectStatus instance) (ReflectStatus r pr instance config);
          match e with
          | Some err =>
              do instance <- patchJobFailed instance original (Error err);
              ret (instance, (emptyResult, None))
          | None =>
              do p <- call (EvStatusPatch instance) (StatusPatch r instance original);
              match p with
              | Err err => ret (instance, (emptyResult, Some err))
              | Ok updated => ret (updated, (emptyResult, None))
              end
          end
      end
  end.

(** [Reconcile] reconciles the IntegrationJob named by [req]. *)
Definition Reconcile (req : NamespacedName) : M (Result * option error) :=
  do g <- call (EvGetIntegrationJob req) (GetIntegrationJob r req);
  match g with
  | Err err =>
      if IsNotFound err then ret (emptyResult, None)
      else ret (emptyResult, Some err)
  | Ok instance =>
      let original := instance in
      do '(instance, (exit, e)) <- handleFinalizer instance original;
      match e with
      | Some err =>
          do _ <- patchJobFailed instance original (Error err);
          ret (emptyResult, None)
      | None =>
          if exit then ret (emptyResult, None)
          else
            match Status_CompletionTime (Status instance) with
            | Some _ => ret (emptyResult, None)
            | None =>
                do '(instance, res) <- reconcileStatus instance original;
                do _ <- call (EvNotify instance) (Notify r instance);
                ret res
            end
      end
  end.

End Reconciler.

End Controllers.

(** ** [pkg/git/http.go]: [RequestHTTP] and [GetPaginatedRequest] *)
Module Http.

(** [http.Header], with [h.Get(key)] as its one operation. *)
Record Header : Type := mkHeader {
  Header_Get : string -> string
}.

(** [http.Request] as [RequestHTTP] builds it: method, uri, body and the
    header fields added to it. *)
Record Request : Type := mkRequest {
  Request_Method : string;
  Request_URL : string;
  Request_Body : string;
  Request_Header : list (string * string)
}.

(** [http.Response]: the status code, the header, and what
    [ioutil.ReadAll(resp.Body)] gives. *)
Record Response : Type := mkResponse {
  StatusCode : Z;
  Response_Header : Header;
  Response_Body : result string
}.

(** The three results [([]byte, http.Header, error)] of [RequestHTTP]; a nil
    byte slice is the empty string. *)
Record Reply : Type := mkReply {
  Reply_Body : string;
  Reply_Header : option Header;
  Reply_Err : option error
}.

Definition failed (err : error) : Reply :=
  {| Reply_Body := EmptyString; Reply_Header := None; Reply_Err := Some err |}.

(** [url.URL], of which the code touches [RawQuery] only. *)
Record URL : Type := mkURL {
  URL_Location : string;
  RawQuery : string
}.

Definition URL_setRawQuery (u : URL) (query : string) : URL :=
  {| URL_Location := URL_Location u; RawQuery := query |}.

(** Modelled from the spec: an entry of the parsed [Link] header, a target
    and its relation. *)
Record LinkHeaderEntry : Type := mkLinkHeaderEntry {
  Link_URL : string;
  Link_Rel : string
}.

(** The calls of the transport, as they appear in the log: the requests
    sent, and the calls of the [accumulate] callback. *)
Inductive Event (Obj : Type) : Type :=
| EvDo (req : Request)
| EvAccumulate (obj : Obj).
Arguments EvDo {Obj} req.
Arguments EvAccumulate {Obj} obj.

Section Transport.

(** The state of the remote server, the type of the values marshalled
    into request bodies, the TLS configuration, and the type of the page
    objects [newObj] makes. *)
Context {St Data TLS Obj : Type}.

(** [json.Marshal(data)] *)
Variable json_Marshal : Data -> result string.

(** [http.NewRequest(method, uri, body)]: the request, or the error for a
    method or uri it does not accept. *)
Variable http_NewRequest : string -> string -> string -> result Request.

(** [client.Do(req)] of the client with the TLS configuration, or of
    [http.DefaultClient] when there is none. *)
Variable Do : option TLS -> Request -> St -> result Response * St.

(** [url.Parse] and the [String()] method of the parsed [url.URL] *)
Variable url_Parse : string -> result URL.
Variable url_String : URL -> string.

(** [newObj()] followed by [json.Unmarshal(data, tmpObj)] *)
Variable json_Unmarshal : string -> result Obj.

(** [ParseLinkHeader] (nil is [None]) and [links.Find(rel)] *)
Variable ParseLinkHeader : string -> option (list LinkHeaderEntry).
Variable Find : list LinkHeaderEntry -> string -> option LinkHeaderEntry.

Local Abbreviation M := (Effects.M St (Event Obj)).

(** The loop [for k, v := range header { req.Header.Add(k, v) }]; the keys
    of a map are distinct, so the order of the additions does not show. *)
Definition addHeaders (req : Request) (header : list (string * string)) : Request :=
  {| Request_Method := Request_Method req;
     Request_URL := Request_URL req;
     Request_Body := Request_Body req;
     Request_Header := Request_Header req ++ header |}.

(** The error of a response whose status is not 2xx:
    [fmt.Errorf("error requesting api [%s] %s, code %d, msg %s", ...)]. *)
Definition statusError (method uri : string) (code : Z) (body : string) : error :=
  errors_New ("error requesting api [" +:+ method +:+ "] " +:+ uri +:+ ", code "
              +:+ GoStrings.FormatInt code +:+ ", msg " +:+ body).

(** [RequestHTTP] requests an api call. *)
Definition RequestHTTP (method uri : string) (header : list (string * string))
    (data : option Data) (tlsConfig : option TLS) : M Reply :=
  match (match data with
         | Some d => json_Marshal d
         | None => Ok EmptyString
         end) with
  | Err err => ret (failed err)
  | Ok jsonBytes =>
      match http_NewRequest method uri jsonBytes with
      | Err err => ret (failed err)
      | Ok req =>
          let req := addHeaders req header in
          do resp <- call (EvDo req) (Do tlsConfig req);
          match resp with
          | Err err => ret (failed err)
          | Ok resp =>
              match Response_Body resp with
              | Err err => ret (failed err)
              | Ok body =>
                  let newErr :=
                    if (StatusCode resp <? 200) || (299 <? StatusCode resp)
                    then Some (statusError method uri (StatusCode resp) body)
                    else None in
                  ret {| Reply_Body := body;
                         Reply_Header := Some (Response_Header resp);
                         Reply_Err := newErr |}
              end
          end
      end
  end.

(** The query of the first request: [per_page=100] is set or appended. *)
Definition withPageSize (u : URL) : URL :=
  if bool_decide (RawQuery u = EmptyString) then URL_setRawQuery u "per_page=100"
  else URL_setRawQuery u (RawQuery u +:+ "&per_page=100").

(** The uri of the next page: [links.Find("next").URL], when the [Link]
    header parses and has that relation. *)
Definition nextPage (h : option Header) : option string :=
  match ParseLinkHeader (match h with
                         | Some h => Header_Get h "Link"
                         | None => EmptyString
                         end) with
  | None => None
  | Some links =>
      match Find links "next" with
      | None => None
      | Some next => Some (Link_URL next)
      end
  end.

(** The loop of [GetPaginatedRequest], one round per unit of fuel: the
    server decides how many pages there are.  [None] is the loop still
    running when the fuel is used up. *)
Fixpoint pages (fuel : nat) (uri : string) (header : list (string * string))
    (tlsConfig : option TLS) : M (option (option error)) :=
  match fuel with
  | O => ret None
  | S fuel' =>
      do reply <- RequestHTTP "GET" uri header None tlsConfig;
      match Reply_Err reply with
      | Some err => ret (Some (Some err))
      | None =>
          match json_Unmarshal (Reply_Body reply) with
          | Err err => ret (Some (Some err))
          | Ok tmpObj =>
              do _ <- note (EvAccumulate tmpObj);
              match nextPage (Reply_Header reply) with
              | None => ret (Some None)
              | Some next => pages fuel' next header tlsConfig
              end
          end
      end
  end.

(** [GetPaginatedRequest] gets paginated APIs and accumulates them together. *)
Definition GetPaginatedRequest (fuel : nat) (apiURL : string)
    (tlsConfig : option TLS) (header : list (string * string))
  : M (option (option error)) :=
  match url_Parse apiURL with
  | Err err => ret (Some (Some err))
  | Ok u => pages fuel (url_String (withPageSize u)) header tlsConfig
  end.

End Transport.

End Http.

(** ** Package [pkg/git/fake]: webhooks, commit statuses and merges

    The rest of the in-memory store: the maps of a repository that the
    webhook, commit status and pull request methods of the fake client
    read and write.  The client is the one of [Fake]. *)
Module FakeRemote.

Import GoStrings.

(** [git.WebhookEntry{ID, URL}] *)
Record WebhookEntry : Type := mkWebhookEntry {
  WebhookEntry_ID : Z;
  WebhookEntry_URL : string
}.

(** Modelled from the spec: [git.CommitStatus], a status check on a commit
    (state, description); the sha is the key it is stored under. *)
Record CommitStatus : Type := mkCommitStatus {
  CommitStatus_State : string;
  CommitStatus_Description : string
}.

(** [git.Commit{SHA, Message}] *)
Record Commit : Type := mkCommit {
  Commit_SHA : string;
  Commit_Message : string
}.

(** Modelled from the spec: the head and base refs of [git.PullRequest];
    the code reads [pr.Head.Sha] and [pr.Base.Ref]. *)
Record Head : Type := mkHead {
  Head_Ref : string;
  Head_Sha : string
}.

Record Base : Type := mkBase {
  Base_Ref : string
}.

(** [git.PullRequest] with its [Head] and [Base]. *)
Record PullRequest : Type := mkPullRequest {
  PullRequest_Fields : GitTypes.PullRequest;
  PullRequest_Head : Head;
  PullRequest_Base : Base
}.

(** [pr.Mergeable = false; pr.State = git.PullRequestStateClosed] *)
Definition PullRequest_close (pr : PullRequest) : PullRequest :=
  let f := PullRequest_Fields pr in
  {| PullRequest_Fields :=
       {| PullRequest_ID := PullRequest_ID f;
          PullRequest_Title := PullRequest_Title f;
          PullRequest_State := PullRequestStateClosed;
          PullRequest_Action := PullRequest_Action f;
          PullRequest_Author := PullRequest_Author f;
          PullRequest_URL := PullRequest_URL f;
          PullRequest_Mergeable := false;
          PullRequest_Labels := PullRequest_Labels f;
          PullRequest_LabelChanged := PullRequest_LabelChanged f |};
     PullRequest_Head := PullRequest_Head pr;
     PullRequest_Base := PullRequest_Base pr |}.

Record Repo : Type := mkRepo {
  Webhooks : option (gmap Z WebhookEntry);
  PullRequests : option (gmap Z PullRequest);
  Commits : option (gmap string (list Commit));
  CommitStatuses : option (gmap string (list CommitStatus))
}.

Definition Repo_setWebhooks (repo : Repo) (hooks : gmap Z WebhookEntry) : Repo :=
  {| Webhooks := Some hooks;
     PullRequests := PullRequests repo;
     Commits := Commits repo;
     CommitStatuses := CommitStatuses repo |}.

Definition Repo_setCommitStatuses (repo : Repo) (statuses : gmap string (list CommitStatus))
  : Repo :=
  {| Webhooks := Webhooks repo;
     PullRequests := PullRequests repo;
     Commits := Commits repo;
     CommitStatuses := Some statuses |}.

Definition Repo_merged (repo : Repo) (prs : gmap Z PullRequest)
    (commits : gmap string (list Commit)) : Repo :=
  {| Webhooks := Webhooks repo;
     PullRequests := Some prs;
     Commits := Some commits;
     CommitStatuses := CommitStatuses repo |}.

(** The global [Repos] of the package, and the clock [time.Now()] reads. *)
Record Store : Type := mkStore {
  Repos : option (gmap string Repo);
  Now : Z
}.

Definition Store_setRepo (st : Store) (repos : gmap string Repo)
    (name : string) (repo : Repo) : Store :=
  {| Repos := Some (<[name := repo]> repos); Now := Now st |}.

(** The common prologue: [Repos == nil], then the lookup of
    [Repos[c.IntegrationConfig.Spec.Git.Repository]]. *)
Definition lookupRepo (repoName : string) (st : Store)
  : result (gmap string Repo * Repo) :=
  match Repos st with
  | None => Err (errors_New "repos not initialized")
  | Some repos =>
      match repos !! repoName with
      | None => Err (errors_New "404 no such repository")
      | Some repo => Ok (repos, repo)
      end
  end.

(** The error of the two rate-limit branches:
    [fmt.Errorf("unixtime::%s. Rate limit exceeded, code 403. ...",
    strconv.FormatInt(time.Now().Unix()+100, 10))]. *)
Definition rateLimitExceeded (now : Z) : error :=
  Git.rateLimitError "unixtime" (wrap64 (now + 100))
    " Rate limit exceeded, code 403. Please increase the limit or wait until reset".

(** The loop of [ListWebhook] over the registered webhooks. *)
Fixpoint listWebhooks (now : Z) (hooks : list WebhookEntry) (res : list WebhookEntry)
  : result (list WebhookEntry) :=
  match hooks with
  | [] => Ok res
  | w :: rest =>
      if Contains (WebhookEntry_URL w) "test-rate-limit" then Err (rateLimitExceeded now)
      else listWebhooks now rest (res ++ [w])
  end.

(** [ListWebhook].  Go ranges over a map in an unspecified order; the order
    of [map_to_list] stands for it.  Ranging over a nil map does nothing. *)
Definition ListWebhook (c : Fake.Client) (st : Store) : result (list WebhookEntry) :=
  match lookupRepo (Git_Repository (Fake.Client_IntegrationConfig c)) st with
  | Err e => Err e
  | Ok (_, repo) =>
      listWebhooks (Now st) (snd <$> map_to_list (default ∅ (Webhooks repo))) []
  end.

(** [RegisterWebhook]; [id] is the number [rand.Intn(100)] draws. *)
Definition RegisterWebhook (c : Fake.Client) (id : Z) (url : string) (st : Store)
  : option error * Store :=
  let repoName := Git_Repository (Fake.Client_IntegrationConfig c) in
  match lookupRepo repoName st with
  | Err e => (Some e, st)
  | Ok (repos, repo) =>
      match Webhooks repo with
      | None => (Some (errors_New "webhooks not initialized"), st)
      | Some hooks =>
          if Contains url "test-rate-limit" then (Some (rateLimitExceeded (Now st)), st)
          else
            (None,
             Store_setRepo st repos repoName
               (Repo_setWebhooks repo
                  (<[id := {| WebhookEntry_ID := id; WebhookEntry_URL := url |}]> hooks)))
      end
  end.

(** [DeleteWebhook]: [delete] on a nil map does nothing. *)
Definition DeleteWebhook (c : Fake.Client) (id : Z) (st : Store) : option error * Store :=
  let repoName := Git_Repository (Fake.Client_IntegrationConfig c) in
  match lookupRepo repoName st with
  | Err e => (Some e, st)
  | Ok (repos, repo) =>
      match Webhooks repo with
      | None => (None, st)
      | Some hooks =>
          (None, Store_setRepo st repos repoName (Repo_setWebhooks repo (delete id hooks)))
      end
  end.

(** [ListCommitStatuses] *)
Definition ListCommitStatuses (c : Fake.Client) (ref : string) (st : Store)
  : result (list CommitStatus) :=
  match lookupRepo (Git_Repository (Fake.Client_IntegrationConfig c)) st with
  | Err e => Err e
  | Ok (_, repo) =>
      match CommitStatuses repo with
      | None => Err (errors_New "commit statuses not initialized")
      | Some statuses =>
          match statuses !! ref with
          | None => Err (errors_New "404 no such ref")
          | Some found => Ok found
          end
      end
  end.

(** [SetCommitStatus]: the status is appended to [repo.CommitStatuses[sha]];
    a missing entry reads as the nil slice. *)
Definition SetCommitStatus (c : Fake.Client) (sha : string) (status : CommitStatus)
    (st : Store) : option error * Store :=
  let repoName := Git_Repository (Fake.Client_IntegrationConfig c) in
  match lookupRepo repoName st with
  | Err e => (Some e, st)
  | Ok (repos, repo) =>
      match CommitStatuses repo with
      | None => (Some (errors_New "commit statuses not initialized"), st)
      | Some statuses =>
          (None,
           Store_setRepo st repos repoName
             (Repo_setCommitStatuses repo
                (<[sha := default [] (statuses !! sha) ++ [status]]> statuses)))
      end
  end.

(** [ListPullRequests]: the flag is not looked at. *)
Definition ListPullRequests (c : Fake.Client) (_ : bool) (st : Store)
  : result (list PullRequest) :=
  match lookupRepo (Git_Repository (Fake.Client_IntegrationConfig c)) st with
  | Err e => Err e
  | Ok (_, repo) => Ok (snd <$> map_to_list (default ∅ (PullRequests repo)))
  end.

(** [GetPullRequest] *)
Definition GetPullRequest (c : Fake.Client) (id : Z) (st : Store) : result PullRequest :=
  match lookupRepo (Git_Repository (Fake.Client_IntegrationConfig c)) st with
  | Err e => Err e
  | Ok (_, repo) =>
      match PullRequests repo with
      | None => Err (errors_New "pull requests not initialized")
      | Some prs =>
          match prs !! id with
          | None => Err (errors_New "404 no such pr")
          | Some pr => Ok pr
          end
      end
  end.

(** Modelled from the spec: [git.MergeMethod], the method of a merge. *)
Definition MergeMethod : Type := string.

(** The message of the merge commit: the default is
    [fmt.Sprintf("%s(#%d)", pr.Title, pr.ID)]. *)
Definition mergeMessage (pr : PullRequest) (message : string) : string :=
  if bool_decide (message = EmptyString)
  then PullRequest_Title (PullRequest_Fields pr) +:+ "(#"
       +:+ FormatInt (PullRequest_ID (PullRequest_Fields pr)) +:+ ")"
  else message.

(** [MergePullRequest]; the sha and the merge method are not looked at.
    A nil [repo.PullRequests] reads as a map without the key; the
    assignment to [repo.Commits[pr.Base.Ref]] panics on a nil map. *)
Definition MergePullRequest (c : Fake.Client) (id : Z) (_ : string) (_ : MergeMethod)
    (message : string) (st : Store) : outcome (option error * Store) :=
  let repoName := Git_Repository (Fake.Client_IntegrationConfig c) in
  match lookupRepo repoName st with
  | Err e => Returns (Some e, st)
  | Ok (repos, repo) =>
      match PullRequests repo with
      | None => Returns (Some (errors_New "404 no such pr"), st)
      | Some prs =>
          match prs !! id with
          | None => Returns (Some (errors_New "404 no such pr"), st)
          | Some pr =>
              let commit :=
                {| Commit_SHA := Head_Sha (PullRequest_Head pr);
                   Commit_Message := mergeMessage pr message |} in
              match Commits repo with
              | None => Panics
              | Some commits =>
                  let ref := Base_Ref (PullRequest_Base pr) in
                  Returns
                    (None,
                     Store_setRepo st repos repoName
                       (Repo_merged repo (<[id := PullRequest_close pr]> prs)
                          (<[ref := default [] (commits !! ref) ++ [commit]]> commits)))
              end
          end
      end
  end.

End FakeRemote.

(** ** Vocabulary of the properties *)

(** A command is '/approve': type [approve], no argument. *)
Definition isApproveCommand (command : Command) : Prop :=
  Command_Type command = "approve" /\ Command_Args command = [].

(** A command is '/approve cancel': type [approve], the one argument [cancel]. *)
Definition isCancelCommand (command : Command) : Prop :=
  Command_Type command = "approve" /\ Command_Args command = ["cancel"].

(** A comment that decides nothing: its review state is neither Approved
    nor Unapproved and none of its commands is '/approve' or
    '/approve cancel'. *)
Definition notDecisive (ExtractCommands : string -> list Command) (comment : IssueComment)
  : Prop :=
  IssueComment_ReviewState comment <> PullRequestReviewStateApproved
  /\ IssueComment_ReviewState comment <> PullRequestReviewStateUnapproved
  /\ Forall (fun command => ~ isApproveCommand command /\ ~ isCancelCommand command)
       (ExtractCommands (Comment_Body (IssueComment_Comment comment))).

(** A comment that decides: its review state is Approved or Unapproved, or
    one of its commands is '/approve' or '/approve cancel'. *)
Definition decisive (ExtractCommands : string -> list Command) (comment : IssueComment)
  : Prop :=
  IssueComment_ReviewState comment = PullRequestReviewStateApproved
  \/ IssueComment_ReviewState comment = PullRequestReviewStateUnapproved
  \/ Exists (fun command => isApproveCommand command \/ isCancelCommand command)
       (ExtractCommands (Comment_Body (IssueComment_Comment comment))).

(** The method [Before] of [metav1.Time] on two pointers: false when either
    is nil. *)
Definition Before (t u : option Z) : bool :=
  match t, u with
  | Some a, Some b => a <? b
  | _, _ => false
  end.

Definition createdAt (comment : IssueComment) : option Z :=
  Comment_CreatedAt (IssueComment_Comment comment).

(** What [sort.Slice] guarantees for the [less] of [handleApproveCheckCommand]:
    no comment is created before a comment that stands behind it. *)
Definition newestFirst (comments : list IssueComment) : Prop :=
  StronglySorted (fun a b => Before (createdAt a) (createdAt b) = false) comments.

(** A byte that is not a decimal digit. *)
Definition notDigit (c : ascii) : Prop := forall u, GoStrings.digitChar u <> c.

(** The finalizers behind the removed marker after the deletion: the last
    of them has moved to the front. *)
Definition lastToFront (post : list string) : list string :=
  match post with
  | [] => []
  | _ => List.last post EmptyString :: removelast post
  end.

(** The labels of pull request [id] of repository [repoName] in the fake store. *)
Definition labelsOf (repoName : string) (id : Z) (st : Fake.Store)
  : option (list IssueLabel) :=
  repos ← Fake.Repos st;
  repo ← repos !! repoName;
  prs ← Fake.PullRequests repo;
  pr ← prs !! id;
  Some (PullRequest_Labels pr).

(** [authorize] rejects the sender as unauthorized: the sender is the
    author of the pull request, or is not the author and the client
    reports that the sender has no write privilege.  [w1] is the world
    after [authorize]; the privilege is read in the second case only. *)
Definition rejected {St : Type} (cli : Client St) (sender author : User)
    (w w1 : World St Approve.Call) : Prop :=
  (User_ID sender = User_ID author /\ w1 = w)
  \/ (User_ID sender <> User_ID author
      /\ exists s1 : St,
           CanUserWriteToRepo cli sender (remote w) = (Ok false, s1)
           /\ w1 = {| remote := s1;
                      calls := calls w ++ [Approve.CallCanUserWriteToRepo sender] |}).

(** The comments of repository [repoName] in the fake store, by issue. *)
Definition commentsOf (repoName : string) (st : Fake.Store)
  : option (gmap Z (list IssueComment)) :=
  repos ← Fake.Repos st;
  repo ← repos !! repoName;
  Fake.Comments repo.

(** The labels that are not named [name], in their order. *)
Definition withoutLabel (name : string) (labels : list IssueLabel) : list IssueLabel :=
  filter (fun l => IssueLabel_Name l <> name) labels.

(** The repository [repoName] of the fake store of webhooks, commit
    statuses and merges. *)
Definition repoOf (repoName : string) (st : FakeRemote.Store) : option FakeRemote.Repo :=
  repos ← FakeRemote.Repos st;
  repos !! repoName.

(** A webhook url that makes the fake client report a rate limit. *)
Definition rateLimited (url : string) : Prop :=
  GoStrings.Contains url "test-rate-limit" = true.

(** The objects handed to [accumulate] and the requests sent, in the order
    of the log. *)
Definition accumulated {Obj : Type} (evs : list (Http.Event Obj)) : list Obj :=
  omap (fun ev => match ev with
                  | Http.EvAccumulate obj => Some obj
                  | Http.EvDo _ => None
                  end) evs.

Definition requested {Obj : Type} (evs : list (Http.Event Obj)) : list Http.Request :=
  omap (fun ev => match ev with
                  | Http.EvDo req => Some req
                  | Http.EvAccumulate _ => None
                  end) evs.

Section Paging.

Context {St TLS Obj : Type}.
Variable http_NewRequest : string -> string -> string -> result Http.Request.
Variable Do : option TLS -> Http.Request -> St -> result Http.Response * St.
Variable json_Unmarshal : string -> result Obj.
Variable ParseLinkHeader : string -> option (list Http.LinkHeaderEntry).
Variable Find : list Http.LinkHeaderEntry -> string -> option Http.LinkHeaderEntry.
Variable header : list (string * string).
Variable tlsConfig : option TLS.

(** The server in state [s] answers the GET request for [uri] with the
    status [code], the header [h] and the readable body [body]; [s'] is the
    server afterwards. *)
Definition answers (uri : string) (s : St) (code : Z) (h : Http.Header) (body : string)
    (s' : St) : Prop :=
  exists req resp,
    http_NewRequest "GET" uri EmptyString = Ok req
    /\ Do tlsConfig (Http.addHeaders req header) s = (Ok resp, s')
    /\ Http.StatusCode resp = code
    /\ Http.Response_Header resp = h
    /\ Http.Response_Body resp = Ok body.

(** One page is served: a 2xx answer whose body unmarshals to [obj]. *)
Definition serves (uri : string) (s : St) (obj : Obj) (h : Http.Header) (s' : St) : Prop :=
  exists code body,
    answers uri s code h body s'
    /\ 200 <= code <= 299
    /\ json_Unmarshal body = Ok obj.

(** A chain of pages: starting at [uri] with the server in state [s], the
    pages [objs] are served one after the other, each linking to the
    next, and the last of them links to [uri'], where the server is in
    state [s']. *)
Inductive Chain : string -> St -> list Obj -> string -> St -> Prop :=
| Chain_nil (uri : string) (s : St) : Chain uri s [] uri s
| Chain_cons (uri : string) (s : St) (obj : Obj) (h : Http.Header) (s1 : St)
    (next : string) (objs : list Obj) (uri' : string) (s' : St) :
    serves uri s obj h s1 ->
    Http.nextPage ParseLinkHeader Find (Some h) = Some next ->
    Chain next s1 objs uri' s' ->
    Chain uri s (obj :: objs) uri' s'.

End Paging.

(** ** Fixtures: concrete collaborators to run the handlers against *)
Module Fixtures.

(** Modelled from the spec: the whitespace-separated tokens of a line. *)
Definition fields (line : string) : list string :=
  filter (fun token => token <> EmptyString) (GoStrings.Split line " ").

(** Modelled from the spec: a line beginning with [/] is split into a
    command name and an argument list. *)
Definition extractLine (line : string) : option Command :=
  match line with
  | String "/" rest =>
      match fields rest with
      | name :: args => Some {| Command_Type := name; Command_Args := args |}
      | [] => None
      end
  | _ => None
  end.

(** Modelled from the spec: [chatops.ExtractCommands], which is not among
    the sources.  The Command Extractor scans a comment body for lines
    beginning with [/], splits each into a command name and a
    whitespace-separated argument list, and yields zero or more commands
    per comment; other text is ignored. *)
Definition ExtractCommands (body : string) : list Command :=
  omap extractLine (GoStrings.Split body Approve.nl).

(** A cluster that answers every call of one pass from a script. *)
Record Script : Type := mkScript {
  onGetJob : result IntegrationJob;
  onGetConfig : result IntegrationConfig;
  onGetRun : result unit;
  onPatch : option error;
  onStatusPatch : option error;
  onReflectStatus : option error
}.

Definition answer (e : option error) (instance : IntegrationJob) : result IntegrationJob :=
  match e with
  | Some err => Err err
  | None => Ok instance
  end.

Definition scriptedCluster (s : Script) : Controllers.Cluster unit unit :=
  {| Controllers.GetIntegrationJob := fun _ k => (onGetJob s, k);
     Controllers.GetIntegrationConfig := fun _ k => (onGetConfig s, k);
     Controllers.GetPipelineRun := fun _ k => (onGetRun s, k);
     Controllers.Patch := fun instance _ k => (answer (onPatch s) instance, k);
     Controllers.StatusPatch := fun instance _ k => (answer (onStatusPatch s) instance, k);
     Controllers.Notify := fun _ k => (tt, k);
     Controllers.ReflectStatus := fun _ instance _ k => ((instance, onReflectStatus s), k) |}.

Definition finalizer : string := "cicd.tmax.io/finalizer".
Definition Failed : string := "Failed".

Definition alice : User := {| User_ID := 1; User_Name := "alice" |}.
Definition bob : User := {| User_ID := 2; User_Name := "bob" |}.

Definition config (token : option GitToken) : IntegrationConfig :=
  {| IntegrationConfig_Name := "test-ic";
     IntegrationConfig_Namespace := "test-ns";
     Git_Repository := "test-repo";
     Git_Token := token |}.

Definition pr42 (labels changed : list IssueLabel) : PullRequest :=
  {| PullRequest_ID := 42;
     PullRequest_Title := "Fix bug";
     PullRequest_State := PullRequestStateOpen;
     PullRequest_Action := PullRequestActionLabeled;
     PullRequest_Author := alice;
     PullRequest_URL := "https://git.example/test-repo/pull/42";
     PullRequest_Mergeable := true;
     PullRequest_Labels := labels;
     PullRequest_LabelChanged := changed |}.

Definition approved : IssueLabel := {| IssueLabel_Name := "approved" |}.

(** The fake store with the one repository [test-repo] holding PR 42, in
    which bob may write and alice may not. *)
Definition store (labels : list IssueLabel) : Fake.Store :=
  {| Fake.Repos :=
       Some {[ "test-repo" :=
                 {| Fake.UserCanWrite := Some {[ "bob" := true; "alice" := false ]};
                    Fake.PullRequests := Some {[ 42 := pr42 labels [] ]};
                    Fake.Comments := Some ∅ |} ]};
     Fake.Now := 1700000000 |}.

Definition client : Client Fake.Store :=
  fakeClient {| Fake.Client_IntegrationConfig := config (Some {| GitToken_Value := "test-tkn" |}) |}.

Definition GetGitCli (_ : IntegrationConfig) : result (Client Fake.Store) := Ok client.

Definition unauthorizedErrorText (user repo : string) : string :=
  "user " +:+ user +:+ " is not authorized for " +:+ repo.

Definition comment (body : string) (reviewState : PullRequestReviewState) (createdAt : Z)
  : IssueComment :=
  {| IssueComment_Comment := {| Comment_Body := body; Comment_CreatedAt := Some createdAt |};
     IssueComment_Issue := {| Issue_PullRequest := Some (pr42 [] []) |};
     IssueComment_Author := bob;
     IssueComment_ReviewState := reviewState |}.

Definition labelWebhook (sender : User) (labels : list IssueLabel) : Webhook :=
  {| Webhook_EventType := EventTypePullRequest;
     Webhook_Repo := {| Repository_Name := "test-repo"; Repository_URL := "https://git.example/test-repo" |};
     Webhook_Sender := sender;
     Webhook_PullRequest := Some (pr42 labels [approved]);
     Webhook_IssueComment := None |}.

Definition job (finalizers : list string) (deletion completion : option Z) : IntegrationJob :=
  {| IntegrationJob_Name := "test-job";
     IntegrationJob_Namespace := "test-ns";
     Finalizers := finalizers;
     DeletionTimestamp := deletion;
     ConfigRef_Name := "test-ic";
     Status := {| Status_State := "Completed";
                  Status_Message := EmptyString;
                  Status_CompletionTime := completion |} |}.


Definition notFound : error :=
  {| Error := "pipelineruns.tekton.dev not found"; dynType := StatusError true |}.

Definition conflict : error :=
  {| Error := "Operation cannot be fulfilled: the object has been modified";
     dynType := StatusError false |}.

Definition req : Controllers.NamespacedName :=
  {| Controllers.Namespace := "test-ns"; Controllers.Name := "test-job" |}.

Definition emptyWorld {St Ev : Type} (s : St) : World St Ev :=
  {| remote := s; calls := [] |}.

(** A job under deletion with two more finalizers behind the marker; every
    call succeeds. *)
Definition deletedJob : IntegrationJob :=
  job [finalizer; "a"; "b"] (Some 1700000500) None.

Definition deletionScript : Script :=
  {| onGetJob := Ok deletedJob;
     onGetConfig := Ok (config None);
     onGetRun := Ok tt;
     onPatch := None;
     onStatusPatch := None;
     onReflectStatus := None |}.

(** A completed job under deletion; the patch that removes the finalizer
    is refused. *)
Definition completedJob : IntegrationJob :=
  job [finalizer] (Some 1700000500) (Some 1700000000).

Definition refusedPatchScript (instance : IntegrationJob) : Script :=
  {| onGetJob := Ok instance;
     onGetConfig := Ok (config None);
     onGetRun := Ok tt;
     onPatch := Some conflict;
     onStatusPatch := None;
     onReflectStatus := None |}.



(** A comment event on the open pull request 42 of alice. *)
Definition commentWebhook (sender : User) (body : string) : Webhook :=
  {| Webhook_EventType := EventTypeOther "issue_comment";
     Webhook_Repo := {| Repository_Name := "test-repo"; Repository_URL := "https://git.example/test-repo" |};
     Webhook_Sender := sender;
     Webhook_PullRequest := None;
     Webhook_IssueComment := Some (comment body ReviewStateNone 1700000000) |}.

(** A review event on the same pull request. *)
Definition reviewWebhook (sender : User) (reviewState : PullRequestReviewState) : Webhook :=
  {| Webhook_EventType := EventTypePullRequestReview;
     Webhook_Repo := {| Repository_Name := "test-repo"; Repository_URL := "https://git.example/test-repo" |};
     Webhook_Sender := sender;
     Webhook_PullRequest := None;
     Webhook_IssueComment := Some (comment "looks good" reviewState 1700000000) |}.

Definition token : option GitToken := Some {| GitToken_Value := "test-tkn" |}.

(** carol is not in the write-permission map of the repository. *)
Definition carol : User := {| User_ID := 3; User_Name := "carol" |}.

(** The fake client of [test-repo]. *)
Definition fake : Fake.Client := {| Fake.Client_IntegrationConfig := config token |}.

(** Pull request 7 of the specification's merge scenario. *)
Definition pr7 : FakeRemote.PullRequest :=
  {| FakeRemote.PullRequest_Fields :=
       {| PullRequest_ID := 7;
          PullRequest_Title := "Fix bug";
          PullRequest_State := PullRequestStateOpen;
          PullRequest_Action := PullRequestActionOther EmptyString;
          PullRequest_Author := alice;
          PullRequest_URL := "https://git.example/test-repo/pull/7";
          PullRequest_Mergeable := true;
          PullRequest_Labels := [];
          PullRequest_LabelChanged := [] |};
     FakeRemote.PullRequest_Head :=
       {| FakeRemote.Head_Ref := "fix-bug"; FakeRemote.Head_Sha := "abc123" |};
     FakeRemote.PullRequest_Base := {| FakeRemote.Base_Ref := "master" |} |}.

Definition hook7 : FakeRemote.WebhookEntry :=
  {| FakeRemote.WebhookEntry_ID := 7;
     FakeRemote.WebhookEntry_URL := "https://ci.example/webhook/test-ns/test-ic" |}.

(** The store of [test-repo] with one webhook and pull request 7. *)
Definition remoteStore (hooks : gmap Z FakeRemote.WebhookEntry)
    (commits : option (gmap string (list FakeRemote.Commit))) : FakeRemote.Store :=
  {| FakeRemote.Repos :=
       Some {[ "test-repo" :=
                 {| FakeRemote.Webhooks := Some hooks;
                    FakeRemote.PullRequests := Some {[ 7 := pr7 ]};
                    FakeRemote.Commits := commits;
                    FakeRemote.CommitStatuses := Some ∅ |} ]};
     FakeRemote.Now := 1700000000 |}.

Definition success : FakeRemote.CommitStatus :=
  {| FakeRemote.CommitStatus_State := "success";
     FakeRemote.CommitStatus_Description := "Job is completed" |}.

(** A paginated api.  The server counts the requests it answers.  The
    list of items has two pages; the list of runs links to a page that is
    gone; the events page links to itself. *)
Definition itemsURL : string := "https://git.example/api/items".
Definition runsURL : string := "https://git.example/api/runs".
Definition eventsURL : string := "https://git.example/api/events".

Definition linked (next : string) : Http.Header :=
  {| Http.Header_Get := fun key => if bool_decide (key = "Link") then next else EmptyString |}.

Definition respond (code : Z) (next body : string) : result Http.Response :=
  Ok {| Http.StatusCode := code;
        Http.Response_Header := linked next;
        Http.Response_Body := Ok body |}.

Definition Do (_ : option unit) (req : Http.Request) (answered : nat)
  : result Http.Response * nat :=
  let uri := Http.Request_URL req in
  (if bool_decide (uri = itemsURL +:+ "?per_page=100")
   then respond 200 (itemsURL +:+ "?page=2") "[1,2]"
   else if bool_decide (uri = itemsURL +:+ "?page=2")
   then respond 200 EmptyString "[3]"
   else if bool_decide (uri = runsURL +:+ "?per_page=100")
   then respond 200 (runsURL +:+ "?page=2") "[1]"
   else if bool_decide (uri = eventsURL +:+ "?per_page=100")
   then respond 200 (eventsURL +:+ "?per_page=100") "[0]"
   else respond 403 EmptyString "Rate limit exceeded",
   S answered).

Definition json_Marshal (_ : unit) : result string := Ok "null".

Definition http_NewRequest (method uri body : string) : result Http.Request :=
  Ok {| Http.Request_Method := method;
        Http.Request_URL := uri;
        Http.Request_Body := body;
        Http.Request_Header := [] |}.

Definition url_Parse (apiURL : string) : result Http.URL :=
  Ok {| Http.URL_Location := apiURL; Http.RawQuery := EmptyString |}.

Definition url_String (u : Http.URL) : string :=
  Http.URL_Location u +:+ "?" +:+ Http.RawQuery u.

(** The pages are kept as they come. *)
Definition json_Unmarshal (body : string) : result string := Ok body.

(** Modelled from the spec: the link metadata of a response with its
    "next" relation. *)
Definition ParseLinkHeader (link : string) : option (list Http.LinkHeaderEntry) :=
  if bool_decide (link = EmptyString) then None
  else Some [{| Http.Link_URL := link; Http.Link_Rel := "next" |}].

Definition Find (links : list Http.LinkHeaderEntry) (rel : string)
  : option Http.LinkHeaderEntry :=
  List.find (fun l => bool_decide (Http.Link_Rel l = rel)) links.

Definition authHeader : list (string * string) := [("Authorization", "token test-tkn")].

Definition approve (args : list string) : Command :=
  {| Command_Type := "approve"; Command_Args := args |}.

Definition lgtm : IssueLabel := {| IssueLabel_Name := "lgtm" |}.

(** A comment of bob on pull request 42 after it was closed. *)
Definition closedComment : IssueComment :=
  {| IssueComment_Comment := {| Comment_Body := "/approve"; Comment_CreatedAt := Some 1700000000 |};
     IssueComment_Issue :=
       {| Issue_PullRequest :=
            Some {| PullRequest_ID := 42;
                    PullRequest_Title := "Fix bug";
                    PullRequest_State := PullRequestStateClosed;
                    PullRequest_Action := PullRequestActionOther EmptyString;
                    PullRequest_Author := alice;
                    PullRequest_URL := "https://git.example/test-repo/pull/42";
                    PullRequest_Mergeable := false;
                    PullRequest_Labels := [];
                    PullRequest_LabelChanged := [] |} |};
     IssueComment_Author := bob;
     IssueComment_ReviewState := ReviewStateNone |}.

Definition closedWebhook : Webhook :=
  {| Webhook_EventType := EventTypeOther "issue_comment";
     Webhook_Repo := {| Repository_Name := "test-repo"; Repository_URL := "https://git.example/test-repo" |};
     Webhook_Sender := bob;
     Webhook_PullRequest := None;
     Webhook_IssueComment := Some closedComment |}.

(** A client of a server that refuses to delete a label that is not
    there; everything else is the fake client. *)
Definition strictClient : Client Fake.Store :=
  {| CanUserWriteToRepo := CanUserWriteToRepo client;
     RegisterComment := RegisterComment client;
     ListComments := ListComments client;
     ListLabels := ListLabels client;
     SetLabel := SetLabel client;
     DeleteLabel := fun _ _ _ st => (Some (errors_New "404 Label does not exist"), st) |}.

(** The job is gone when the pass starts. *)
Definition goneScript : Script :=
  {| onGetJob := Err notFound;
     onGetConfig := Ok (config None);
     onGetRun := Ok tt;
     onPatch := None;
     onStatusPatch := None;
     onReflectStatus := None |}.

(** A job that has just been created, with the finalizer of another
    controller only. *)
Definition newJob : IntegrationJob := job ["other.io/finalizer"] None None.

Definition newJobScript : Script :=
  {| onGetJob := Ok newJob;
     onGetConfig := Ok (config None);
     onGetRun := Ok tt;
     onPatch := None;
     onStatusPatch := None;
     onReflectStatus := None |}.


(** A job that has ended and is not under deletion. *)
Definition endedJob : IntegrationJob := job [finalizer] None (Some 1700000000).

Definition endedScript : Script :=
  {| onGetJob := Ok endedJob;
     onGetConfig := Ok (config None);
     onGetRun := Ok tt;
     onPatch := None;
     onStatusPatch := None;
     onReflectStatus := None |}.

(** dave is known to the repository and may not write. *)
Definition dave : User := {| User_ID := 4; User_Name := "dave" |}.

(** The store of [test-repo] with dave among its users. *)
Definition teamStore (labels : list IssueLabel) : Fake.Store :=
  {| Fake.Repos :=
       Some {[ "test-repo" :=
                 {| Fake.UserCanWrite :=
                      Some {[ "bob" := true; "alice" := false; "dave" := false ]};
                    Fake.PullRequests := Some {[ 42 := pr42 labels [] ]};
                    Fake.Comments := Some ∅ |} ]};
     Fake.Now := 1700000000 |}.

End Fixtures.

(** * Properties *)

(** ** Strings *)
Section StringFacts.

Import GoStrings.

Lemma HasPrefix_append (sep rest : string) : HasPrefix (sep +:+ rest) sep = true.
Proof.
  induction sep as [|c sep IH]; simpl.
  - destruct rest; reflexivity.
  - rewrite Ascii.eqb_refl. exact IH.
Qed.

Lemma length_append (a b : string) :
  String.length (a +:+ b) = (String.length a + String.length b)%nat.
Proof. induction a as [|c a IH]; simpl; [reflexivity | now rewrite IH]. Qed.

Lemma sliceTo_append (a b : string) : sliceTo (String.length a) (a +:+ b) = a.
Proof. induction a as [|c a IH]; simpl; [now destruct b | now rewrite IH]. Qed.

Lemma sliceFrom_append (a b : string) (n : nat) :
  sliceFrom (String.length a + n) (a +:+ b) = sliceFrom n b.
Proof. induction a as [|c a IH]; simpl; [reflexivity | exact IH]. Qed.

(** [Contains s (byte c) = false]: the byte [c] does not occur in [s]. *)
Lemma Contains_byte_cons (a c : ascii) (s : string) :
  Contains (String a s) (String c EmptyString) = false ->
  a <> c /\ Contains s (String c EmptyString) = false.
Proof.
  unfold Contains. simpl.
  destruct (Ascii.eqb c a) eqn:E; simpl.
  - destruct s; discriminate.
  - intros H. split.
    + intros ->. rewrite Ascii.eqb_refl in E. discriminate.
    + destruct (Index s (String c EmptyString)); [discriminate | reflexivity].
Qed.

Lemma Contains_byte_cons_intro (a c : ascii) (s : string) :
  a <> c -> Contains s (String c EmptyString) = false ->
  Contains (String a s) (String c EmptyString) = false.
Proof.
  unfold Contains. simpl. intros Hne H.
  destruct (Ascii.eqb c a) eqn:E; simpl.
  - apply Ascii.eqb_eq in E. congruence.
  - destruct (Index s (String c EmptyString)); [discriminate | reflexivity].
Qed.

Lemma Index_cons (c : ascii) (s sub : string) :
  Index (String c s) sub =
  if HasPrefix (String c s) sub then Some 0%nat else option_map S (Index s sub).
Proof. reflexivity. Qed.

Lemma Contains_append_r (s t sub : string) :
  Contains t sub = true -> Contains (s +:+ t) sub = true.
Proof.
  unfold Contains. intros H. induction s as [|c s IH].
  - exact H.
  - change (String c s +:+ t) with (String c (s +:+ t)). rewrite Index_cons.
    destruct (HasPrefix (String c (s +:+ t)) sub); [reflexivity |].
    destruct (Index (s +:+ t) sub); [reflexivity | discriminate].
Qed.

(** The first occurrence of a separator behind a text that does not hold
    the separator's first byte. *)
Lemma Index_after (d rest : string) (c0 : ascii) (sep' : string) :
  Contains d (String c0 EmptyString) = false ->
  Index (d +:+ String c0 sep' +:+ rest) (String c0 sep') = Some (String.length d).
Proof.
  induction d as [|c d IH]; intros H.
  - change (EmptyString +:+ String c0 sep' +:+ rest) with (String c0 sep' +:+ rest).
    pose proof (HasPrefix_append (String c0 sep') rest) as HP.
    simpl in *. rewrite HP. reflexivity.
  - apply Contains_byte_cons in H as [Hne H].
    simpl. destruct (Ascii.eqb c0 c) eqn:E.
    + apply Ascii.eqb_eq in E. congruence.
    + simpl. rewrite (IH H). reflexivity.
Qed.

End StringFacts.

(** ** Decimal numbers: [FormatInt] and [Atoi] *)
Section DecimalFacts.

Import GoStrings.

Lemma mod10_cases (u : Z) :
  u mod 10 = 0 \/ u mod 10 = 1 \/ u mod 10 = 2 \/ u mod 10 = 3 \/ u mod 10 = 4 \/
  u mod 10 = 5 \/ u mod 10 = 6 \/ u mod 10 = 7 \/ u mod 10 = 8 \/ u mod 10 = 9.
Proof. pose proof (Z.mod_pos_bound u 10). lia. Qed.

Ltac by_digit u :=
  unfold digitChar;
  destruct (mod10_cases u) as [H|[H|[H|[H|[H|[H|[H|[H|[H|H]]]]]]]]];
  rewrite H; vm_compute; try reflexivity; try discriminate.

Lemma digitVal_digitChar (u : Z) : digitVal (digitChar u) = Some (u mod 10).
Proof. by_digit u. Qed.

Lemma colon_notDigit : notDigit ":".
Proof. intros u. by_digit u. Qed.

Lemma dot_notDigit : notDigit ".".
Proof. intros u. by_digit u. Qed.

Lemma minus_notDigit : notDigit "-".
Proof. intros u. by_digit u. Qed.

Lemma plus_notDigit : notDigit "+".
Proof. intros u. by_digit u. Qed.

Lemma formatBits_head (fuel : nat) (u : Z) (acc : string) :
  exists u' rest, formatBits (S fuel) u acc = String (digitChar u') rest.
Proof.
  revert u acc. induction fuel as [|fuel IH]; intros u acc.
  - simpl. destruct (u <? 10); eauto.
  - change (formatBits (S (S fuel)) u acc)
      with (if u <? 10 then String (digitChar u) acc
            else formatBits (S fuel) (u / 10) (String (digitChar u) acc)).
    destruct (u <? 10); [eauto | apply IH].
Qed.

Lemma atoiLoop_formatBits (fuel : nat) (u : Z) (acc : string) :
  0 <= u < 10 ^ Z.of_nat fuel ->
  atoiLoop 0 (formatBits fuel u acc) = atoiLoop u acc.
Proof.
  revert u acc. induction fuel as [|fuel IH]; intros u acc Hu.
  - simpl in *. replace u with 0 by lia. reflexivity.
  - simpl formatBits. destruct (u <? 10) eqn:E.
    + apply Z.ltb_lt in E. simpl. rewrite digitVal_digitChar.
      rewrite Z.mod_small by lia. reflexivity.
    + apply Z.ltb_ge in E.
      rewrite IH.
      * simpl. rewrite digitVal_digitChar.
        f_equal. pose proof (Z.div_mod u 10). lia.
      * rewrite Nat2Z.inj_succ, Z.pow_succ_r in Hu by lia.
        split; [apply Z.div_pos; lia | apply Z.div_lt_upper_bound; lia].
Qed.

Lemma formatBits_no_byte (c : ascii) (fuel : nat) (u : Z) (acc : string) :
  notDigit c ->
  Contains acc (String c EmptyString) = false ->
  Contains (formatBits fuel u acc) (String c EmptyString) = false.
Proof.
  intros Hc. revert u acc. induction fuel as [|fuel IH]; intros u acc Hacc.
  - exact Hacc.
  - simpl. destruct (u <? 10).
    + apply Contains_byte_cons_intro; [apply Hc | exact Hacc].
    + apply IH. apply Contains_byte_cons_intro; [apply Hc | exact Hacc].
Qed.

Lemma FormatInt_no_byte (c : ascii) (i : Z) :
  notDigit c -> c <> "-"%char ->
  Contains (FormatInt i) (String c EmptyString) = false.
Proof.
  intros Hc Hm. unfold FormatInt. destruct (i <? 0).
  - apply Contains_byte_cons_intro; [congruence |].
    apply formatBits_no_byte; [exact Hc | reflexivity].
  - apply formatBits_no_byte; [exact Hc | reflexivity].
Qed.

Lemma pow10_20 : 10 ^ Z.of_nat 20 = 100000000000000000000.
Proof. reflexivity. Qed.

(** [Atoi] reads back what [FormatInt] writes, for every [int]. *)
Lemma Atoi_FormatInt (i : Z) :
  minInt <= i <= maxInt -> Atoi (FormatInt i) = Some i.
Proof.
  unfold minInt, maxInt. intros Hi.
  assert (Hr : (minInt <=? i) && (i <=? maxInt) = true).
  { unfold minInt, maxInt. apply andb_true_iff. split; apply Z.leb_le; lia. }
  unfold FormatInt. destruct (i <? 0) eqn:E.
  - apply Z.ltb_lt in E.
    destruct (formatBits_head 19 (- i) EmptyString) as (u' & rest & Hf).
    unfold Atoi. change (Ascii.eqb "-" "-") with true. cbv iota beta zeta. simpl orb.
    cbv iota.
    assert (Hl : atoiLoop 0 (formatBits 20 (- i) EmptyString) = Some (- i)).
    { rewrite atoiLoop_formatBits; [reflexivity |]. rewrite pow10_20. lia. }
    rewrite Hf in *. rewrite Hl. rewrite Z.opp_involutive. rewrite Hr. reflexivity.
  - apply Z.ltb_ge in E.
    destruct (formatBits_head 19 i EmptyString) as (u' & rest & Hf).
    assert (Hl : atoiLoop 0 (formatBits 20 i EmptyString) = Some i).
    { rewrite atoiLoop_formatBits; [reflexivity |]. rewrite pow10_20. lia. }
    rewrite Hf in *. unfold Atoi.
    assert (Hm : Ascii.eqb (digitChar u') "-" = false).
    { apply Ascii.eqb_neq. apply minus_notDigit. }
    assert (Hp : Ascii.eqb (digitChar u') "+" = false).
    { apply Ascii.eqb_neq. apply plus_notDigit. }
    rewrite Hm, Hp. cbv iota beta zeta. simpl orb. cbv iota.
    rewrite Hl. rewrite Hr. reflexivity.
Qed.

End DecimalFacts.

(** ** Splitting the rate-limit message *)
Section SplitFacts.

Import GoStrings.

Lemma HasPrefix_cons (b a : ascii) (s p : string) :
  HasPrefix (String b s) (String a p) = Ascii.eqb a b && HasPrefix s p.
Proof. reflexivity. Qed.

Lemma genSplit_step (fuel : nat) (s sep : string) (m : nat) :
  Index s sep = Some m ->
  genSplit (S fuel) s sep
  = sliceTo m s :: genSplit fuel (sliceFrom (m + String.length sep) s) sep.
Proof. intros H. simpl. rewrite H. reflexivity. Qed.

(** An occurrence of ["::"] in [d ++ "." ++ t] lies behind the dot when
    [d] holds no colon. *)
Lemma Index_colons_behind (d t : string) (m : nat) :
  Contains d ":" = false ->
  Index (d +:+ String "." t) "::" = Some m ->
  (String.length d < m)%nat.
Proof.
  revert m. induction d as [|c d IH]; intros m Hd Hm.
  - change (EmptyString +:+ String "." t) with (String "." t) in Hm.
    rewrite Index_cons in Hm.
    change (HasPrefix (String "." t) "::") with false in Hm. cbv iota in Hm.
    destruct (Index t "::"); simpl in Hm; [|discriminate].
    injection Hm as <-. simpl. lia.
  - apply Contains_byte_cons in Hd as [Hne Hd].
    change (String c d +:+ String "." t) with (String c (d +:+ String "." t)) in Hm.
    rewrite Index_cons in Hm.
    assert (HP : HasPrefix (String c (d +:+ String "." t)) "::" = false).
    { rewrite HasPrefix_cons.
      replace (Ascii.eqb ":" c) with false; [reflexivity |].
      symmetry. apply Ascii.eqb_neq. congruence. }
    rewrite HP in Hm.
    destruct (Index (d +:+ String "." t) "::") as [m'|] eqn:E; simpl in Hm; [|discriminate].
    injection Hm as <-. specialize (IH m' Hd eq_refl). simpl. lia.
Qed.

Lemma sliceTo_behind (d t : string) (m : nat) :
  (String.length d < m)%nat ->
  exists t', sliceTo m (d +:+ String "." t) = d +:+ String "." t'.
Proof.
  revert m. induction d as [|c d IH]; intros m Hm.
  - destruct m as [|m]; [simpl in Hm; lia|]. simpl. eauto.
  - destruct m as [|m]; [simpl in Hm; lia|].
    simpl in Hm. destruct (IH m) as [t' Ht']; [lia|].
    exists t'. simpl. rewrite Ht'. reflexivity.
Qed.

(** The first piece of a split at ["::"] keeps the number and the dot. *)
Lemma genSplit_colons_head (fuel : nat) (d t : string) :
  Contains d ":" = false ->
  exists t' pieces,
    genSplit fuel (d +:+ String "." t) "::" = (d +:+ String "." t') :: pieces.
Proof.
  intros Hd. destruct fuel as [|fuel].
  - simpl. eauto.
  - destruct (Index (d +:+ String "." t) "::") as [m|] eqn:E.
    + rewrite (genSplit_step _ _ _ _ E).
      destruct (sliceTo_behind d t m) as [t' Ht'].
      { eapply Index_colons_behind; eauto. }
      rewrite Ht'. eauto.
    + simpl. rewrite E. eauto.
Qed.

(** The first piece of a split at ["."] is the text before the first dot. *)
Lemma Split_dot_first (d t : string) :
  Contains d "." = false ->
  nth_error (Split (d +:+ String "." t) ".") 0 = Some d.
Proof.
  intros Hd. unfold Split.
  pose proof (Index_after d t "." EmptyString Hd) as HI.
  change (String "." EmptyString +:+ t) with (String "." t) in HI.
  rewrite length_append. simpl String.length.
  replace (String.length d + S (String.length t))%nat
    with (S (String.length d + String.length t)) by lia.
  rewrite (genSplit_step _ _ _ _ HI). simpl nth_error.
  rewrite sliceTo_append. reflexivity.
Qed.

(** The second piece of a split at ["::"] of [sentinel ++ "::" ++ d ++ "." ++ t]. *)
Lemma Split_colons_second (sentinel d t : string) :
  Contains sentinel ":" = false ->
  Contains d ":" = false ->
  exists t',
    nth_error (Split (sentinel +:+ "::" +:+ d +:+ String "." t) "::") 1
    = Some (d +:+ String "." t').
Proof.
  intros Hs Hd. unfold Split.
  pose proof (Index_after sentinel (d +:+ String "." t) ":" ":" Hs) as HI.
  assert (Hn : exists n,
             String.length (sentinel +:+ "::" +:+ d +:+ String "." t) = S n).
  { rewrite length_append. simpl. rewrite Nat.add_succ_r. eauto. }
  destruct Hn as [n Hn]. rewrite Hn.
  rewrite (genSplit_step _ _ _ _ HI).
  rewrite sliceFrom_append. simpl sliceFrom.
  change (EmptyString +:+ d +:+ String "." t) with (d +:+ String "." t).
  destruct (genSplit_colons_head n d t Hd) as (t' & pieces & Hg).
  rewrite Hg. simpl. eauto.
Qed.

End SplitFacts.

(** ** The rate-limit helpers of [pkg/git/http.go] *)
Section RateLimit.

Import GoStrings Git.

Lemma CheckRateLimitGetResetTime_nil : CheckRateLimitGetResetTime None = Returns 0.
Proof. reflexivity. Qed.

Lemma CheckRateLimitGetResetTime_other_error (e : error) :
  Contains (Error e) "Rate limit exceeded" = false ->
  CheckRateLimitGetResetTime (Some e) = Returns 0.
Proof. intros H. unfold CheckRateLimitGetResetTime. rewrite H. reflexivity. Qed.

Lemma wrap64_small (z : Z) : minInt <= z <= maxInt -> wrap64 z = z.
Proof.
  unfold minInt, maxInt, wrap64. intros H.
  rewrite Z.mod_small; lia.
Qed.

Lemma CheckRateLimitGetResetTime_roundtrip (sentinel text : string) (epoch : Z) :
  Contains sentinel ":" = false ->
  Contains text "Rate limit exceeded" = true ->
  minInt <= epoch <= maxInt ->
  CheckRateLimitGetResetTime (Some (rateLimitError sentinel epoch text)) = Returns epoch.
Proof.
  intros Hs Ht He.
  unfold CheckRateLimitGetResetTime, rateLimitError, errors_New. cbn [Error].
  assert (HC : Contains (sentinel +:+ "::" +:+ FormatInt epoch +:+ "." +:+ text)
                 "Rate limit exceeded" = true).
  { apply Contains_append_r. apply (Contains_append_r "::").
    apply Contains_append_r. apply (Contains_append_r "."). exact Ht. }
  rewrite HC.
  destruct (Split_colons_second sentinel (FormatInt epoch) text Hs) as [t' Ht'].
  { apply FormatInt_no_byte; [apply colon_notDigit | discriminate]. }
  change ("." +:+ text) with (String "." text).
  rewrite Ht'.
  rewrite Split_dot_first.
  2:{ apply FormatInt_no_byte; [apply dot_notDigit | discriminate]. }
  rewrite Atoi_FormatInt by exact He. reflexivity.
Qed.

(** C7.  [CheckRateLimitGetResetTime] does not return zero on every error
    outside the rate-limit convention: on an error whose text holds
    "Rate limit exceeded" but no ["::"] marker, the index expression
    [strings.Split(strErr, "::")[1]] is out of range and the function
    panics. *)
Theorem CheckRateLimitGetResetTime_panics_without_marker :
  Git.CheckRateLimitGetResetTime (Some (errors_New "Rate limit exceeded")) = Panics.
Proof. vm_compute. reflexivity. Qed.

(** C8.  An error in the wire form [sentinel::epoch.text], with a sentinel
    free of colons (as ["unixtime"] is) and a text that holds
    "Rate limit exceeded", round-trips: [CheckRateLimitGetResetTime] returns
    the epoch, for every epoch of type [int]; and [GetGapTime] of the epoch
    is the epoch minus the current unix time whenever that difference is an
    [int64] (as it is for any two non-negative unix times). *)
Theorem RateLimit_roundtrip (sentinel text : string) (epoch now : Z) :
  Contains sentinel ":" = false ->
  Contains text "Rate limit exceeded" = true ->
  minInt <= epoch <= maxInt ->
  Git.CheckRateLimitGetResetTime (Some (Git.rateLimitError sentinel epoch text))
  = Returns epoch
  /\ (minInt <= epoch - now <= maxInt -> Git.GetGapTime now epoch = epoch - now).
Proof.
  intros Hs Ht He. split.
  - apply CheckRateLimitGetResetTime_roundtrip; assumption.
  - intros Hg. unfold GetGapTime. apply wrap64_small. exact Hg.
Qed.

Lemma RateLimit_roundtrip_witness :
  Git.CheckRateLimitGetResetTime
    (Some (Git.rateLimitError "unixtime" 1700000100
             " Rate limit exceeded, code 403. Please increase the limit or wait until reset"))
  = Returns 1700000100
  /\ Git.GetGapTime 1700000000 1700000100 = 100.
Proof.
  destruct (RateLimit_roundtrip "unixtime"
              " Rate limit exceeded, code 403. Please increase the limit or wait until reset"
              1700000100 1700000000) as [H1 H2].
  - vm_compute. reflexivity.
  - vm_compute. reflexivity.
  - unfold minInt, maxInt. lia.
  - split; [exact H1 |]. apply H2. unfold minInt, maxInt. lia.
Defined.

End RateLimit.

(** ** The approval verdict: [checkApproval] *)
Section CheckApproval.

Variable ExtractCommands : string -> list Command.

Local Abbreviation scanCommands := Approve.scanCommands.
Local Abbreviation checkApproval := (Approve.checkApproval ExtractCommands).

Lemma scanCommands_approve (command : Command) (rest : list Command) :
  isApproveCommand command -> scanCommands (command :: rest) = Some true.
Proof.
  intros [Ht Ha]. simpl. rewrite Ht, Ha. reflexivity.
Qed.

Lemma scanCommands_cancel (command : Command) (rest : list Command) :
  isCancelCommand command -> scanCommands (command :: rest) = Some false.
Proof.
  intros [Ht Ha]. simpl. rewrite Ht, Ha. reflexivity.
Qed.

Lemma scanCommands_other (command : Command) (rest : list Command) :
  ~ isApproveCommand command -> ~ isCancelCommand command ->
  scanCommands (command :: rest) = scanCommands rest.
Proof.
  intros Hna Hnc. simpl. unfold isApproveCommand, isCancelCommand in *.
  destruct command as [ty args]; simpl in *.
  repeat case_bool_decide; simpl; try reflexivity.
  all: exfalso; destruct args as [|a [|b args]]; simpl in *.
  all: first [congruence | apply Hna; split; congruence | apply Hnc; split; congruence].
Qed.

Lemma scanCommands_skip (skipped rest : list Command) :
  Forall (fun command => ~ isApproveCommand command /\ ~ isCancelCommand command) skipped ->
  scanCommands (skipped ++ rest) = scanCommands rest.
Proof.
  induction 1 as [|command skipped [Hna Hnc] _ IH]; [reflexivity |].
  change ((command :: skipped) ++ rest) with (command :: (skipped ++ rest)).
  rewrite scanCommands_other by assumption. exact IH.
Qed.

Lemma scanCommands_none (commands : list Command) :
  Forall (fun command => ~ isApproveCommand command /\ ~ isCancelCommand command) commands ->
  scanCommands commands = None.
Proof.
  intros H. rewrite <- (app_nil_r commands). rewrite scanCommands_skip by exact H.
  reflexivity.
Qed.

Lemma checkApproval_cons (comment : IssueComment) (rest : list IssueComment) :
  checkApproval (comment :: rest) =
  if bool_decide (IssueComment_ReviewState comment = PullRequestReviewStateApproved)
  then true
  else if bool_decide (IssueComment_ReviewState comment = PullRequestReviewStateUnapproved)
  then false
  else match scanCommands (ExtractCommands (Comment_Body (IssueComment_Comment comment))) with
       | Some verdict => verdict
       | None => checkApproval rest
       end.
Proof. reflexivity. Qed.

Lemma checkApproval_notDecisive (comment : IssueComment) (rest : list IssueComment) :
  notDecisive ExtractCommands comment ->
  checkApproval (comment :: rest) = checkApproval rest.
Proof.
  intros (Ha & Hu & Hc). rewrite checkApproval_cons.
  rewrite !bool_decide_eq_false_2 by assumption.
  rewrite scanCommands_none by exact Hc. reflexivity.
Qed.

Lemma checkApproval_skip (newer rest : list IssueComment) :
  Forall (notDecisive ExtractCommands) newer ->
  checkApproval (newer ++ rest) = checkApproval rest.
Proof.
  induction 1 as [|comment newer H _ IH]; [reflexivity |].
  change ((comment :: newer) ++ rest) with (comment :: (newer ++ rest)).
  rewrite checkApproval_notDecisive by exact H. exact IH.
Qed.

(** C1.  The verdict of [checkApproval] on a newest-first list is that of
    its first decisive comment: behind any number of newer comments that
    decide nothing, a review state Approved gives true and Unapproved gives
    false whatever follows; a comment without such a review state gives the
    verdict of the first of its commands that is '/approve' (true) or
    '/approve cancel' (false); the older comments are never looked at.  A
    list without a decisive comment gives false.  For the newest-first list
    ['/approve cancel', review-state Approved, '/approve'] the verdict is
    false. *)
Theorem checkApproval_newest_decisive_wins :
  (forall (newer older : list IssueComment) (comment : IssueComment),
      Forall (notDecisive ExtractCommands) newer ->
      (IssueComment_ReviewState comment = PullRequestReviewStateApproved ->
       Approve.checkApproval ExtractCommands (newer ++ comment :: older) = true)
      /\ (IssueComment_ReviewState comment = PullRequestReviewStateUnapproved ->
          Approve.checkApproval ExtractCommands (newer ++ comment :: older) = false)
      /\ (forall (skipped rest : list Command) (command : Command),
             IssueComment_ReviewState comment <> PullRequestReviewStateApproved ->
             IssueComment_ReviewState comment <> PullRequestReviewStateUnapproved ->
             ExtractCommands (Comment_Body (IssueComment_Comment comment))
             = skipped ++ command :: rest ->
             Forall (fun c => ~ isApproveCommand c /\ ~ isCancelCommand c) skipped ->
             (isApproveCommand command ->
              Approve.checkApproval ExtractCommands (newer ++ comment :: older) = true)
             /\ (isCancelCommand command ->
                 Approve.checkApproval ExtractCommands (newer ++ comment :: older) = false)))
  /\ (forall comments : list IssueComment,
         Forall (notDecisive ExtractCommands) comments ->
         Approve.checkApproval ExtractCommands comments = false)
  /\ (forall (newest middle oldest : IssueComment),
         IssueComment_ReviewState newest = ReviewStateNone ->
         ExtractCommands (Comment_Body (IssueComment_Comment newest))
         = [{| Command_Type := "approve"; Command_Args := ["cancel"] |}] ->
         IssueComment_ReviewState middle = PullRequestReviewStateApproved ->
         ExtractCommands (Comment_Body (IssueComment_Comment oldest))
         = [{| Command_Type := "approve"; Command_Args := [] |}] ->
         Approve.checkApproval ExtractCommands [newest; middle; oldest] = false).
Proof.
  split; [|split].
  - intros newer older comment Hnewer.
    rewrite (checkApproval_skip newer (comment :: older) Hnewer).
    rewrite checkApproval_cons.
    split; [|split].
    + intros ->. reflexivity.
    + intros ->. reflexivity.
    + intros skipped rest command Ha Hu Hx Hs.
      rewrite !bool_decide_eq_false_2 by assumption.
      rewrite Hx, (scanCommands_skip skipped (command :: rest) Hs).
      split; intros Hc.
      * rewrite scanCommands_approve by exact Hc. reflexivity.
      * rewrite scanCommands_cancel by exact Hc. reflexivity.
  - intros comments H. rewrite <- (app_nil_r comments).
    rewrite (checkApproval_skip comments [] H). reflexivity.
  - intros newest middle oldest Hn Hx _ _.
    rewrite checkApproval_cons, Hn, Hx. reflexivity.
Qed.

Lemma scanCommands_decides (commands : list Command) :
  Exists (fun command => isApproveCommand command \/ isCancelCommand command) commands ->
  exists verdict, scanCommands commands = Some verdict.
Proof.
  induction commands as [|command rest IH]; intros H.
  - inversion H.
  - destruct (scanCommands (command :: rest)) as [v|] eqn:E; [eauto |]. exfalso.
    apply Exists_cons in H as [[Ha|Hc]|Ht].
    + rewrite scanCommands_approve in E by exact Ha. discriminate.
    + rewrite scanCommands_cancel in E by exact Hc. discriminate.
    + destruct (IH Ht) as [v Hv]. simpl in E.
      destruct (bool_decide (Command_Type command = "approve")
                && bool_decide (length (Command_Args command) = 0%nat)); [discriminate |].
      destruct (bool_decide (Command_Type command = "approve")
                && bool_decide (length (Command_Args command) = 1%nat)
                && bool_decide (Command_Args command !! 0%nat = Some "cancel"));
        [discriminate | congruence].
Qed.

(** The comments behind a decisive comment are not looked at. *)
Lemma checkApproval_decisive_head (comment : IssueComment) (older : list IssueComment) :
  decisive ExtractCommands comment ->
  checkApproval (comment :: older) = checkApproval [comment].
Proof.
  intros [H|[H|H]]; rewrite !checkApproval_cons.
  - rewrite H. reflexivity.
  - rewrite H. reflexivity.
  - destruct (scanCommands_decides _ H) as [v ->]. reflexivity.
Qed.

(** Whatever order [sort.Slice] leaves the comments in: when every comment
    other than [comment] decides nothing or was created before it, the
    verdict is that of [comment], the newest decisive one. *)
Lemma checkApproval_sorted_newest_decisive
    (sorted : list IssueComment) (comment : IssueComment) :
  newestFirst sorted ->
  comment ∈ sorted ->
  decisive ExtractCommands comment ->
  (forall other, other ∈ sorted ->
     other = comment \/ notDecisive ExtractCommands other
     \/ Before (createdAt other) (createdAt comment) = true) ->
  checkApproval sorted = checkApproval [comment].
Proof.
  intros Hs Hin Hd Hothers.
  induction sorted as [|x l IH]; [inversion Hin |].
  apply StronglySorted_inv in Hs as [Hs Hall]. rewrite Forall_forall in Hall.
  destruct (Hothers x (list_elem_of_here x l)) as [->|[Hnd|Hb]].
  - apply checkApproval_decisive_head. exact Hd.
  - apply elem_of_cons in Hin as [->|Hin].
    + apply checkApproval_decisive_head. exact Hd.
    + rewrite checkApproval_notDecisive by exact Hnd.
      apply IH; [exact Hs | exact Hin |].
      intros other Ho. apply Hothers. apply list_elem_of_further. exact Ho.
  - apply elem_of_cons in Hin as [->|Hin].
    + apply checkApproval_decisive_head. exact Hd.
    + specialize (Hall comment Hin). congruence.
Qed.

End CheckApproval.

Lemma checkApproval_newest_decisive_wins_witness :
  Approve.checkApproval Fixtures.ExtractCommands
    [Fixtures.comment "/approve cancel" ReviewStateNone 30;
     Fixtures.comment "looks good" PullRequestReviewStateApproved 20;
     Fixtures.comment "/approve" ReviewStateNone 10] = false
  /\ Approve.checkApproval Fixtures.ExtractCommands
       [Fixtures.comment "thanks" ReviewStateNone 40;
        Fixtures.comment "/approve" ReviewStateNone 30;
        Fixtures.comment "/approve cancel" ReviewStateNone 10] = true.
Proof.
  pose proof (checkApproval_newest_decisive_wins Fixtures.ExtractCommands) as (H1 & _ & H3).
  split.
  - apply H3; vm_compute; reflexivity.
  - destruct (H1 [Fixtures.comment "thanks" ReviewStateNone 40]
                [Fixtures.comment "/approve cancel" ReviewStateNone 10]
                (Fixtures.comment "/approve" ReviewStateNone 30)) as (_ & _ & H).
    + constructor; [|constructor].
      split; [discriminate | split; [discriminate |]].
      vm_compute. constructor.
    + apply (H [] [] {| Command_Type := "approve"; Command_Args := [] |}).
      * discriminate.
      * discriminate.
      * vm_compute. reflexivity.
      * constructor.
      * split; reflexivity.
Defined.

(** ** The approve plugin: authorization and the handlers *)
Section ApprovePlugin.

Context {St : Type}.
Variable GetGitCli : IntegrationConfig -> result (Client St).
Variable ExtractCommands : string -> list Command.
Variable sortSlice : list IssueComment -> list IssueComment.
Variable unauthorizedErrorText : string -> string -> string.

Local Abbreviation authorize := (Approve.authorize unauthorizedErrorText).
Local Abbreviation handleLabelEvent := (Approve.handleLabelEvent unauthorizedErrorText).
Local Abbreviation Handle := (Approve.Handle GetGitCli unauthorizedErrorText).
Local Abbreviation HandleChatOps :=
  (Approve.HandleChatOps GetGitCli ExtractCommands sortSlice unauthorizedErrorText).


(** C9.  [authorize] fails with an [UnauthorizedError] naming the sender
    whenever the sender is the author of the pull request, without asking
    the remote for the sender's write privilege; and it succeeds when the
    sender is not the author and the remote reports the write privilege. *)
Theorem authorize_author_or_writer (cfg : IntegrationConfig) (sender author : User)
    (cli : Client St) (w : World St Approve.Call) :
  (User_ID sender = User_ID author ->
   Approve.authorize unauthorizedErrorText cfg sender author cli w
   = Returns (Some (Approve.newUnauthorizedError unauthorizedErrorText
                      (User_Name sender) (Git_Repository cfg)), w))
  /\ (User_ID sender <> User_ID author ->
      forall s' : St,
        CanUserWriteToRepo cli sender (remote w) = (Ok true, s') ->
        Approve.authorize unauthorizedErrorText cfg sender author cli w
        = Returns (None, {| remote := s';
                            calls := calls w ++ [Approve.CallCanUserWriteToRepo sender] |})).
Proof.
  split.
  - intros Heq. unfold Approve.authorize.
    rewrite bool_decide_eq_true_2 by exact Heq. reflexivity.
  - intros Hne s' Hw. unfold Approve.authorize.
    rewrite bool_decide_eq_false_2 by exact Hne.
    unfold bind, call. rewrite Hw. reflexivity.
Qed.

(** C10, as far as it holds.  With a nil git token [Handle] returns nil
    and leaves the world as it is: no call is made.  So does
    [HandleChatOps] on a webhook that carries an issue comment. *)
Theorem nil_token_handlers_do_nothing
    (command : Command) (wh : Webhook) (ic : IntegrationConfig)
    (w : World St Approve.Call) :
  Git_Token ic = None ->
  Approve.Handle GetGitCli unauthorizedErrorText wh ic w = Returns (None, w)
  /\ (forall issueComment : IssueComment,
         Webhook_IssueComment wh = Some issueComment ->
         Approve.HandleChatOps GetGitCli ExtractCommands sortSlice unauthorizedErrorText
           command wh ic w = Returns (None, w)).
Proof.
  intros Htoken. split.
  - unfold Approve.Handle. rewrite Htoken. reflexivity.
  - intros issueComment Hc. unfold Approve.HandleChatOps.
    unfold bind, deref. rewrite Hc. unfold ret.
    destruct (Issue_PullRequest (IssueComment_Issue issueComment)) as [pr|]; [|reflexivity].
    destruct (negb (bool_decide (PullRequest_State pr = PullRequestStateOpen)));
      [reflexivity |].
    rewrite Htoken. reflexivity.
Qed.

End ApprovePlugin.

(** ** The approve plugin against the fake client *)
Section ApproveOnFake.

Import Fixtures.

Local Abbreviation token := (Some {| GitToken_Value := "test-tkn" |}).

Lemma authorize_author_or_writer_witness :
  Approve.authorize unauthorizedErrorText (config token) alice alice client
    (emptyWorld (store []))
  = Returns (Some (Approve.newUnauthorizedError unauthorizedErrorText "alice" "test-repo"),
             emptyWorld (store []))
  /\ Approve.authorize unauthorizedErrorText (config token) bob alice client
       (emptyWorld (store []))
     = Returns (None, {| remote := store []; calls := [Approve.CallCanUserWriteToRepo bob] |}).
Proof.
  split.
  - apply (authorize_author_or_writer unauthorizedErrorText (config token) alice alice client
             (emptyWorld (store []))).
    reflexivity.
  - apply (authorize_author_or_writer unauthorizedErrorText (config token) bob alice client
             (emptyWorld (store []))).
    + simpl. lia.
    + vm_compute. reflexivity.
Defined.

(** On the fake client the revert is effective: alice, the author, has
    put the label on her own pull request; after the event is handled the
    label is gone and the rejection comment is the one comment of the pull
    request. *)
Example handleLabelEvent_label_removed_again :
  match Approve.handleLabelEvent unauthorizedErrorText (labelWebhook alice [approved])
          (config token) client (emptyWorld (store [approved])) with
  | Returns (res, w') =>
      res = None
      /\ labelsOf "test-repo" 42 (remote w') = Some []
      /\ match fst (ListComments client 42 (remote w')) with
         | Ok comments =>
             List.map (fun c => Comment_Body (IssueComment_Comment c)) comments
             = [Approve.generateUserUnauthorizedComment "alice"]
         | Err _ => False
         end
  | Panics => False
  end.
Proof. vm_compute. repeat split; reflexivity. Qed.

(** And in the other direction: alice has removed the label; it is set again. *)
Example handleLabelEvent_label_restored :
  match Approve.handleLabelEvent unauthorizedErrorText (labelWebhook alice [])
          (config token) client (emptyWorld (store [])) with
  | Returns (res, w') =>
      res = None /\ labelsOf "test-repo" 42 (remote w') = Some [approved]
  | Panics => False
  end.
Proof. vm_compute. repeat split; reflexivity. Qed.

Lemma nil_token_handlers_do_nothing_witness :
  Approve.Handle GetGitCli unauthorizedErrorText
    {| Webhook_EventType := EventTypeOther "issue_comment";
       Webhook_Repo := {| Repository_Name := "test-repo"; Repository_URL := "url" |};
       Webhook_Sender := bob;
       Webhook_PullRequest := None;
       Webhook_IssueComment := Some (comment "/approve" ReviewStateNone 10) |}
    (config None) (emptyWorld (store []))
  = Returns (None, emptyWorld (store []))
  /\ Approve.HandleChatOps GetGitCli ExtractCommands (fun l => l) unauthorizedErrorText
       {| Command_Type := "approve"; Command_Args := [] |}
       {| Webhook_EventType := EventTypeOther "issue_comment";
          Webhook_Repo := {| Repository_Name := "test-repo"; Repository_URL := "url" |};
          Webhook_Sender := bob;
          Webhook_PullRequest := None;
          Webhook_IssueComment := Some (comment "/approve" ReviewStateNone 10) |}
       (config None) (emptyWorld (store []))
     = Returns (None, emptyWorld (store [])).
Proof.
  destruct (nil_token_handlers_do_nothing GetGitCli ExtractCommands (fun l => l)
              unauthorizedErrorText
              {| Command_Type := "approve"; Command_Args := [] |}
              {| Webhook_EventType := EventTypeOther "issue_comment";
                 Webhook_Repo := {| Repository_Name := "test-repo"; Repository_URL := "url" |};
                 Webhook_Sender := bob;
                 Webhook_PullRequest := None;
                 Webhook_IssueComment := Some (comment "/approve" ReviewStateNone 10) |}
              (config None) (emptyWorld (store []))) as [H1 H2].
  - reflexivity.
  - split; [exact H1 |]. eapply H2. reflexivity.
Defined.

(** C10 as stated fails: [HandleChatOps] dereferences
    [webhook.IssueComment] before it looks at the token, so on a webhook
    without an issue comment (a label event, say) it panics instead of
    returning nil. *)
Lemma HandleChatOps_nil_issue_comment_panics :
  ~ (forall (command : Command) (wh : Webhook) (ic : IntegrationConfig)
            (w : World Fake.Store Approve.Call),
        Git_Token ic = None ->
        Approve.HandleChatOps GetGitCli ExtractCommands (fun l => l) unauthorizedErrorText
          command wh ic w = Returns (None, w)).
Proof.
  intros H.
  specialize (H {| Command_Type := "approve"; Command_Args := [] |}
                (labelWebhook bob [approved]) (config None) (emptyWorld (store []))
                eq_refl).
  discriminate H.
Qed.

End ApproveOnFake.

(** ** The label operations of the fake client *)
Section FakeLabels.

Lemma indexOfLabel_absent (labels : list IssueLabel) (label : string) :
  label ∉ (IssueLabel_Name <$> labels) -> Fake.indexOfLabel labels label = None.
Proof.
  induction labels as [|l labels IH]; intros H; [reflexivity |].
  rewrite fmap_cons, not_elem_of_cons in H. destruct H as [Hne H].
  simpl. rewrite bool_decide_eq_false_2 by congruence.
  rewrite (IH H). reflexivity.
Qed.

Lemma labelsOf_inv (repoName : string) (id : Z) (st : Fake.Store) (labels : list IssueLabel) :
  labelsOf repoName id st = Some labels ->
  exists repos repo prs pr,
    Fake.Repos st = Some repos /\ repos !! repoName = Some repo
    /\ Fake.PullRequests repo = Some prs /\ prs !! id = Some pr
    /\ PullRequest_Labels pr = labels.
Proof.
  unfold labelsOf. intros H.
  destruct (Fake.Repos st) as [repos|] eqn:E1; [|discriminate]. simpl in H.
  destruct (repos !! repoName) as [repo|] eqn:E2; [|discriminate]. simpl in H.
  destruct (Fake.PullRequests repo) as [prs|] eqn:E3; [|discriminate]. simpl in H.
  destruct (prs !! id) as [pr|] eqn:E4; [|discriminate]. simpl in H.
  injection H as H. exists repos, repo, prs, pr. auto.
Qed.

Lemma labelsOf_setRepo (st : Fake.Store) (repos : gmap string Fake.Repo) (repoName : string)
    (repo : Fake.Repo) (prs : gmap Z PullRequest) (id id' : Z) (pr : PullRequest) :
  labelsOf repoName id'
    (Fake.Store_setRepo st repos repoName (Fake.Repo_setPullRequests repo (<[id := pr]> prs)))
  = if decide (id = id') then Some (PullRequest_Labels pr)
    else PullRequest_Labels <$> prs !! id'.
Proof.
  unfold labelsOf, Fake.Store_setRepo, Fake.Repo_setPullRequests. simpl.
  rewrite lookup_insert_eq. simpl.
  rewrite lookup_insert. destruct (decide (id = id')); simpl; [reflexivity |].
  destruct (prs !! id'); reflexivity.
Qed.

(** The label operations as the fake client has them.  On a store that
    holds the pull request, deleting a label that is not among its labels
    returns no error and leaves the store as it is; setting a label
    returns no error and appends one entry of that name to the labels of
    the pull request, whether or not the name is already there, and
    touches no other pull request. *)
Lemma fake_label_operations
    (c : Fake.Client) (issueType : IssueType) (id : Z) (label : string)
    (st : Fake.Store) (labels : list IssueLabel) :
  labelsOf (Git_Repository (Fake.Client_IntegrationConfig c)) id st = Some labels ->
  (label ∉ (IssueLabel_Name <$> labels) ->
   Fake.Client_DeleteLabel c issueType id label st = (None, st))
  /\ exists st' : Fake.Store,
      Fake.SetLabel c issueType id label st = (None, st')
      /\ labelsOf (Git_Repository (Fake.Client_IntegrationConfig c)) id st'
         = Some (labels ++ [{| IssueLabel_Name := label |}])
      /\ forall id' : Z,
          id' <> id ->
          labelsOf (Git_Repository (Fake.Client_IntegrationConfig c)) id' st'
          = labelsOf (Git_Repository (Fake.Client_IntegrationConfig c)) id' st.
Proof.
  intros H.
  destruct (labelsOf_inv _ _ _ _ H) as (repos & repo & prs & pr & Hr & Hrepo & Hprs & Hpr & Hl).
  split.
  - intros Habsent.
    unfold Fake.Client_DeleteLabel, Fake.DeleteLabel, Fake.lookupRepo.
    rewrite Hr, Hrepo, Hprs, Hpr, Hl.
    rewrite (indexOfLabel_absent _ _ Habsent). reflexivity.
  - unfold Fake.SetLabel, Fake.lookupRepo.
    rewrite Hr, Hrepo, Hprs, Hpr, Hl.
    eexists. split; [reflexivity |]. split.
    + rewrite labelsOf_setRepo. rewrite decide_True by reflexivity. reflexivity.
    + intros id' Hne. rewrite labelsOf_setRepo. rewrite decide_False by congruence.
      unfold labelsOf. rewrite Hr. simpl. rewrite Hrepo. simpl. rewrite Hprs. simpl.
      destruct (prs !! id'); reflexivity.
Qed.

Lemma fake_label_operations_witness :
  Fake.Client_DeleteLabel
    {| Fake.Client_IntegrationConfig := Fixtures.config None |}
    IssueTypePullRequest 42 "approved" (Fixtures.store [])
  = (None, Fixtures.store [])
  /\ exists st' : Fake.Store,
      Fake.SetLabel {| Fake.Client_IntegrationConfig := Fixtures.config None |}
        IssueTypePullRequest 42 "approved" (Fixtures.store []) = (None, st')
      /\ labelsOf "test-repo" 42 st' = Some ([] ++ [{| IssueLabel_Name := "approved" |}])
      /\ forall id' : Z,
          id' <> 42 ->
          labelsOf "test-repo" id' st' = labelsOf "test-repo" id' (Fixtures.store []).
Proof.
  destruct (fake_label_operations
              {| Fake.Client_IntegrationConfig := Fixtures.config None |}
              IssueTypePullRequest 42 "approved" (Fixtures.store []) []) as [H1 H2].
  - vm_compute. reflexivity.
  - split; [|exact H2]. apply H1. simpl. apply not_elem_of_nil.
Defined.

(** [SetLabel] does not keep the label names of a pull request unique. *)
Lemma SetLabel_duplicates_label :
  ~ (forall (c : Fake.Client) (issueType : IssueType) (id : Z) (label : string)
            (st st' : Fake.Store) (labels : list IssueLabel) (e : option error),
        labelsOf (Git_Repository (Fake.Client_IntegrationConfig c)) id st = Some labels ->
        NoDup (IssueLabel_Name <$> labels) ->
        label ∈ (IssueLabel_Name <$> labels) ->
        Fake.SetLabel c issueType id label st = (e, st') ->
        exists labels' : list IssueLabel,
          labelsOf (Git_Repository (Fake.Client_IntegrationConfig c)) id st' = Some labels'
          /\ NoDup (IssueLabel_Name <$> labels')).
Proof.
  intros H.
  destruct (H {| Fake.Client_IntegrationConfig := Fixtures.config None |}
              IssueTypePullRequest 42 "approved"
              (Fixtures.store [Fixtures.approved])
              (snd (Fake.SetLabel {| Fake.Client_IntegrationConfig := Fixtures.config None |}
                      IssueTypePullRequest 42 "approved" (Fixtures.store [Fixtures.approved])))
              [Fixtures.approved] None) as (labels' & Hl & Hnd).
  - vm_compute. reflexivity.
  - simpl. apply NoDup_singleton.
  - simpl. apply list_elem_of_singleton. reflexivity.
  - vm_compute. reflexivity.
  - vm_compute in Hl. injection Hl as <-.
    simpl in Hnd. apply NoDup_cons in Hnd as [Hnotin _].
    apply Hnotin. apply list_elem_of_singleton. reflexivity.
Qed.

Example SetLabel_twice :
  labelsOf "test-repo" 42
    (snd (Fake.SetLabel {| Fake.Client_IntegrationConfig := Fixtures.config None |}
            IssueTypePullRequest 42 "approved" (Fixtures.store [Fixtures.approved])))
  = Some [Fixtures.approved; Fixtures.approved].
Proof. vm_compute. reflexivity. Qed.

(** C4.  Setting a label that is already present duplicates it.  On the
    store whose pull request 42 has the labels [approved], [SetLabel] of
    'approved' returns no error and leaves the labels [approved; approved],
    which are no set; one [DeleteLabel] of 'approved' afterwards, which
    stops at the first match, returns no error and leaves [approved]: the
    label that was set twice is still there after it was deleted. *)
Theorem SetLabel_present_label_duplicated :
  Fake.SetLabel {| Fake.Client_IntegrationConfig := Fixtures.config None |}
    IssueTypePullRequest 42 "approved" (Fixtures.store [Fixtures.approved])
  = (None,
     Fixtures.store [Fixtures.approved; {| IssueLabel_Name := "approved" |}])
  /\ labelsOf "test-repo" 42
       (Fixtures.store [Fixtures.approved; {| IssueLabel_Name := "approved" |}])
     = Some [Fixtures.approved; Fixtures.approved]
  /\ ~ NoDup (IssueLabel_Name <$> [Fixtures.approved; Fixtures.approved])
  /\ Fake.Client_DeleteLabel {| Fake.Client_IntegrationConfig := Fixtures.config None |}
       IssueTypePullRequest 42 "approved"
       (Fixtures.store [Fixtures.approved; {| IssueLabel_Name := "approved" |}])
     = (None, Fixtures.store [Fixtures.approved]).
Proof.
  split; [vm_compute; reflexivity |]. split; [vm_compute; reflexivity |]. split.
  - intros Hnd. apply NoDup_cons in Hnd as [Hnotin _].
    apply Hnotin. apply list_elem_of_singleton. reflexivity.
  - vm_compute. reflexivity.
Qed.

End FakeLabels.

(** ** The finalizer list *)
Section FinalizerList.

Lemma lastToFront_snoc (q : list string) (y : string) : lastToFront (q ++ [y]) = y :: q.
Proof.
  unfold lastToFront. destruct (q ++ [y]) eqn:E.
  - destruct q; discriminate.
  - rewrite <- E. rewrite last_last, removelast_last. reflexivity.
Qed.

Lemma lastToFront_Permutation (post : list string) : post ≡ₚ lastToFront post.
Proof.
  destruct (decide (post = [])) as [->|Hne]; [reflexivity |].
  destruct (exists_last Hne) as (q & y & ->).
  rewrite lastToFront_snoc. symmetry. apply Permutation_cons_append.
Qed.

(** With at most one finalizer behind the marker nothing changes place. *)
Lemma lastToFront_short (post : list string) :
  (length post <= 1)%nat -> lastToFront post = post.
Proof.
  destruct post as [|a [|b post]]; simpl; intros H; [reflexivity | reflexivity | lia].
Qed.

Lemma indexOfFinalizer_first (finalizer : string) (pre post : list string) :
  finalizer ∉ pre ->
  Controllers.indexOfFinalizer finalizer (pre ++ finalizer :: post) = Some (length pre).
Proof.
  induction pre as [|f pre IH]; intros H; simpl.
  - rewrite bool_decide_eq_true_2 by reflexivity. reflexivity.
  - apply not_elem_of_cons in H as [Hne H].
    rewrite bool_decide_eq_false_2 by congruence.
    rewrite (IH H). reflexivity.
Qed.

(** The deletion written out: the entries before the marker stay, the
    last entry takes the place of the marker. *)
Lemma deleteFinalizerAt_shape (finalizer : string) (pre post : list string) :
  Controllers.deleteFinalizerAt (length pre) (pre ++ finalizer :: post)
  = pre ++ lastToFront post.
Proof.
  unfold Controllers.deleteFinalizerAt.
  case_bool_decide as Hlen.
  - rewrite length_app in Hlen. simpl in Hlen.
    destruct pre; [|simpl in Hlen; lia]. destruct post; [reflexivity | simpl in Hlen; lia].
  - rewrite take_insert_ge by lia.
    destruct (decide (post = [])) as [->|Hne].
    + rewrite length_app. simpl.
      replace (length pre + 1 - 1)%nat with (length pre) by lia.
      rewrite take_insert_ge by lia.
      rewrite take_app_length. simpl. rewrite app_nil_r. reflexivity.
    + destruct (exists_last Hne) as (q & y & ->).
      rewrite lastToFront_snoc.
      replace (pre ++ finalizer :: q ++ [y]) with ((pre ++ finalizer :: q) ++ [y])
        by (rewrite <- app_assoc; reflexivity).
      assert (Hl : (length ((pre ++ finalizer :: q) ++ [y]) - 1)%nat
                   = length (pre ++ finalizer :: q)).
      { rewrite (length_app (pre ++ finalizer :: q)). simpl. lia. }
      rewrite Hl.
      rewrite list_lookup_total_middle by reflexivity.
      rewrite take_insert_lt by (rewrite length_app; simpl; lia).
      rewrite take_app_length.
      replace (length pre) with (length pre + 0)%nat at 1 by lia.
      rewrite insert_app_r. reflexivity.
Qed.

End FinalizerList.

(** ** The reconcile pass of a job that is being deleted *)
Section ReconcileDeletion.

Context {K PipelineRun : Type}.
Variable finalizer : string.
Variable IntegrationJobStateFailed : string.
Variable SetDefaults : IntegrationJobStatus -> IntegrationJobStatus.
Variable pipelineRunName : IntegrationJob -> string.
Variable r : Controllers.Cluster K PipelineRun.

Local Abbreviation Reconcile :=
  (Controllers.Reconcile finalizer IntegrationJobStateFailed SetDefaults pipelineRunName r).
Local Abbreviation markFailed := (Controllers.markFailed IntegrationJobStateFailed).

(** C2, as far as it holds.  On a pass over a job with a deletion
    timestamp whose finalizers hold the marker, first at [length pre], the
    reconciler notifies the scheduler once, sends one patch in which the
    marker is replaced by the last finalizer and the list is one shorter -
    the other finalizers are all kept, not always in their order - and
    returns without an error; when the patch fails, the job is patched to
    Failed with the text of the error before the pass returns. *)
Theorem Reconcile_deletion_removes_finalizer
    (req : Controllers.NamespacedName) (instance : IntegrationJob)
    (pre post : list string) (t : Z) (w : World K Controllers.Event) (k1 : K) :
  Controllers.GetIntegrationJob r req (remote w) = (Ok instance, k1) ->
  DeletionTimestamp instance = Some t ->
  Finalizers instance = pre ++ finalizer :: post ->
  finalizer ∉ pre ->
  let k2 := snd (Controllers.Notify r instance k1) in
  let instance' := IntegrationJob_setFinalizers instance (pre ++ lastToFront post) in
  pre ++ post ≡ₚ Finalizers instance'
  /\ match Controllers.Patch r instance' instance k2 with
     | (Ok updated, k3) =>
         Controllers.Reconcile finalizer IntegrationJobStateFailed SetDefaults
           pipelineRunName r req w
         = Returns ((Controllers.emptyResult, None),
                    {| remote := k3;
                       calls := calls w ++ [Controllers.EvGetIntegrationJob req;
                                            Controllers.EvNotify instance;
                                            Controllers.EvPatch instance'] |})
     | (Err err, k3) =>
         let failed := Controllers.markFailed IntegrationJobStateFailed instance' (Error err) in
         Controllers.Reconcile finalizer IntegrationJobStateFailed SetDefaults
           pipelineRunName r req w
         = Returns ((Controllers.emptyResult, None),
                    {| remote := snd (Controllers.StatusPatch r failed instance k3);
                       calls := calls w ++ [Controllers.EvGetIntegrationJob req;
                                            Controllers.EvNotify instance;
                                            Controllers.EvPatch instance';
                                            Controllers.EvStatusPatch failed] |})
     end.
Proof.
  intros Hget Hdel Hfin Hpre k2 instance'. split.
  - subst instance'. simpl. apply Permutation_app_head, lastToFront_Permutation.
  - subst k2. destruct (Controllers.Notify r instance k1) as [[] k2] eqn:Hn. cbn [snd].
    assert (Hidx : Controllers.indexOfFinalizer finalizer (Finalizers instance)
                   = Some (length pre)).
    { rewrite Hfin. apply indexOfFinalizer_first. exact Hpre. }
    assert (Hshape : IntegrationJob_setFinalizers instance
                       (Controllers.deleteFinalizerAt (length pre) (Finalizers instance))
                     = instance').
    { rewrite Hfin, deleteFinalizerAt_shape. reflexivity. }
    destruct (Controllers.Patch r instance' instance k2) as [[updated|err] k3] eqn:Hp.
    + unfold Controllers.Reconcile, Controllers.handleFinalizer, bind, call, ret.
      rewrite Hget, Hidx, Hdel. cbn [remote calls]. rewrite Hn. cbn [remote calls].
      rewrite Hshape, Hp. rewrite <- !app_assoc. reflexivity.
    + cbv zeta.
      unfold Controllers.Reconcile, Controllers.handleFinalizer, Controllers.patchJobFailed,
        bind, call, ret.
      rewrite Hget, Hidx, Hdel. cbn [remote calls]. rewrite Hn. cbn [remote calls].
      rewrite Hshape, Hp. cbn [remote calls].
      destruct (Controllers.StatusPatch r
                  (Controllers.markFailed IntegrationJobStateFailed instance' (Error err))
                  instance k3) as [[updated|err'] k4];
        cbn [snd]; rewrite <- !app_assoc; reflexivity.
Qed.

End ReconcileDeletion.

(** ** The reconcile pass of a live job: status reconciliation *)
Section ReconcileStatus.

Context {K PipelineRun : Type}.
Variable finalizer : string.
Variable IntegrationJobStateFailed : string.
Variable SetDefaults : IntegrationJobStatus -> IntegrationJobStatus.
Variable pipelineRunName : IntegrationJob -> string.
Variable r : Controllers.Cluster K PipelineRun.

Local Abbreviation Reconcile :=
  (Controllers.Reconcile finalizer IntegrationJobStateFailed SetDefaults pipelineRunName r).
Local Abbreviation markFailed := (Controllers.markFailed IntegrationJobStateFailed).
Local Abbreviation configKey := Controllers.configKey.
Local Abbreviation runKey := (Controllers.runKey pipelineRunName).




(** A pass over a job that carries the finalizer, is not being deleted and
    has not completed gets as far as the fetch of the configuration. *)
Variable req : Controllers.NamespacedName.
Variable instance : IntegrationJob.
Variable idx : nat.
Variable w : World K Controllers.Event.
Variable k1 : K.
Hypothesis Hget : Controllers.GetIntegrationJob r req (remote w) = (Ok instance, k1).
Hypothesis Hfin : Controllers.indexOfFinalizer finalizer (Finalizers instance) = Some idx.
Hypothesis Hdel : DeletionTimestamp instance = None.
Hypothesis Hlive : Status_CompletionTime (Status instance) = None.



End ReconcileStatus.

(** ** The reconciler against scripted clusters *)
Section ReconcileRuns.

Import Fixtures.

Local Abbreviation Reconcile :=
  (Controllers.Reconcile finalizer Failed (fun status => status) (fun _ => "test-run")).

Lemma Reconcile_deletion_removes_finalizer_witness :
  ["a"; "b"] ≡ₚ ["b"; "a"]
  /\ Reconcile (scriptedCluster deletionScript) req (emptyWorld tt)
     = Returns ((Controllers.emptyResult, None),
                {| remote := tt;
                   calls := [Controllers.EvGetIntegrationJob req;
                             Controllers.EvNotify deletedJob;
                             Controllers.EvPatch
                               (IntegrationJob_setFinalizers deletedJob ["b"; "a"])] |}).
Proof.
  apply (Reconcile_deletion_removes_finalizer finalizer Failed (fun status => status)
           (fun _ => "test-run") (scriptedCluster deletionScript) req deletedJob
           [] ["a"; "b"] 1700000500 (emptyWorld tt) tt).
  - reflexivity.
  - reflexivity.
  - reflexivity.
  - apply not_elem_of_nil.
Defined.

(** C2 as stated fails: the finalizers that remain are not in their
    former order.  From [marker; a; b] the patch carries [b; a]. *)
Lemma Reconcile_deletion_reorders_finalizers :
  ~ (forall (r : Controllers.Cluster unit unit) (req : Controllers.NamespacedName)
            (instance : IntegrationJob) (t : Z) (w w' : World unit Controllers.Event)
            (k1 : unit) (res : Controllers.Result * option error),
        Controllers.GetIntegrationJob r req (remote w) = (Ok instance, k1) ->
        DeletionTimestamp instance = Some t ->
        finalizer ∈ Finalizers instance ->
        Reconcile r req w = Returns (res, w') ->
        exists patched : IntegrationJob,
          Controllers.EvPatch patched ∈ calls w'
          /\ Finalizers patched = filter (fun f => f <> finalizer) (Finalizers instance)).
Proof.
  intros H.
  edestruct (H (scriptedCluster deletionScript) req deletedJob 1700000500 (emptyWorld tt))
    as (patched & Hin & Hf).
  - reflexivity.
  - reflexivity.
  - apply list_elem_of_here.
  - vm_compute. reflexivity.
  - cbn [calls] in Hin.
    rewrite !elem_of_cons, elem_of_nil in Hin.
    destruct Hin as [Heq|[Heq|[Heq|[]]]]; try discriminate Heq.
    injection Heq as ->. vm_compute in Hf. discriminate Hf.
Qed.

(** C3.  A job whose status carries a completion time is not out of reach
    of [patchJobFailed]: the finalizer handling runs before the test of
    [CompletionTime], and when its patch fails - here on a completed job
    under deletion, and on a completed job without the finalizer - the pass
    overwrites the state with Failed and the message with the text of the
    error, and sends the status patch. *)
Theorem Reconcile_completed_job_patched_failed :
  Status_CompletionTime (Status completedJob) = Some 1700000000
  /\ Reconcile (scriptedCluster (refusedPatchScript completedJob)) req (emptyWorld tt)
     = Returns ((Controllers.emptyResult, None),
                {| remote := tt;
                   calls :=
                     [Controllers.EvGetIntegrationJob req;
                      Controllers.EvNotify completedJob;
                      Controllers.EvPatch (IntegrationJob_setFinalizers completedJob []);
                      Controllers.EvStatusPatch
                        (IntegrationJob_setStatus
                           (IntegrationJob_setFinalizers completedJob [])
                           {| Status_State := "Failed";
                              Status_Message := Error conflict;
                              Status_CompletionTime := Some 1700000000 |})] |})
  /\ Reconcile (scriptedCluster (refusedPatchScript (job [] None (Some 1700000000))))
       req (emptyWorld tt)
     = Returns ((Controllers.emptyResult, None),
                {| remote := tt;
                   calls :=
                     [Controllers.EvGetIntegrationJob req;
                      Controllers.EvPatch (job [finalizer] None (Some 1700000000));
                      Controllers.EvStatusPatch
                        (IntegrationJob_setStatus (job [finalizer] None (Some 1700000000))
                           {| Status_State := "Failed";
                              Status_Message := Error conflict;
                              Status_CompletionTime := Some 1700000000 |})] |}).
Proof. vm_compute. repeat split; reflexivity. Qed.



(** X2.  A completed job that keeps its finalizer and is not being deleted
    is skipped: the pass makes no call after the Get, neither a patch nor a
    notification of the scheduler. *)
Lemma Reconcile_completed_job_skipped {K PipelineRun : Type}
    (fin failed : string) (SetDefaults : IntegrationJobStatus -> IntegrationJobStatus)
    (pipelineRunName : IntegrationJob -> string) (r : Controllers.Cluster K PipelineRun)
    (req : Controllers.NamespacedName) (instance : IntegrationJob) (idx : nat) (t : Z)
    (w : World K Controllers.Event) (k1 : K) :
  Controllers.GetIntegrationJob r req (remote w) = (Ok instance, k1) ->
  Controllers.indexOfFinalizer fin (Finalizers instance) = Some idx ->
  DeletionTimestamp instance = None ->
  Status_CompletionTime (Status instance) = Some t ->
  Controllers.Reconcile fin failed SetDefaults pipelineRunName r req w
  = Returns ((Controllers.emptyResult, None),
             {| remote := k1; calls := calls w ++ [Controllers.EvGetIntegrationJob req] |}).
Proof.
  intros Hget Hfin Hdel Hdone.
  unfold Controllers.Reconcile, Controllers.handleFinalizer, bind, call, ret.
  rewrite Hget, Hfin, Hdel, Hdone. reflexivity.
Qed.

End ReconcileRuns.

(** * Further properties of the code *)

(** ** [CheckRateLimitGetResetTime]: when it panics *)
Section RateLimitPanics.

Import GoStrings Git.

Lemma genSplit_cons (fuel : nat) (s sep : string) :
  exists piece pieces, genSplit fuel s sep = piece :: pieces.
Proof.
  destruct fuel as [|fuel]; simpl; [eauto |].
  destruct (Index s sep); eauto.
Qed.

Lemma Split_first (s : string) (c : ascii) (sep' : string) :
  exists piece, nth_error (Split s (String c sep')) 0 = Some piece.
Proof.
  unfold Split. destruct (genSplit_cons (String.length s) s (String c sep')) as (p & ps & ->).
  simpl. eauto.
Qed.

Lemma Index_empty (c : ascii) (sep' : string) : Index EmptyString (String c sep') = None.
Proof. reflexivity. Qed.

Lemma Split_second_none (s : string) :
  nth_error (Split s "::") 1 = None <-> Index s "::" = None.
Proof.
  unfold Split. split.
  - intros H. destruct (Index s "::") as [m|] eqn:E; [|reflexivity]. exfalso.
    destruct s as [|c s]; [discriminate E |].
    cbn [String.length] in H. rewrite (genSplit_step _ _ _ _ E) in H.
    destruct (genSplit_cons (String.length s)
                (sliceFrom (m + String.length "::") (String c s)) "::") as (p & ps & Hg).
    rewrite Hg in H. discriminate H.
  - intros E. destruct (String.length s); simpl; rewrite ?E; reflexivity.
Qed.

(** X1.  [CheckRateLimitGetResetTime] panics on exactly the errors whose
    text holds "Rate limit exceeded" and no ["::"]; on every other error,
    and on nil, it returns. *)
Theorem CheckRateLimitGetResetTime_panics_iff (e : error) :
  Git.CheckRateLimitGetResetTime (Some e) = Panics
  <-> GoStrings.Contains (Error e) "Rate limit exceeded" = true
      /\ GoStrings.Contains (Error e) "::" = false.
Proof.
  unfold CheckRateLimitGetResetTime.
  destruct (Contains (Error e) "Rate limit exceeded") eqn:EC.
  - destruct (nth_error (Split (Error e) "::") 1) as [afterMarker|] eqn:E1.
    + destruct (Split_first afterMarker "." EmptyString) as [piece ->].
      assert (HI : Index (Error e) "::" <> None).
      { intros HI. apply Split_second_none in HI. congruence. }
      unfold Contains. destruct (Index (Error e) "::"); [|congruence].
      split; [destruct (Atoi piece); discriminate | intros [_ H]; discriminate].
    + apply Split_second_none in E1. unfold Contains. rewrite E1.
      split; auto.
  - split; [discriminate | intros [H _]; discriminate].
Qed.

(** Whenever [CheckRateLimitGetResetTime] returns, the value is an
    [int]: zero, or the number between the first ["::"] and the next dot
    when [strconv.Atoi] accepts it. *)
Theorem CheckRateLimitGetResetTime_in_range (err : option error) (tm : Z) :
  Git.CheckRateLimitGetResetTime err = Returns tm -> minInt <= tm <= maxInt.
Proof.
  unfold CheckRateLimitGetResetTime.
  assert (H0 : minInt <= 0 <= maxInt) by (unfold minInt, maxInt; lia).
  destruct err as [e|]; [|intros [= <-]; exact H0].
  destruct (Contains (Error e) "Rate limit exceeded"); [|intros [= <-]; exact H0].
  destruct (nth_error (Split (Error e) "::") 1) as [a|]; [|discriminate].
  destruct (nth_error (Split a ".") 0) as [u|]; [|discriminate].
  destruct (Atoi u) as [v|] eqn:E; intros [= <-]; [|exact H0].
  unfold Atoi in E. destruct u as [|c0 rest]; [discriminate |].
  destruct (if (Ascii.eqb c0 "-" || Ascii.eqb c0 "+")%bool then rest else String c0 rest);
    [discriminate |].
  destruct (atoiLoop 0 _) as [n|]; [|discriminate].
  destruct ((minInt <=? (if Ascii.eqb c0 "-" then - n else n))
            && ((if Ascii.eqb c0 "-" then - n else n) <=? maxInt)) eqn:R; [|discriminate].
  injection E as <-. apply andb_true_iff in R as [R1 R2].
  apply Z.leb_le in R1, R2. lia.
Qed.

Lemma CheckRateLimitGetResetTime_in_range_witness :
  minInt <= 1700000100 <= maxInt.
Proof.
  apply (CheckRateLimitGetResetTime_in_range
           (Some (rateLimitError "unixtime" 1700000100 " Rate limit exceeded"))).
  vm_compute. reflexivity.
Defined.

End RateLimitPanics.

(** ** The chatops handler on a comment of an open pull request *)
Section ChatOps.

Context {St : Type}.
Variable GetGitCli : IntegrationConfig -> result (Client St).
Variable ExtractCommands : string -> list Command.
Variable sortSlice : list IssueComment -> list IssueComment.
Variable unauthorizedErrorText : string -> string -> string.

Local Abbreviation authorize := (Approve.authorize unauthorizedErrorText).
Local Abbreviation HandleChatOps :=
  (Approve.HandleChatOps GetGitCli ExtractCommands sortSlice unauthorizedErrorText).
Local Abbreviation checkApproval := (Approve.checkApproval ExtractCommands).

(** X3.  [HandleChatOps] does nothing at all - no client is built, no call
    is made - when the comment is not on a pull request or the pull request
    is not open, whatever the command, the sender and the token. *)
Theorem HandleChatOps_ignores_closed (command : Command) (wh : Webhook)
    (config : IntegrationConfig) (issueComment : IssueComment)
    (w : World St Approve.Call) :
  Webhook_IssueComment wh = Some issueComment ->
  (Issue_PullRequest (IssueComment_Issue issueComment) = None
   \/ exists pr, Issue_PullRequest (IssueComment_Issue issueComment) = Some pr
                 /\ PullRequest_State pr <> PullRequestStateOpen) ->
  Approve.HandleChatOps GetGitCli ExtractCommands sortSlice unauthorizedErrorText
    command wh config w = Returns (None, w).
Proof.
  intros Hc H. unfold Approve.HandleChatOps, bind, deref, ret. rewrite Hc.
  destruct H as [-> | (pr & -> & Hs)]; [reflexivity |].
  rewrite bool_decide_eq_false_2 by exact Hs. reflexivity.
Qed.

(** The comment is on an open pull request, the configuration has a token
    and its client can be built. *)
Variable command : Command.
Variable wh : Webhook.
Variable config : IntegrationConfig.
Variable issueComment : IssueComment.
Variable pr : PullRequest.
Variable tok : GitToken.
Variable cli : Client St.
Variable w : World St Approve.Call.
Hypothesis Hcomment : Webhook_IssueComment wh = Some issueComment.
Hypothesis Hpr : Issue_PullRequest (IssueComment_Issue issueComment) = Some pr.
Hypothesis Hopen : PullRequest_State pr = PullRequestStateOpen.
Hypothesis Htoken : Git_Token config = Some tok.
Hypothesis Hcli : GetGitCli config = Ok cli.

(** The world once the client is built. *)
Let w1 : World St Approve.Call :=
  {| remote := remote w;
     calls := calls w ++ [Approve.CallGetGitCli (Git_Repository config)] |}.





End ChatOps.

(** ** The approve and cancel paths, the check command and the webhook handler *)
Section ApprovePaths.

Context {St : Type}.
Variable GetGitCli : IntegrationConfig -> result (Client St).
Variable ExtractCommands : string -> list Command.
Variable sortSlice : list IssueComment -> list IssueComment.
Variable unauthorizedErrorText : string -> string -> string.

Variable issueComment : IssueComment.
Variable pr : PullRequest.
Variable cli : Client St.
Hypothesis Hpr : Issue_PullRequest (IssueComment_Issue issueComment) = Some pr.

Let set : Approve.Call :=
  Approve.CallSetLabel IssueTypePullRequest (PullRequest_ID pr) "approved".
Let delete : Approve.Call :=
  Approve.CallDeleteLabel IssueTypePullRequest (PullRequest_ID pr) "approved".
Let confirm : Approve.Call :=
  Approve.CallRegisterComment IssueTypePullRequest (PullRequest_ID pr)
    (Approve.generateApprovedComment (User_Name (IssueComment_Author issueComment))).
Let cancelled : Approve.Call :=
  Approve.CallRegisterComment IssueTypePullRequest (PullRequest_ID pr)
    (Approve.generateApproveCanceledComment (User_Name (IssueComment_Author issueComment))).

(** The approve path: the label call, then at most the confirmation. *)
Lemma handleApproveCommand_calls (w : World St Approve.Call) :
  exists (res : option error) (w' : World St Approve.Call),
    Approve.handleApproveCommand issueComment cli w = Returns (res, w')
    /\ ((calls w' = calls w ++ [set] /\ res <> None)
        \/ calls w' = calls w ++ [set; confirm]).
Proof.
  unfold Approve.handleApproveCommand, bind, deref, ret, call. rewrite Hpr.
  destruct (SetLabel cli IssueTypePullRequest (PullRequest_ID pr) Approve.approvedLabel
              (remote w)) as [[err|] s1].
  - eexists _, _. split; [reflexivity |]. left. split; [reflexivity | discriminate].
  - cbn [remote calls].
    destruct (RegisterComment cli IssueTypePullRequest (PullRequest_ID pr)
                (Approve.generateApprovedComment
                   (User_Name (IssueComment_Author issueComment))) s1) as [c s2].
    eexists _, _. split; [reflexivity |]. right. cbn [calls].
    rewrite <- app_assoc. reflexivity.
Qed.

(** The cancel path: the label call, then at most the cancellation notice. *)
Lemma handleApproveCancelCommand_calls (w : World St Approve.Call) :
  exists (res : option error) (w' : World St Approve.Call),
    Approve.handleApproveCancelCommand issueComment cli w = Returns (res, w')
    /\ ((calls w' = calls w ++ [delete] /\ res <> None)
        \/ calls w' = calls w ++ [delete; cancelled]).
Proof.
  unfold Approve.handleApproveCancelCommand, bind, deref, ret, call. rewrite Hpr.
  destruct (DeleteLabel cli IssueTypePullRequest (PullRequest_ID pr) Approve.approvedLabel
              (remote w)) as [d s1].
  destruct (Approve.isDeleteLabelFailure d) as [err|].
  - eexists _, _. split; [reflexivity |]. left. split; [reflexivity | discriminate].
  - cbn [remote calls].
    destruct (RegisterComment cli IssueTypePullRequest (PullRequest_ID pr)
                (Approve.generateApproveCanceledComment
                   (User_Name (IssueComment_Author issueComment))) s1) as [c s2].
    eexists _, _. split; [reflexivity |]. right. cbn [calls].
    rewrite <- app_assoc. reflexivity.
Qed.

(** X7.  '/approve cancel' on a pull request that the remote says has no
    such label: an error of [DeleteLabel] whose text holds
    "Label does not exist" is swallowed, the cancellation notice is posted
    as after a successful delete, and the result is that of the posting. *)
Theorem handleApproveCancelCommand_label_missing
    (w : World St Approve.Call) (err : error) (s1 : St) :
  DeleteLabel cli IssueTypePullRequest (PullRequest_ID pr) "approved" (remote w)
  = (Some err, s1) ->
  GoStrings.Contains (Error err) "Label does not exist" = true ->
  Approve.handleApproveCancelCommand issueComment cli w
  = Returns
      (fst (RegisterComment cli IssueTypePullRequest (PullRequest_ID pr)
              (Approve.generateApproveCanceledComment
                 (User_Name (IssueComment_Author issueComment))) s1),
       {| remote :=
            snd (RegisterComment cli IssueTypePullRequest (PullRequest_ID pr)
                   (Approve.generateApproveCanceledComment
                      (User_Name (IssueComment_Author issueComment))) s1);
          calls := calls w ++
            [Approve.CallDeleteLabel IssueTypePullRequest (PullRequest_ID pr) "approved";
             Approve.CallRegisterComment IssueTypePullRequest (PullRequest_ID pr)
               (Approve.generateApproveCanceledComment
                  (User_Name (IssueComment_Author issueComment)))] |}).
Proof.
  intros Hd Hc.
  unfold Approve.handleApproveCancelCommand, bind, deref, ret, call. rewrite Hpr.
  change Approve.approvedLabel with "approved". rewrite Hd.
  unfold Approve.isDeleteLabelFailure. rewrite Hc. cbn [remote calls].
  destruct (RegisterComment cli IssueTypePullRequest (PullRequest_ID pr)
              (Approve.generateApproveCanceledComment
                 (User_Name (IssueComment_Author issueComment))) s1) as [c s2].
  cbn [fst snd]. rewrite <- app_assoc. reflexivity.
Qed.

(** X8.  '/approve check' first lists the labels and the comments.  When
    the label agrees with the verdict of the comments it stops there and
    changes nothing; when the comments approve and the label is missing it
    takes the approve path; when the comments do not approve and the label
    is there it takes the cancel path.  Never both. *)
Theorem handleApproveCheckCommand_converges
    (w : World St Approve.Call) (labels : list IssueLabel) (comments : list IssueComment)
    (s1 s2 : St) :
  ListLabels cli (PullRequest_ID pr) (remote w) = Returns (Ok labels, s1) ->
  ListComments cli (PullRequest_ID pr) s1 = (Ok comments, s2) ->
  let label := Approve.hasLabel labels "approved" in
  let verdict := Approve.checkApproval ExtractCommands (sortSlice comments) in
  let w2 := {| remote := s2;
               calls := calls w ++ [Approve.CallListLabels (PullRequest_ID pr);
                                    Approve.CallListComments (PullRequest_ID pr)] |} in
  (verdict = label ->
   Approve.handleApproveCheckCommand ExtractCommands sortSlice issueComment cli w
   = Returns (None, w2))
  /\ (verdict = true -> label = false ->
      exists (res : option error) (w' : World St Approve.Call),
        Approve.handleApproveCheckCommand ExtractCommands sortSlice issueComment cli w
        = Returns (res, w')
        /\ ((calls w' = calls w2 ++ [set] /\ res <> None)
            \/ calls w' = calls w2 ++ [set; confirm]))
  /\ (verdict = false -> label = true ->
      exists (res : option error) (w' : World St Approve.Call),
        Approve.handleApproveCheckCommand ExtractCommands sortSlice issueComment cli w
        = Returns (res, w')
        /\ ((calls w' = calls w2 ++ [delete] /\ res <> None)
            \/ calls w' = calls w2 ++ [delete; cancelled])).
Proof.
  intros Hl Hc label verdict w2.
  assert (Heq : Approve.handleApproveCheckCommand ExtractCommands sortSlice issueComment cli w
                = Approve.syncApproval label verdict issueComment cli w2).
  { unfold Approve.handleApproveCheckCommand. unfold bind at 1. unfold deref. rewrite Hpr.
    unfold ret at 1. unfold bind at 1. unfold callMayPanic. rewrite Hl.
    unfold bind at 1. unfold call. cbn [remote calls]. rewrite Hc.
    subst w2. rewrite <- app_assoc. reflexivity. }
  rewrite Heq. unfold Approve.syncApproval.
  split; [|split].
  - intros Hv. rewrite Hv. destruct label; reflexivity.
  - intros Hv Hlab. rewrite Hv, Hlab. cbn [andb negb].
    destruct (handleApproveCommand_calls w2) as (res & w' & Hrun & Hcalls).
    unfold bind. rewrite Hrun. destruct res as [err|]; eexists _, _; split;
      try reflexivity; exact Hcalls.
  - intros Hv Hlab. rewrite Hv, Hlab. cbn [andb negb].
    destruct (handleApproveCancelCommand_calls w2) as (res & w' & Hrun & Hcalls).
    unfold bind, ret. rewrite Hrun. eexists _, _. split; [reflexivity | exact Hcalls].
Qed.

(** X9.  A review event is not authorized by the plugin: on a review with
    state Approved or Unapproved of an open pull request, [Handle] builds
    the client and goes straight to the approve or the cancel path; the
    write privilege of the sender is never asked for. *)
Theorem Handle_review_without_authorize
    (wh : Webhook) (config : IntegrationConfig) (tok : GitToken)
    (w : World St Approve.Call) :
  Git_Token config = Some tok ->
  Webhook_EventType wh = EventTypePullRequestReview ->
  Webhook_IssueComment wh = Some issueComment ->
  PullRequest_State pr = PullRequestStateOpen ->
  GetGitCli config = Ok cli ->
  let w1 := {| remote := remote w;
               calls := calls w ++ [Approve.CallGetGitCli (Git_Repository config)] |} in
  (IssueComment_ReviewState issueComment = PullRequestReviewStateApproved ->
   exists (res : option error) (w' : World St Approve.Call),
     Approve.Handle GetGitCli unauthorizedErrorText wh config w = Returns (res, w')
     /\ ((calls w' = calls w1 ++ [set] /\ res <> None)
         \/ calls w' = calls w1 ++ [set; confirm]))
  /\ (IssueComment_ReviewState issueComment = PullRequestReviewStateUnapproved ->
      exists (res : option error) (w' : World St Approve.Call),
        Approve.Handle GetGitCli unauthorizedErrorText wh config w = Returns (res, w')
        /\ ((calls w' = calls w1 ++ [delete] /\ res <> None)
            \/ calls w' = calls w1 ++ [delete; cancelled])).
Proof.
  intros Htoken Hev Hc Hopen Hcli w1.
  assert (Hrun : forall state,
             IssueComment_ReviewState issueComment = state ->
             state <> ReviewStateNone ->
             Approve.Handle GetGitCli unauthorizedErrorText wh config w
             = match state with
               | PullRequestReviewStateApproved =>
                   Approve.handleApproveCommand issueComment cli w1
               | PullRequestReviewStateUnapproved =>
                   Approve.handleApproveCancelCommand issueComment cli w1
               | _ => Returns (None, w1)
               end).
  { intros state Hs Hne. unfold Approve.Handle. rewrite Htoken, Hev.
    rewrite bool_decide_eq_true_2 by reflexivity. rewrite Hc.
    unfold bind at 1. unfold bind at 1. unfold deref. rewrite Hpr.
    unfold ret at 1. unfold ret at 1.
    rewrite bool_decide_eq_true_2 by exact Hopen.
    rewrite Hs. rewrite (bool_decide_eq_false_2 _ Hne).
    rewrite (bool_decide_eq_false_2 (EventTypePullRequestReview = EventTypePullRequest))
      by discriminate.
    cbn [andb negb]. unfold bind at 1. unfold Approve.getGitCli.
    unfold bind at 1. unfold note. unfold ret at 1. rewrite Hcli.
    unfold bind at 1. unfold deref, ret. fold w1.
    rewrite Hs. destruct state; first [reflexivity | congruence]. }
  split; intros Hs.
  - rewrite (Hrun _ Hs) by discriminate. apply handleApproveCommand_calls.
  - rewrite (Hrun _ Hs) by discriminate. apply handleApproveCancelCommand_calls.
Qed.

End ApprovePaths.

(** ** Events the webhook handler leaves alone *)
Section QuietEvents.

Context {St : Type}.
Variable GetGitCli : IntegrationConfig -> result (Client St).
Variable unauthorizedErrorText : string -> string -> string.

(** X10.  [Handle] acts on two kinds of events only.  An event that is
    neither a review event nor a pull request event, and a pull request
    event whose action is neither labeled nor unlabeled, make it return nil
    before it builds a client: no call is made. *)
Theorem Handle_ignores_other_events (wh : Webhook) (config : IntegrationConfig)
    (w : World St Approve.Call) :
  (Webhook_EventType wh <> EventTypePullRequestReview
   /\ Webhook_EventType wh <> EventTypePullRequest)
  \/ (Webhook_EventType wh = EventTypePullRequest
      /\ forall pr, Webhook_PullRequest wh = Some pr ->
                    PullRequest_Action pr <> PullRequestActionLabeled
                    /\ PullRequest_Action pr <> PullRequestActionUnlabeled) ->
  Approve.Handle GetGitCli unauthorizedErrorText wh config w = Returns (None, w).
Proof.
  intros H. unfold Approve.Handle. destruct (Git_Token config); [|reflexivity].
  destruct H as [[Hr Hp] | [Hp Ha]].
  - rewrite !bool_decide_eq_false_2 by assumption. reflexivity.
  - rewrite Hp. rewrite bool_decide_eq_false_2 by discriminate.
    rewrite bool_decide_eq_true_2 by reflexivity.
    destruct (Webhook_PullRequest wh) as [pr|]; [|reflexivity].
    destruct (Ha pr eq_refl) as [Hl Hu].
    rewrite !bool_decide_eq_false_2 by assumption. reflexivity.
Qed.

Variable wh : Webhook.
Variable ic : IntegrationConfig.
Variable cli : Client St.
Variable pr : PullRequest.
Hypothesis Hpr : Webhook_PullRequest wh = Some pr.

(** X11.  A label event that does not touch the 'approved' label, and one
    whose sender [authorize] accepts, are left as they are by
    [handleLabelEvent]: nothing is reverted and nothing is posted. *)
Theorem handleLabelEvent_leaves_alone (w : World St Approve.Call) :
  (Approve.hasLabel (PullRequest_LabelChanged pr) "approved" = false ->
   Approve.handleLabelEvent unauthorizedErrorText wh ic cli w = Returns (None, w))
  /\ (forall w1 : World St Approve.Call,
         Approve.hasLabel (PullRequest_LabelChanged pr) "approved" = true ->
         Approve.authorize unauthorizedErrorText ic (Webhook_Sender wh)
           (PullRequest_Author pr) cli w = Returns (None, w1) ->
         Approve.handleLabelEvent unauthorizedErrorText wh ic cli w = Returns (None, w1)
         /\ calls w1 = calls w ++ [Approve.CallCanUserWriteToRepo (Webhook_Sender wh)]).
Proof.
  split.
  - intros Hch. unfold Approve.handleLabelEvent, bind, deref, ret. rewrite Hpr.
    change Approve.approvedLabel with "approved". rewrite Hch. reflexivity.
  - intros w1 Hch Hauth. split.
    + unfold Approve.handleLabelEvent. unfold bind at 1. unfold deref. rewrite Hpr.
      unfold ret at 1. change Approve.approvedLabel with "approved". rewrite Hch.
      cbn [negb]. unfold bind. rewrite Hauth. reflexivity.
    + revert Hauth. unfold Approve.authorize. case_bool_decide; [discriminate |].
      unfold bind, call, ret.
      destruct (CanUserWriteToRepo cli (Webhook_Sender wh) (remote w)) as [[[]|err] s'];
        intros [= <-]; reflexivity.
Qed.

(** X12.  When the read of the write privilege itself fails - the error of
    [CanUserWriteToRepo] is not an [UnauthorizedError] - a change of the
    'approved' label is not reverted and no comment is posted: the handler
    returns the error after that one call. *)
Theorem handleLabelEvent_privilege_error
    (w : World St Approve.Call) (err : error) (s1 : St) :
  Approve.hasLabel (PullRequest_LabelChanged pr) "approved" = true ->
  User_ID (Webhook_Sender wh) <> User_ID (PullRequest_Author pr) ->
  CanUserWriteToRepo cli (Webhook_Sender wh) (remote w) = (Err err, s1) ->
  (forall user repo, dynType err <> UnauthorizedError user repo) ->
  Approve.handleLabelEvent unauthorizedErrorText wh ic cli w
  = Returns (Some err,
             {| remote := s1;
                calls := calls w ++ [Approve.CallCanUserWriteToRepo (Webhook_Sender wh)] |}).
Proof.
  intros Hch Hne Hw Hdyn.
  unfold Approve.handleLabelEvent. unfold bind at 1. unfold deref. rewrite Hpr.
  unfold ret at 1. change Approve.approvedLabel with "approved". rewrite Hch. cbn [negb].
  unfold bind at 1. unfold Approve.authorize.
  rewrite bool_decide_eq_false_2 by exact Hne.
  unfold bind, call, ret. rewrite Hw.
  destruct (dynType err) as [|user repo|nf] eqn:E; try reflexivity.
  exfalso. exact (Hdyn user repo eq_refl).
Qed.

End QuietEvents.

(** ** The finalizer search and deletion *)
Section FinalizerSearch.

Variable finalizer : string.

Lemma indexOfFinalizer_split (finalizers : list string) (idx : nat) :
  Controllers.indexOfFinalizer finalizer finalizers = Some idx ->
  exists pre post,
    finalizers = (pre ++ finalizer :: post) /\ (finalizer ∉ pre) /\ (length pre = idx).
Proof.
  revert idx. induction finalizers as [|f l IH]; intros idx H; [discriminate |].
  simpl in H. case_bool_decide as Hf.
  - injection H as <-. subst f. exists [], l. repeat split. apply not_elem_of_nil.
  - destruct (Controllers.indexOfFinalizer finalizer l) as [i|]; [|discriminate].
    injection H as <-. destruct (IH i eq_refl) as (pre & post & -> & Hpre & <-).
    exists (f :: pre), post. repeat split.
    apply not_elem_of_cons. split; [congruence | exact Hpre].
Qed.

Lemma indexOfFinalizer_absent (finalizers : list string) :
  Controllers.indexOfFinalizer finalizer finalizers = None <-> finalizer ∉ finalizers.
Proof.
  induction finalizers as [|f l IH]; simpl.
  - split; [intros _; apply not_elem_of_nil | reflexivity].
  - case_bool_decide as Hf.
    + split; [discriminate |]. intros H. exfalso. apply H. subst f. apply list_elem_of_here.
    + destruct (Controllers.indexOfFinalizer finalizer l) as [i|]; simpl.
      * split; [discriminate |]. intros H. exfalso.
        apply not_elem_of_cons in H as [_ H]. apply IH in H. discriminate.
      * split; [|reflexivity]. intros _. apply not_elem_of_cons.
        split; [congruence | apply IH; reflexivity].
Qed.

(** X13.  The deletion in [handleFinalizer], at the index its search
    found, takes out one occurrence of the marker and nothing else: the
    finalizers before are a rearrangement of the marker and the finalizers
    after.  When the marker occurred once it is gone; an occurrence that is
    listed twice stays once. *)
Theorem deleteFinalizerAt_removes_one (finalizers : list string) (idx : nat) :
  Controllers.indexOfFinalizer finalizer finalizers = Some idx ->
  finalizers ≡ₚ finalizer :: Controllers.deleteFinalizerAt idx finalizers
  /\ (NoDup finalizers -> finalizer ∉ Controllers.deleteFinalizerAt idx finalizers).
Proof.
  intros H. destruct (indexOfFinalizer_split _ _ H) as (pre & post & -> & Hpre & <-).
  rewrite deleteFinalizerAt_shape.
  assert (HP : pre ++ finalizer :: post ≡ₚ finalizer :: pre ++ lastToFront post).
  { rewrite <- Permutation_middle. constructor.
    apply Permutation_app_head, lastToFront_Permutation. }
  split; [exact HP |].
  intros Hnd. rewrite HP in Hnd. apply NoDup_cons in Hnd as [Hnotin _]. exact Hnotin.
Qed.

End FinalizerSearch.

Lemma deleteFinalizerAt_removes_one_witness :
  ["a"; "fin"; "b"; "c"] ≡ₚ "fin" :: ["a"; "c"; "b"]
  /\ (NoDup ["a"; "fin"; "b"; "c"] -> "fin" ∉ ["a"; "c"; "b"]).
Proof.
  apply (deleteFinalizerAt_removes_one "fin" ["a"; "fin"; "b"; "c"] 1).
  vm_compute. reflexivity.
Defined.

(** ** Every reconcile pass *)
Section ReconcilePasses.

Context {K PipelineRun : Type}.
Variable finalizer : string.
Variable IntegrationJobStateFailed : string.
Variable SetDefaults : IntegrationJobStatus -> IntegrationJobStatus.
Variable pipelineRunName : IntegrationJob -> string.
Variable r : Controllers.Cluster K PipelineRun.

Local Abbreviation Reconcile :=
  (Controllers.Reconcile finalizer IntegrationJobStateFailed SetDefaults pipelineRunName r).

(** X14.  When the job cannot be fetched the pass ends at once: a NotFound
    is no error (the job is gone), any other error is returned for a retry;
    nothing else is called. *)
Theorem Reconcile_job_not_fetched (req : Controllers.NamespacedName)
    (w : World K Controllers.Event) (err : error) (k1 : K) :
  Controllers.GetIntegrationJob r req (remote w) = (Err err, k1) ->
  Controllers.Reconcile finalizer IntegrationJobStateFailed SetDefaults pipelineRunName r req w
  = Returns ((Controllers.emptyResult, if IsNotFound err then None else Some err),
             {| remote := k1; calls := calls w ++ [Controllers.EvGetIntegrationJob req] |}).
Proof.
  intros Hget. unfold Controllers.Reconcile, bind, call, ret. rewrite Hget.
  destruct (IsNotFound err); reflexivity.
Qed.

(** X15.  A job without the finalizer marker gets it appended to its
    finalizers, whether or not it is being deleted or has completed; the
    pass sends that one patch and ends, with no status work and no
    notification of the scheduler when the patch succeeds, and with the job
    patched to Failed when it does not. *)
Theorem Reconcile_adds_finalizer (req : Controllers.NamespacedName)
    (instance : IntegrationJob) (w : World K Controllers.Event) (k1 : K) :
  Controllers.GetIntegrationJob r req (remote w) = (Ok instance, k1) ->
  finalizer ∉ Finalizers instance ->
  let instance' := IntegrationJob_setFinalizers instance (Finalizers instance ++ [finalizer]) in
  match Controllers.Patch r instance' instance k1 with
  | (Ok updated, k2) =>
      Controllers.Reconcile finalizer IntegrationJobStateFailed SetDefaults
        pipelineRunName r req w
      = Returns ((Controllers.emptyResult, None),
                 {| remote := k2;
                    calls := calls w ++ [Controllers.EvGetIntegrationJob req;
                                         Controllers.EvPatch instance'] |})
  | (Err err, k2) =>
      let failed := Controllers.markFailed IntegrationJobStateFailed instance' (Error err) in
      Controllers.Reconcile finalizer IntegrationJobStateFailed SetDefaults
        pipelineRunName r req w
      = Returns ((Controllers.emptyResult, None),
                 {| remote := snd (Controllers.StatusPatch r failed instance k2);
                    calls := calls w ++ [Controllers.EvGetIntegrationJob req;
                                         Controllers.EvPatch instance';
                                         Controllers.EvStatusPatch failed] |})
  end.
Proof.
  intros Hget Habsent instance'.
  apply indexOfFinalizer_absent in Habsent.
  destruct (Controllers.Patch r instance' instance k1) as [[updated|err] k2] eqn:Hp.
  - unfold Controllers.Reconcile, Controllers.handleFinalizer, bind, call, ret.
    rewrite Hget, Habsent. cbn [remote calls]. fold instance'. rewrite Hp.
    rewrite <- !app_assoc. reflexivity.
  - cbv zeta.
    unfold Controllers.Reconcile, Controllers.handleFinalizer, Controllers.patchJobFailed,
      bind, call, ret.
    rewrite Hget, Habsent. cbn [remote calls]. fold instance'. rewrite Hp.
    cbn [remote calls].
    destruct (Controllers.StatusPatch r
                (Controllers.markFailed IntegrationJobStateFailed instance' (Error err))
                instance k2) as [[updated|err'] k3];
      cbn [snd]; rewrite <- !app_assoc; reflexivity.
Qed.

(** X16.  Whatever the cluster answers, a pass returns, and among the calls
    it made there is at most one notification of the scheduler and at most
    one status patch. *)
Theorem Reconcile_notifies_at_most_once (req : Controllers.NamespacedName)
    (w : World K Controllers.Event) :
  exists (res : Controllers.Result * option error) (w' : World K Controllers.Event)
         (made : list Controllers.Event),
    Controllers.Reconcile finalizer IntegrationJobStateFailed SetDefaults
      pipelineRunName r req w = Returns (res, w')
    /\ calls w' = calls w ++ made
    /\ (length (List.filter Controllers.isNotify made) <= 1)%nat
    /\ (length (List.filter Controllers.isStatusPatch made) <= 1)%nat.
Proof.
  unfold Controllers.Reconcile, Controllers.handleFinalizer, Controllers.reconcileStatus,
    Controllers.patchJobFailed, bind, call, ret.
  repeat (cbn [remote calls];
          match goal with
          | |- context [Controllers.GetIntegrationJob r ?a ?k] =>
              destruct (Controllers.GetIntegrationJob r a k) as [[?|?] ?]
          | |- context [IsNotFound ?e] => destruct (IsNotFound e)
          | |- context [Controllers.indexOfFinalizer finalizer ?l] =>
              destruct (Controllers.indexOfFinalizer finalizer l)
          | |- context [match DeletionTimestamp ?i with _ => _ end] =>
              destruct (DeletionTimestamp i)
          | |- context [Controllers.Notify r ?i ?k] =>
              destruct (Controllers.Notify r i k) as [[] ?]
          | |- context [Controllers.Patch r ?i ?o ?k] =>
              destruct (Controllers.Patch r i o k) as [[?|?] ?]
          | |- context [Controllers.StatusPatch r ?i ?o ?k] =>
              destruct (Controllers.StatusPatch r i o k) as [[?|?] ?]
          | |- context [match Status_CompletionTime ?s with _ => _ end] =>
              destruct (Status_CompletionTime s)
          | |- context [Controllers.GetIntegrationConfig r ?a ?k] =>
              destruct (Controllers.GetIntegrationConfig r a k) as [[?|?] ?]
          | |- context [Controllers.GetPipelineRun r ?a ?k] =>
              destruct (Controllers.GetPipelineRun r a k) as [? ?]
          | |- context [Controllers.notFoundAsNil ?g] =>
              destruct (Controllers.notFoundAsNil g)
          | |- context [Controllers.ReflectStatus r ?p ?i ?c ?k] =>
              destruct (Controllers.ReflectStatus r p i c k) as [[? [?|]] ?]
          end).
  all: cbn [remote calls].
  all: eexists _, _, _; split; [reflexivity |]; split;
    [cbn [calls]; rewrite <- ?app_assoc; reflexivity |].
  all: simpl; lia.
Qed.

End ReconcilePasses.

(** ** The fake client: labels and comments of one pull request *)
Section FakeRoundTrips.

Variable c : Fake.Client.
Variable issueType : IssueType.

Local Abbreviation repoName := (Git_Repository (Fake.Client_IntegrationConfig c)).

Lemma indexOfLabel_first (pre post : list IssueLabel) (l : IssueLabel) (label : string) :
  label ∉ (IssueLabel_Name <$> pre) ->
  IssueLabel_Name l = label ->
  Fake.indexOfLabel (pre ++ l :: post) label = Some (length pre).
Proof.
  intros Hpre Hl. induction pre as [|x pre IH]; simpl.
  - rewrite bool_decide_eq_true_2 by exact Hl. reflexivity.
  - rewrite fmap_cons, not_elem_of_cons in Hpre. destruct Hpre as [Hne Hpre].
    rewrite bool_decide_eq_false_2 by congruence. rewrite (IH Hpre). reflexivity.
Qed.

Lemma PullRequest_setLabels_same (pr : PullRequest) :
  PullRequest_setLabels pr (PullRequest_Labels pr) = pr.
Proof. destruct pr; reflexivity. Qed.

Lemma PullRequest_setLabels_twice (pr : PullRequest) (l1 l2 : list IssueLabel) :
  PullRequest_setLabels (PullRequest_setLabels pr l1) l2 = PullRequest_setLabels pr l2.
Proof. reflexivity. Qed.

Lemma Store_setRepo_same (st : Fake.Store) (repos : gmap string Fake.Repo)
    (name : string) (repo : Fake.Repo) (prs : gmap Z PullRequest) :
  Fake.Repos st = Some repos ->
  repos !! name = Some repo ->
  Fake.PullRequests repo = Some prs ->
  Fake.Store_setRepo st repos name (Fake.Repo_setPullRequests repo prs) = st.
Proof.
  intros Hr Hrepo Hprs. unfold Fake.Store_setRepo, Fake.Repo_setPullRequests.
  destruct st as [rs now]. simpl in *. subst rs. f_equal. f_equal.
  apply insert_id. rewrite Hrepo. f_equal. destruct repo; simpl in *. congruence.
Qed.

(** X17.  [DeleteLabel] takes out the first label of that name and keeps
    the others in their order.  So a label that is there once is gone
    afterwards, while a label that [SetLabel] has put there twice is still
    there after one [DeleteLabel]. *)
Theorem DeleteLabel_removes_first (id : Z) (label : string) (st : Fake.Store)
    (pre post : list IssueLabel) (l : IssueLabel) :
  labelsOf (Git_Repository (Fake.Client_IntegrationConfig c)) id st = Some (pre ++ l :: post) ->
  label ∉ (IssueLabel_Name <$> pre) ->
  IssueLabel_Name l = label ->
  exists st' : Fake.Store,
    Fake.Client_DeleteLabel c issueType id label st = (None, st')
    /\ labelsOf (Git_Repository (Fake.Client_IntegrationConfig c)) id st' = Some (pre ++ post).
Proof.
  intros H Hpre Hl.
  destruct (labelsOf_inv _ _ _ _ H) as (repos & repo & prs & pr & Hr & Hrepo & Hprs & Hpr & Hlab).
  unfold Fake.Client_DeleteLabel, Fake.DeleteLabel, Fake.lookupRepo.
  rewrite Hr, Hrepo, Hprs, Hpr, Hlab.
  rewrite (indexOfLabel_first pre post l label Hpre Hl).
  eexists. split; [reflexivity |].
  rewrite labelsOf_setRepo. rewrite decide_True by reflexivity. simpl. f_equal.
  case_bool_decide as Hlast.
  - rewrite length_app in Hlast. simpl in Hlast.
    destruct post; [|simpl in Hlast; lia].
    rewrite take_app_length, app_nil_r. reflexivity.
  - rewrite take_app_length.
    replace (pre ++ l :: post) with ((pre ++ [l]) ++ post) by (rewrite <- app_assoc; reflexivity).
    rewrite drop_app_length'; [reflexivity |].
    rewrite length_app. simpl. lia.
Qed.

(** X18.  Setting a label that the pull request does not have and deleting
    it again leaves the whole store as it was. *)
Theorem SetLabel_then_DeleteLabel (id : Z) (label : string) (st : Fake.Store)
    (labels : list IssueLabel) :
  labelsOf (Git_Repository (Fake.Client_IntegrationConfig c)) id st = Some labels ->
  label ∉ (IssueLabel_Name <$> labels) ->
  exists st1 : Fake.Store,
    Fake.SetLabel c issueType id label st = (None, st1)
    /\ Fake.Client_DeleteLabel c issueType id label st1 = (None, st).
Proof.
  intros H Habsent.
  destruct (labelsOf_inv _ _ _ _ H) as (repos & repo & prs & pr & Hr & Hrepo & Hprs & Hpr & Hlab).
  unfold Fake.SetLabel, Fake.lookupRepo. rewrite Hr, Hrepo, Hprs, Hpr.
  eexists. split; [reflexivity |].
  unfold Fake.Client_DeleteLabel, Fake.DeleteLabel, Fake.lookupRepo.
  cbn [Fake.Repos Fake.Store_setRepo]. rewrite lookup_insert_eq.
  cbn [Fake.PullRequests Fake.Repo_setPullRequests]. rewrite lookup_insert_eq.
  cbn [PullRequest_Labels PullRequest_setLabels]. rewrite Hlab.
  rewrite (indexOfLabel_first labels [] {| IssueLabel_Name := label |} label Habsent eq_refl).
  rewrite bool_decide_eq_true_2 by (rewrite length_app; simpl; lia).
  rewrite take_app_length. f_equal.
  unfold Fake.Store_setRepo at 1. cbn [Fake.Now Fake.Store_setRepo].
  rewrite insert_insert_eq.
  unfold Fake.Repo_setPullRequests at 1.
  cbn [Fake.UserCanWrite Fake.Comments Fake.Repo_setPullRequests].
  rewrite insert_insert_eq, PullRequest_setLabels_twice.
  rewrite <- Hlab, PullRequest_setLabels_same.
  rewrite (insert_id prs id pr Hpr).
  change {| Fake.UserCanWrite := Fake.UserCanWrite repo;
            Fake.PullRequests := Some prs;
            Fake.Comments := Fake.Comments repo |}
    with (Fake.Repo_setPullRequests repo prs).
  change {| Fake.Repos := Some (<[repoName := Fake.Repo_setPullRequests repo prs]> repos);
            Fake.Now := Fake.Now st |}
    with (Fake.Store_setRepo st repos repoName (Fake.Repo_setPullRequests repo prs)).
  apply Store_setRepo_same; assumption.
Qed.

(** X19.  On a repository that does not hold the pull request, [SetLabel]
    and [DeleteLabel] return the error "404 no such PR" and leave the store
    as it is, while [ListLabels] panics: it reads the labels through the
    nil pointer that the missing entry gives. *)
Theorem label_calls_on_missing_pr (id : Z) (label : string) (st : Fake.Store)
    (repos : gmap string Fake.Repo) (repo : Fake.Repo) (prs : gmap Z PullRequest) :
  Fake.Repos st = Some repos ->
  repos !! Git_Repository (Fake.Client_IntegrationConfig c) = Some repo ->
  Fake.PullRequests repo = Some prs ->
  prs !! id = None ->
  Fake.SetLabel c issueType id label st = (Some (errors_New "404 no such PR"), st)
  /\ Fake.Client_DeleteLabel c issueType id label st
     = (Some (errors_New "404 no such PR"), st)
  /\ Fake.ListLabels c id st = Panics.
Proof.
  intros Hr Hrepo Hprs Hpr.
  unfold Fake.SetLabel, Fake.Client_DeleteLabel, Fake.DeleteLabel, Fake.ListLabels,
    Fake.lookupRepo.
  rewrite Hr, Hrepo, Hprs. simpl. rewrite Hpr. repeat split; reflexivity.
Qed.

(** X20.  A comment registered on an issue is the last one that
    [ListComments] lists for it afterwards, behind the comments that were
    listed before; it carries the body and the time of the clock.  The
    comments of the other issues and the labels of the pull requests are as
    before. *)
Theorem RegisterComment_then_ListComments (issueNo : Z) (body : string) (st : Fake.Store)
    (repos : gmap string Fake.Repo) (repo : Fake.Repo)
    (comments : gmap Z (list IssueComment)) :
  Fake.lookupRepo (Git_Repository (Fake.Client_IntegrationConfig c)) st = Ok (repos, repo) ->
  Fake.Comments repo = Some comments ->
  exists (st' : Fake.Store) (new : IssueComment) (old : list IssueComment),
    Fake.RegisterComment c issueType issueNo body st = (None, st')
    /\ Fake.ListComments c issueNo st = (Ok old, st)
    /\ Fake.ListComments c issueNo st' = (Ok (old ++ [new]), st')
    /\ Comment_Body (IssueComment_Comment new) = body
    /\ createdAt new = Some (Fake.Now st)
    /\ (forall other : Z, other <> issueNo ->
          fst (Fake.ListComments c other st') = fst (Fake.ListComments c other st))
    /\ (forall id : Z,
          labelsOf (Git_Repository (Fake.Client_IntegrationConfig c)) id st'
          = labelsOf (Git_Repository (Fake.Client_IntegrationConfig c)) id st).
Proof.
  intros Hl Hc.
  assert (Hrepos : Fake.Repos st = Some repos /\ repos !! repoName = Some repo).
  { unfold Fake.lookupRepo in Hl. destruct (Fake.Repos st) as [rs|]; [|discriminate].
    destruct (rs !! repoName) as [rp|] eqn:E; [|discriminate].
    injection Hl as -> ->. auto. }
  destruct Hrepos as [Hr Hrepo].
  unfold Fake.RegisterComment, Fake.ListComments. rewrite Hl, Hc.
  eexists _, _, _. split; [reflexivity |]. split; [reflexivity |].
  unfold Fake.lookupRepo, Fake.Store_setRepo, Fake.Repo_setComments. cbn [Fake.Repos].
  rewrite lookup_insert_eq. cbn [Fake.Comments mbind option_bind].
  rewrite lookup_insert_eq. cbn [default].
  split; [reflexivity |]. split; [reflexivity |]. split; [reflexivity |]. split.
  - intros other Hne. cbn [fst]. rewrite lookup_insert_ne by congruence. reflexivity.
  - intros id. unfold labelsOf. cbn [Fake.Repos mbind option_bind].
    rewrite Hr. cbn [mbind option_bind]. rewrite lookup_insert_eq, Hrepo. reflexivity.
Qed.

End FakeRoundTrips.

(** ** [RequestHTTP] and [GetPaginatedRequest] *)
Section Requests.

Import GoStrings Git.

Context {St Data TLS Obj : Type}.
Variable json_Marshal : Data -> result string.
Variable http_NewRequest : string -> string -> string -> result Http.Request.
Variable Do : option TLS -> Http.Request -> St -> result Http.Response * St.
Variable url_Parse : string -> result Http.URL.
Variable url_String : Http.URL -> string.
Variable json_Unmarshal : string -> result Obj.
Variable ParseLinkHeader : string -> option (list Http.LinkHeaderEntry).
Variable Find : list Http.LinkHeaderEntry -> string -> option Http.LinkHeaderEntry.
Variable header : list (string * string).
Variable tlsConfig : option TLS.

Local Abbreviation RequestHTTP := (Http.RequestHTTP (Obj := Obj) json_Marshal http_NewRequest Do).
Local Abbreviation pages :=
  (Http.pages json_Marshal http_NewRequest Do json_Unmarshal ParseLinkHeader Find).
Local Abbreviation GetPaginatedRequest :=
  (Http.GetPaginatedRequest json_Marshal http_NewRequest Do url_Parse url_String
     json_Unmarshal ParseLinkHeader Find).
Local Abbreviation answers := (answers http_NewRequest Do header tlsConfig).
Local Abbreviation serves := (serves http_NewRequest Do json_Unmarshal header tlsConfig).
Local Abbreviation Chain :=
  (Chain http_NewRequest Do json_Unmarshal ParseLinkHeader Find header tlsConfig).

Lemma CheckRateLimitGetResetTime_no_marker (e : error) :
  Contains (Error e) "Rate limit exceeded" = true ->
  Contains (Error e) "::" = false ->
  CheckRateLimitGetResetTime (Some e) = Panics.
Proof.
  intros HC HM. unfold CheckRateLimitGetResetTime. rewrite HC.
  assert (HI : Index (Error e) "::" = None).
  { unfold Contains in HM. destruct (Index (Error e) "::"); [discriminate | reflexivity]. }
  apply Split_second_none in HI. rewrite HI. reflexivity.
Qed.

(** What [RequestHTTP] does with an answer of the server to a GET request. *)
Lemma RequestHTTP_answers (uri : string) (s s' : St) (code : Z) (h : Http.Header)
    (body : string) (w : World St (Http.Event Obj)) :
  answers uri s code h body s' ->
  remote w = s ->
  exists req,
    RequestHTTP "GET" uri header None tlsConfig w
    = Returns ({| Http.Reply_Body := body;
                  Http.Reply_Header := Some h;
                  Http.Reply_Err :=
                    if (code <? 200) || (299 <? code)
                    then Some (Http.statusError "GET" uri code body)
                    else None |},
               {| remote := s'; calls := calls w ++ [Http.EvDo req] |}).
Proof.
  intros (req & resp & Hreq & Hdo & Hcode & Hh & Hbody) Hw.
  exists (Http.addHeaders req header).
  unfold Http.RequestHTTP. rewrite Hreq.
  unfold bind, call, ret. rewrite Hw, Hdo. rewrite Hbody, Hcode, Hh. reflexivity.
Qed.

Lemma accumulated_app (a b : list (Http.Event Obj)) :
  accumulated (a ++ b) = accumulated a ++ accumulated b.
Proof. unfold accumulated. apply omap_app. Qed.

Lemma requested_app (a b : list (Http.Event Obj)) :
  requested (a ++ b) = requested a ++ requested b.
Proof. unfold requested. apply omap_app. Qed.

Lemma status_ok (code : Z) : 200 <= code <= 299 -> (code <? 200) || (299 <? code) = false.
Proof. intros H. apply orb_false_iff. split; apply Z.ltb_ge; lia. Qed.

Lemma status_bad (code : Z) : ~ 200 <= code <= 299 -> (code <? 200) || (299 <? code) = true.
Proof.
  intros H. apply orb_true_iff.
  destruct (Z.ltb_spec code 200); [left; reflexivity | right]. apply Z.ltb_lt. lia.
Qed.

(** One round of the loop on a page that is served: the request, the call
    of [accumulate], and then the link decides. *)
Lemma pages_serves (n : nat) (uri : string) (s s1 : St) (obj : Obj) (h : Http.Header)
    (w : World St (Http.Event Obj)) :
  serves uri s obj h s1 ->
  remote w = s ->
  exists req,
    pages (S n) uri header tlsConfig w
    = match Http.nextPage ParseLinkHeader Find (Some h) with
      | None =>
          Returns (Some None,
                   {| remote := s1;
                      calls := calls w ++ [Http.EvDo req; Http.EvAccumulate obj] |})
      | Some next =>
          pages n next header tlsConfig
            {| remote := s1; calls := calls w ++ [Http.EvDo req; Http.EvAccumulate obj] |}
      end.
Proof.
  intros (code & body & Hans & Hcode & Hobj) Hw.
  destruct (RequestHTTP_answers uri s s1 code h body w Hans Hw) as [req Hr].
  exists req. cbn [Http.pages]. unfold bind at 1. rewrite Hr.
  rewrite (status_ok code Hcode). cbn [Http.Reply_Err Http.Reply_Body Http.Reply_Header].
  rewrite Hobj. unfold bind, note, ret. cbn [remote calls].
  rewrite <- app_assoc. cbn [app].
  destruct (Http.nextPage ParseLinkHeader Find (Some h)); reflexivity.
Qed.

(** Along a chain of pages the loop sends one request per page and hands
    the pages to [accumulate] in their order. *)
Lemma pages_Chain (uri : string) (s : St) (objs : list Obj) (uri' : string) (s' : St) :
  Chain uri s objs uri' s' ->
  forall (n : nat) (w : World St (Http.Event Obj)),
    remote w = s ->
    exists w',
      remote w' = s'
      /\ accumulated (calls w') = accumulated (calls w) ++ objs
      /\ length (requested (calls w')) = (length (requested (calls w)) + length objs)%nat
      /\ pages (length objs + n) uri header tlsConfig w = pages n uri' header tlsConfig w'.
Proof.
  induction 1 as [uri s | uri s obj h s1 next objs uri' s' Hs Hnext _ IH]; intros n w Hw.
  - exists w. rewrite app_nil_r, Nat.add_0_r. auto.
  - destruct (pages_serves (length objs + n) uri s s1 obj h w Hs Hw) as [req Hp].
    rewrite Hnext in Hp.
    destruct (IH n {| remote := s1;
                      calls := calls w ++ [Http.EvDo req; Http.EvAccumulate obj] |} eq_refl)
      as (w' & Hr & Hacc & Hreq & Hpages).
    exists w'. cbn [calls] in Hacc, Hreq.
    rewrite accumulated_app in Hacc. rewrite requested_app in Hreq.
    rewrite length_app in Hreq. cbn in Hacc, Hreq.
    split; [exact Hr |]. split; [rewrite Hacc, <- app_assoc; reflexivity |].
    split; [rewrite Hreq; cbn [length]; lia |].
    cbn [length]. change (S (length objs) + n)%nat with (S (length objs + n)).
    rewrite Hp. exact Hpages.
Qed.

(** X21.  [RequestHTTP] hands back the body and the header of the
    response whatever the status is.  On a status outside 200..299 the
    error is [error requesting api [method] uri, code N, msg body]; when the
    body holds "Rate limit exceeded" and that text holds no ["::"],
    [CheckRateLimitGetResetTime] panics on the error. *)
Theorem RequestHTTP_status_error (method uri : string) (data : option Data)
    (jsonBytes : string) (req : Http.Request) (resp : Http.Response) (body : string)
    (s' : St) (w : World St (Http.Event Obj)) :
  match data with
  | Some d => json_Marshal d
  | None => Ok EmptyString
  end = Ok jsonBytes ->
  http_NewRequest method uri jsonBytes = Ok req ->
  Do tlsConfig (Http.addHeaders req header) (remote w) = (Ok resp, s') ->
  Http.Response_Body resp = Ok body ->
  ~ 200 <= Http.StatusCode resp <= 299 ->
  exists reply,
    RequestHTTP method uri header data tlsConfig w
    = Returns (reply, {| remote := s';
                         calls := calls w ++ [Http.EvDo (Http.addHeaders req header)] |})
    /\ Http.Reply_Body reply = body
    /\ Http.Reply_Header reply = Some (Http.Response_Header resp)
    /\ Http.Reply_Err reply
       = Some (Http.statusError method uri (Http.StatusCode resp) body)
    /\ (Contains body "Rate limit exceeded" = true ->
        Contains (Error (Http.statusError method uri (Http.StatusCode resp) body)) "::"
        = false ->
        CheckRateLimitGetResetTime (Http.Reply_Err reply) = Panics).
Proof.
  intros Hm Hreq Hdo Hbody Hcode.
  eexists. split.
  - unfold Http.RequestHTTP. rewrite Hm, Hreq. unfold bind, call, ret.
    rewrite Hdo, Hbody, (status_bad _ Hcode). reflexivity.
  - cbn [Http.Reply_Body Http.Reply_Header Http.Reply_Err].
    split; [reflexivity |]. split; [reflexivity |]. split; [reflexivity |].
    intros HC HM. apply CheckRateLimitGetResetTime_no_marker; [| exact HM].
    unfold Http.statusError, errors_New. cbn [Error].
    repeat apply Contains_append_r. exact HC.
Qed.

(** X22.  [GetPaginatedRequest] on a chain of pages that ends in a page
    without a "next" link: with more fuel than there are pages before the
    last, it returns nil, has sent one request per page and has handed every
    page to [accumulate], in the order of the chain. *)
Theorem GetPaginatedRequest_accumulates_every_page (apiURL : string) (u : Http.URL)
    (objs : list Obj) (uri' : string) (s1 s' : St) (last : Obj) (h : Http.Header)
    (fuel : nat) (w : World St (Http.Event Obj)) :
  url_Parse apiURL = Ok u ->
  Chain (url_String (Http.withPageSize u)) (remote w) objs uri' s1 ->
  serves uri' s1 last h s' ->
  Http.nextPage ParseLinkHeader Find (Some h) = None ->
  (length objs < fuel)%nat ->
  exists w',
    GetPaginatedRequest fuel apiURL tlsConfig header w = Returns (Some None, w')
    /\ remote w' = s'
    /\ accumulated (calls w') = accumulated (calls w) ++ objs ++ [last]
    /\ length (requested (calls w'))
       = (length (requested (calls w)) + length objs + 1)%nat.
Proof.
  intros Hu Hchain Hlast Hnext Hfuel.
  unfold Http.GetPaginatedRequest. rewrite Hu.
  destruct (pages_Chain _ _ _ _ _ Hchain (fuel - length objs) w eq_refl)
    as (w1 & Hr1 & Hacc & Hreq & Hpages).
  replace (length objs + (fuel - length objs))%nat with fuel in Hpages by lia.
  rewrite Hpages.
  destruct (fuel - length objs)%nat as [|n] eqn:En; [lia |].
  destruct (pages_serves n uri' s1 s' last h w1 Hlast Hr1) as [req Hp].
  rewrite Hnext in Hp. rewrite Hp. eexists. split; [reflexivity |].
  cbn [remote calls]. split; [reflexivity |].
  rewrite accumulated_app, requested_app, length_app, Hacc, Hreq. cbn.
  split; [rewrite <- app_assoc; reflexivity | lia].
Qed.

(** X23.  When a page of the chain is answered with a status outside
    200..299, [GetPaginatedRequest] returns the error of that request; the
    pages before it have been handed to [accumulate] and stay so, and no
    request follows. *)
Theorem GetPaginatedRequest_stops_at_error (apiURL : string) (u : Http.URL)
    (objs : list Obj) (uri' : string) (s1 s' : St) (code : Z) (h : Http.Header)
    (body : string) (fuel : nat) (w : World St (Http.Event Obj)) :
  url_Parse apiURL = Ok u ->
  Chain (url_String (Http.withPageSize u)) (remote w) objs uri' s1 ->
  answers uri' s1 code h body s' ->
  ~ 200 <= code <= 299 ->
  (length objs < fuel)%nat ->
  exists w',
    GetPaginatedRequest fuel apiURL tlsConfig header w
    = Returns (Some (Some (Http.statusError "GET" uri' code body)), w')
    /\ remote w' = s'
    /\ accumulated (calls w') = accumulated (calls w) ++ objs
    /\ length (requested (calls w'))
       = (length (requested (calls w)) + length objs + 1)%nat.
Proof.
  intros Hu Hchain Hans Hcode Hfuel.
  unfold Http.GetPaginatedRequest. rewrite Hu.
  destruct (pages_Chain _ _ _ _ _ Hchain (fuel - length objs) w eq_refl)
    as (w1 & Hr1 & Hacc & Hreq & Hpages).
  replace (length objs + (fuel - length objs))%nat with fuel in Hpages by lia.
  rewrite Hpages.
  destruct (fuel - length objs)%nat as [|n] eqn:En; [lia |].
  destruct (RequestHTTP_answers uri' s1 s' code h body w1 Hans Hr1) as [req Hr].
  cbn [Http.pages]. unfold bind at 1. rewrite Hr. rewrite (status_bad code Hcode).
  cbn [Http.Reply_Err]. unfold ret. eexists. split; [reflexivity |].
  cbn [remote calls]. split; [reflexivity |].
  rewrite accumulated_app, requested_app, length_app, Hacc, Hreq. cbn.
  split; [rewrite app_nil_r; reflexivity | lia].
Qed.

(** X24.  The loop of [GetPaginatedRequest] has no bound of its own: when
    the server serves a page that links to itself, in whatever state it is,
    the loop is still running after any number of rounds, each of which
    has sent a request and accumulated the page once more. *)
Theorem GetPaginatedRequest_follows_links_without_bound (apiURL : string) (u : Http.URL)
    (obj : Obj) (h : Http.Header) :
  url_Parse apiURL = Ok u ->
  (forall s, exists s', serves (url_String (Http.withPageSize u)) s obj h s') ->
  Http.nextPage ParseLinkHeader Find (Some h) = Some (url_String (Http.withPageSize u)) ->
  forall (fuel : nat) (w : World St (Http.Event Obj)),
  exists w',
    GetPaginatedRequest fuel apiURL tlsConfig header w = Returns (None, w')
    /\ accumulated (calls w') = accumulated (calls w) ++ replicate fuel obj
    /\ length (requested (calls w')) = (length (requested (calls w)) + fuel)%nat.
Proof.
  intros Hu Hserves Hnext fuel.
  unfold Http.GetPaginatedRequest. rewrite Hu.
  induction fuel as [|n IH]; intros w.
  - exists w. cbn. rewrite app_nil_r, Nat.add_0_r. auto.
  - destruct (Hserves (remote w)) as [s' Hs].
    destruct (pages_serves n _ _ _ _ _ w Hs eq_refl) as [req Hp].
    rewrite Hnext in Hp. rewrite Hp.
    destruct (IH {| remote := s';
                    calls := calls w ++ [Http.EvDo req; Http.EvAccumulate obj] |})
      as (w' & Hres & Hacc & Hreq).
    exists w'. split; [exact Hres |]. cbn [calls] in Hacc, Hreq.
    rewrite accumulated_app in Hacc. rewrite requested_app, length_app in Hreq.
    cbn in Hacc, Hreq. split.
    + rewrite Hacc, <- app_assoc. reflexivity.
    + rewrite Hreq. lia.
Qed.

End Requests.

(** ** The fake client: webhooks, commit statuses and merges *)
Section FakeRemoteFacts.

Import GoStrings Git.

Variable c : Fake.Client.

Local Abbreviation repoName := (Git_Repository (Fake.Client_IntegrationConfig c)).

Lemma FakeRemote_lookupRepo_inv (name : string) (st : FakeRemote.Store)
    (repos : gmap string FakeRemote.Repo) (repo : FakeRemote.Repo) :
  FakeRemote.lookupRepo name st = Ok (repos, repo) <->
  FakeRemote.Repos st = Some repos /\ repos !! name = Some repo.
Proof.
  unfold FakeRemote.lookupRepo. split.
  - destruct (FakeRemote.Repos st) as [rs|]; [|discriminate].
    destruct (rs !! name) as [r|] eqn:E; [|discriminate].
    intros [= <- <-]. auto.
  - intros [-> ->]. reflexivity.
Qed.

Lemma FakeRemote_lookupRepo_setRepo (name : string) (st : FakeRemote.Store)
    (repos : gmap string FakeRemote.Repo) (repo : FakeRemote.Repo) :
  FakeRemote.lookupRepo name (FakeRemote.Store_setRepo st repos name repo)
  = Ok (<[name := repo]> repos, repo).
Proof.
  unfold FakeRemote.lookupRepo, FakeRemote.Store_setRepo. cbn [FakeRemote.Repos].
  rewrite lookup_insert_eq. reflexivity.
Qed.

Lemma FakeRemote_setRepo_same (name : string) (st : FakeRemote.Store)
    (repos : gmap string FakeRemote.Repo) (repo : FakeRemote.Repo) :
  FakeRemote.Repos st = Some repos -> repos !! name = Some repo ->
  FakeRemote.Store_setRepo st repos name repo = st.
Proof.
  intros Hr Hl. unfold FakeRemote.Store_setRepo. rewrite (insert_id _ _ _ Hl).
  destruct st as [rs now]. cbn in *. subst rs. reflexivity.
Qed.

Lemma listWebhooks_clean (now : Z) (hooks res : list FakeRemote.WebhookEntry) :
  Forall (fun w => ~ rateLimited (FakeRemote.WebhookEntry_URL w)) hooks ->
  FakeRemote.listWebhooks now hooks res = Ok (res ++ hooks).
Proof.
  intros H. revert res. induction H as [|w rest Hw _ IH]; intros res; cbn.
  - rewrite app_nil_r. reflexivity.
  - unfold rateLimited in Hw.
    destruct (Contains (FakeRemote.WebhookEntry_URL w) "test-rate-limit"); [congruence |].
    rewrite IH, <- app_assoc. reflexivity.
Qed.

Lemma listWebhooks_limited (now : Z) (hooks res : list FakeRemote.WebhookEntry) :
  Exists (fun w => rateLimited (FakeRemote.WebhookEntry_URL w)) hooks ->
  FakeRemote.listWebhooks now hooks res = Err (FakeRemote.rateLimitExceeded now).
Proof.
  intros H. revert res. induction H as [w rest Hw | w rest _ IH]; intros res; cbn.
  - unfold rateLimited in Hw. rewrite Hw. reflexivity.
  - destruct (Contains (FakeRemote.WebhookEntry_URL w) "test-rate-limit"); [reflexivity |].
    apply IH.
Qed.

(** X25.  [RegisterWebhook] puts the webhook under the drawn id, replacing
    whatever webhook was registered under that id before; [ListWebhook]
    then lists the new webhook and the webhooks of the other ids, each
    once (in some order). *)
Theorem RegisterWebhook_then_ListWebhook (id : Z) (url : string) (st : FakeRemote.Store)
    (repos : gmap string FakeRemote.Repo) (repo : FakeRemote.Repo)
    (hooks : gmap Z FakeRemote.WebhookEntry) :
  FakeRemote.lookupRepo repoName st = Ok (repos, repo) ->
  FakeRemote.Webhooks repo = Some hooks ->
  ~ rateLimited url ->
  map_Forall (fun _ w => ~ rateLimited (FakeRemote.WebhookEntry_URL w)) hooks ->
  exists st' listed,
    FakeRemote.RegisterWebhook c id url st = (None, st')
    /\ FakeRemote.ListWebhook c st' = Ok listed
    /\ listed ≡ₚ {| FakeRemote.WebhookEntry_ID := id; FakeRemote.WebhookEntry_URL := url |}
                 :: (snd <$> map_to_list (delete id hooks)).
Proof.
  intros Hl Hh Hurl Hall.
  unfold FakeRemote.RegisterWebhook, FakeRemote.ListWebhook. rewrite Hl, Hh.
  unfold rateLimited in Hurl.
  destruct (Contains url "test-rate-limit") eqn:Eu; [congruence |].
  eexists. eexists. split; [reflexivity |].
  rewrite FakeRemote_lookupRepo_setRepo.
  cbn [FakeRemote.Repo_setWebhooks FakeRemote.Webhooks default]. unfold Datatypes.id.
  rewrite listWebhooks_clean.
  - split; [reflexivity |]. cbn [app].
    rewrite <- insert_delete_eq.
    rewrite (map_to_list_insert (delete id hooks)) by apply lookup_delete_eq.
    reflexivity.
  - apply Forall_fmap.
    assert (Hall' : map_Forall
                      (fun _ w => ~ rateLimited (FakeRemote.WebhookEntry_URL w))
                      (<[id := {| FakeRemote.WebhookEntry_ID := id;
                                  FakeRemote.WebhookEntry_URL := url |}]> hooks)).
    { apply map_Forall_insert_2; [| exact Hall]. cbn. unfold rateLimited.
      rewrite Eu. discriminate. }
    apply map_Forall_to_list in Hall'.
    eapply Forall_impl; [exact Hall' |]. intros [i w] Hw. exact Hw.
Qed.

(** X26.  [DeleteWebhook] after [RegisterWebhook] with the same id leaves the
    webhooks of the other ids; the store is as before when the id was
    free, and otherwise the webhook that had the id is gone. *)
Theorem RegisterWebhook_then_DeleteWebhook (id : Z) (url : string) (st : FakeRemote.Store)
    (repos : gmap string FakeRemote.Repo) (repo : FakeRemote.Repo)
    (hooks : gmap Z FakeRemote.WebhookEntry) :
  FakeRemote.lookupRepo repoName st = Ok (repos, repo) ->
  FakeRemote.Webhooks repo = Some hooks ->
  ~ rateLimited url ->
  exists st1 st2,
    FakeRemote.RegisterWebhook c id url st = (None, st1)
    /\ FakeRemote.DeleteWebhook c id st1 = (None, st2)
    /\ FakeRemote.Webhooks <$> repoOf repoName st2 = Some (Some (delete id hooks))
    /\ (hooks !! id = None -> st2 = st).
Proof.
  intros Hl Hh Hurl.
  unfold FakeRemote.RegisterWebhook, FakeRemote.DeleteWebhook. rewrite Hl, Hh.
  unfold rateLimited in Hurl. destruct (Contains url "test-rate-limit"); [congruence |].
  eexists. eexists. split; [reflexivity |].
  rewrite FakeRemote_lookupRepo_setRepo. cbn [FakeRemote.Repo_setWebhooks FakeRemote.Webhooks].
  split; [reflexivity |].
  apply FakeRemote_lookupRepo_inv in Hl as [Hr Hrepo].
  unfold repoOf, FakeRemote.Store_setRepo. cbn [FakeRemote.Repos FakeRemote.Now mbind option_bind].
  rewrite insert_insert_eq, delete_insert_eq. split.
  - rewrite lookup_insert_eq. reflexivity.
  - intros Hfree. rewrite (delete_id _ _ Hfree).
    replace (FakeRemote.Repo_setWebhooks
               (FakeRemote.Repo_setWebhooks repo
                  (<[id := {| FakeRemote.WebhookEntry_ID := id;
                              FakeRemote.WebhookEntry_URL := url |}]> hooks)) hooks)
      with repo by (destruct repo; cbn in *; subst; reflexivity).
    rewrite (insert_id _ _ _ Hrepo). destruct st as [rs now]. cbn in *. subst rs. reflexivity.
Qed.

(** X27.  The rate-limit errors of the fake client are read back by
    [CheckRateLimitGetResetTime]: [RegisterWebhook] of a rate-limited url, and
    [ListWebhook] when a rate-limited url is registered, fail without
    changing the store, with an error from which
    [CheckRateLimitGetResetTime] returns the current time plus 100, a gap of
    100 seconds for [GetGapTime]. *)
Theorem fake_rate_limit_read_back (id : Z) (url : string) (st : FakeRemote.Store)
    (repos : gmap string FakeRemote.Repo) (repo : FakeRemote.Repo)
    (hooks : gmap Z FakeRemote.WebhookEntry) :
  FakeRemote.lookupRepo repoName st = Ok (repos, repo) ->
  FakeRemote.Webhooks repo = Some hooks ->
  minInt <= FakeRemote.Now st <= maxInt - 100 ->
  exists e,
    (rateLimited url -> FakeRemote.RegisterWebhook c id url st = (Some e, st))
    /\ ((exists i w, hooks !! i = Some w /\ rateLimited (FakeRemote.WebhookEntry_URL w)) ->
        FakeRemote.ListWebhook c st = Err e)
    /\ CheckRateLimitGetResetTime (Some e) = Returns (FakeRemote.Now st + 100)
    /\ GetGapTime (FakeRemote.Now st) (FakeRemote.Now st + 100) = 100.
Proof.
  intros Hl Hh Hnow. exists (FakeRemote.rateLimitExceeded (FakeRemote.Now st)).
  split; [| split; [| split]].
  - intros Hurl. unfold FakeRemote.RegisterWebhook. rewrite Hl, Hh.
    unfold rateLimited in Hurl. rewrite Hurl. reflexivity.
  - intros (i & w & Hi & Hw). unfold FakeRemote.ListWebhook. rewrite Hl, Hh.
    cbn [default]. apply listWebhooks_limited.
    apply Exists_exists. exists w. split; [| exact Hw].
    apply (list_elem_of_fmap_2 snd _ (i, w)).
    apply elem_of_map_to_list. exact Hi.
  - unfold FakeRemote.rateLimitExceeded.
    assert (Hr : minInt <= FakeRemote.Now st + 100 <= maxInt) by lia.
    rewrite (wrap64_small _ Hr).
    apply CheckRateLimitGetResetTime_roundtrip; [reflexivity | reflexivity | exact Hr].
  - unfold GetGapTime. replace (FakeRemote.Now st + 100 - FakeRemote.Now st) with 100 by lia.
    reflexivity.
Qed.

(** X28.  [SetCommitStatus] appends: afterwards [ListCommitStatuses] of the
    sha returns the statuses the sha had (none when the ref was unknown,
    which [ListCommitStatuses] reported as an error before) followed by the
    new one, and every other ref lists as before. *)
Theorem SetCommitStatus_then_ListCommitStatuses (sha : string)
    (status : FakeRemote.CommitStatus) (st : FakeRemote.Store)
    (repos : gmap string FakeRemote.Repo) (repo : FakeRemote.Repo)
    (statuses : gmap string (list FakeRemote.CommitStatus)) :
  FakeRemote.lookupRepo repoName st = Ok (repos, repo) ->
  FakeRemote.CommitStatuses repo = Some statuses ->
  exists st',
    FakeRemote.SetCommitStatus c sha status st = (None, st')
    /\ FakeRemote.ListCommitStatuses c sha st'
       = Ok (default [] (statuses !! sha) ++ [status])
    /\ (statuses !! sha = None ->
        FakeRemote.ListCommitStatuses c sha st = Err (errors_New "404 no such ref"))
    /\ (forall ref, ref <> sha ->
        FakeRemote.ListCommitStatuses c ref st' = FakeRemote.ListCommitStatuses c ref st).
Proof.
  intros Hl Hs.
  unfold FakeRemote.SetCommitStatus, FakeRemote.ListCommitStatuses. rewrite Hl, Hs.
  eexists. split; [reflexivity |].
  rewrite FakeRemote_lookupRepo_setRepo.
  cbn [FakeRemote.Repo_setCommitStatuses FakeRemote.CommitStatuses].
  rewrite lookup_insert_eq. split; [reflexivity |].
  split; [intros ->; reflexivity |].
  intros ref Hne. rewrite lookup_insert_ne by congruence. reflexivity.
Qed.

(** X29.  [MergePullRequest] of a pull request that exists, whatever its
    state, the sha and the merge method are: the pull request is Closed and
    not mergeable afterwards and is still listed; a commit with the sha of
    its head is appended to the commits of its base ref, with the given
    message, or with [title(#id)] when the message is empty; the other pull
    requests and refs, the webhooks and the commit statuses are as
    before. *)
Theorem MergePullRequest_closes_and_commits (id : Z) (sha : string)
    (method : FakeRemote.MergeMethod) (message : string) (st : FakeRemote.Store)
    (repos : gmap string FakeRemote.Repo) (repo : FakeRemote.Repo)
    (prs : gmap Z FakeRemote.PullRequest) (pr : FakeRemote.PullRequest)
    (commits : gmap string (list FakeRemote.Commit)) :
  FakeRemote.lookupRepo repoName st = Ok (repos, repo) ->
  FakeRemote.PullRequests repo = Some prs ->
  prs !! id = Some pr ->
  FakeRemote.Commits repo = Some commits ->
  exists st' repo' commits' commit,
    FakeRemote.MergePullRequest c id sha method message st = Returns (None, st')
    /\ FakeRemote.GetPullRequest c id st' = Ok (FakeRemote.PullRequest_close pr)
    /\ PullRequest_State (FakeRemote.PullRequest_Fields (FakeRemote.PullRequest_close pr))
       = PullRequestStateClosed
    /\ PullRequest_Mergeable (FakeRemote.PullRequest_Fields (FakeRemote.PullRequest_close pr))
       = false
    /\ (forall flag, exists listed,
          FakeRemote.ListPullRequests c flag st' = Ok listed
          /\ FakeRemote.PullRequest_close pr ∈ listed)
    /\ (forall other, other <> id ->
          FakeRemote.GetPullRequest c other st' = FakeRemote.GetPullRequest c other st)
    /\ repoOf repoName st' = Some repo'
    /\ FakeRemote.Commits repo' = Some commits'
    /\ commits' !! FakeRemote.Base_Ref (FakeRemote.PullRequest_Base pr)
       = Some (default [] (commits !! FakeRemote.Base_Ref (FakeRemote.PullRequest_Base pr))
               ++ [commit])
    /\ FakeRemote.Commit_SHA commit = FakeRemote.Head_Sha (FakeRemote.PullRequest_Head pr)
    /\ (message <> EmptyString -> FakeRemote.Commit_Message commit = message)
    /\ (message = EmptyString ->
        FakeRemote.Commit_Message commit
        = PullRequest_Title (FakeRemote.PullRequest_Fields pr) +:+ "(#"
          +:+ FormatInt (PullRequest_ID (FakeRemote.PullRequest_Fields pr)) +:+ ")")
    /\ (forall ref, ref <> FakeRemote.Base_Ref (FakeRemote.PullRequest_Base pr) ->
          commits' !! ref = commits !! ref)
    /\ FakeRemote.Webhooks repo' = FakeRemote.Webhooks repo
    /\ FakeRemote.CommitStatuses repo' = FakeRemote.CommitStatuses repo.
Proof.
  intros Hl Hp Hpr Hc.
  unfold FakeRemote.MergePullRequest, FakeRemote.GetPullRequest, FakeRemote.ListPullRequests.
  rewrite Hl, Hp, Hpr, Hc.
  eexists. eexists. eexists. eexists. split; [reflexivity |].
  rewrite FakeRemote_lookupRepo_setRepo. cbn [FakeRemote.Repo_merged FakeRemote.PullRequests].
  rewrite lookup_insert_eq.
  split; [reflexivity |]. split; [reflexivity |]. split; [reflexivity |].
  split.
  { intros _. eexists. split; [reflexivity |]. cbn [default].
    apply (list_elem_of_fmap_2 snd _ (id, FakeRemote.PullRequest_close pr)).
    apply elem_of_map_to_list. apply lookup_insert_eq. }
  split.
  { intros other Hne. rewrite lookup_insert_ne by congruence. reflexivity. }
  unfold repoOf, FakeRemote.Store_setRepo. cbn [FakeRemote.Repos mbind option_bind].
  rewrite lookup_insert_eq.
  split; [reflexivity |]. cbn [FakeRemote.Commits FakeRemote.Webhooks FakeRemote.CommitStatuses].
  split; [reflexivity |]. rewrite lookup_insert_eq.
  split; [reflexivity |]. cbn [FakeRemote.Commit_SHA FakeRemote.Commit_Message].
  split; [reflexivity |]. unfold FakeRemote.mergeMessage.
  split; [intros Hm; case_bool_decide; [congruence | reflexivity] |].
  split; [intros Hm; case_bool_decide; [reflexivity | congruence] |].
  split; [| split; reflexivity].
  intros ref Hne. rewrite lookup_insert_ne by congruence. reflexivity.
Qed.

(** X30.  The unguarded maps of [MergePullRequest]: with a nil
    [repo.PullRequests] it answers [404 no such pr] and changes nothing
    (where [GetPullRequest] reports the map as not initialized); with the
    pull request present and a nil [repo.Commits], the assignment to the
    nil map panics. *)
Theorem MergePullRequest_nil_maps (id : Z) (sha : string) (method : FakeRemote.MergeMethod)
    (message : string) (st : FakeRemote.Store)
    (repos : gmap string FakeRemote.Repo) (repo : FakeRemote.Repo) :
  FakeRemote.lookupRepo repoName st = Ok (repos, repo) ->
  (FakeRemote.PullRequests repo = None ->
   FakeRemote.MergePullRequest c id sha method message st
   = Returns (Some (errors_New "404 no such pr"), st)
   /\ FakeRemote.GetPullRequest c id st = Err (errors_New "pull requests not initialized"))
  /\ (forall prs pr,
        FakeRemote.PullRequests repo = Some prs ->
        prs !! id = Some pr ->
        FakeRemote.Commits repo = None ->
        FakeRemote.MergePullRequest c id sha method message st = Panics).
Proof.
  intros Hl. unfold FakeRemote.MergePullRequest, FakeRemote.GetPullRequest. rewrite Hl.
  split.
  - intros ->. split; reflexivity.
  - intros prs pr -> -> ->. reflexivity.
Qed.

End FakeRemoteFacts.

(** ** The properties above on the fixtures *)
Section OnFixtures.

Import Fixtures.

Local Abbreviation HandleChatOps :=
  (Approve.HandleChatOps GetGitCli ExtractCommands (fun l => l) unauthorizedErrorText).
Local Abbreviation Handle := (Approve.Handle GetGitCli unauthorizedErrorText).
Local Abbreviation Reconcile :=
  (Controllers.Reconcile finalizer Failed (fun status => status) (fun _ => "test-run")).
Local Abbreviation getGitCli := (Approve.CallGetGitCli "test-repo").
Local Abbreviation tkn := {| GitToken_Value := "test-tkn" |}.

Lemma HandleChatOps_ignores_closed_witness :
  HandleChatOps (approve []) closedWebhook (config token) (emptyWorld (store []))
  = Returns (None, emptyWorld (store [])).
Proof.
  apply (HandleChatOps_ignores_closed GetGitCli ExtractCommands (fun l => l)
           unauthorizedErrorText (approve []) closedWebhook (config token) closedComment
           (emptyWorld (store []))).
  - reflexivity.
  - right. eexists. split; [reflexivity | discriminate].
Defined.




Lemma handleApproveCancelCommand_label_missing_witness :
  exists (res : option error) (s2 : Fake.Store),
    Approve.handleApproveCancelCommand (comment "/approve cancel" ReviewStateNone 1700000000)
      strictClient (emptyWorld (store []))
    = Returns (res,
               {| remote := s2;
                  calls := [] ++
                    [Approve.CallDeleteLabel IssueTypePullRequest 42 "approved";
                     Approve.CallRegisterComment IssueTypePullRequest 42
                       (Approve.generateApproveCanceledComment "bob")] |}).
Proof.
  eexists. eexists.
  apply (handleApproveCancelCommand_label_missing
           (comment "/approve cancel" ReviewStateNone 1700000000) (pr42 [] []) strictClient
           eq_refl (emptyWorld (store [])) (errors_New "404 Label does not exist") (store [])).
  - reflexivity.
  - vm_compute. reflexivity.
Defined.

Lemma handleApproveCheckCommand_converges_witness :
  exists (res : option error) (w' : World Fake.Store Approve.Call),
    Approve.handleApproveCheckCommand ExtractCommands (fun l => l)
      (comment "/approve check" ReviewStateNone 1700000000) client
      (emptyWorld (store [approved]))
    = Returns (res, w')
    /\ ((calls w'
         = [Approve.CallListLabels 42; Approve.CallListComments 42]
           ++ [Approve.CallDeleteLabel IssueTypePullRequest 42 "approved"]
         /\ res <> None)
        \/ calls w'
           = [Approve.CallListLabels 42; Approve.CallListComments 42]
             ++ [Approve.CallDeleteLabel IssueTypePullRequest 42 "approved";
                 Approve.CallRegisterComment IssueTypePullRequest 42
                   (Approve.generateApproveCanceledComment "bob")]).
Proof.
  destruct (handleApproveCheckCommand_converges ExtractCommands (fun l => l)
              (comment "/approve check" ReviewStateNone 1700000000) (pr42 [] []) client
              eq_refl (emptyWorld (store [approved])) [approved] []
              (store [approved]) (store [approved])) as (_ & _ & H).
  - vm_compute. reflexivity.
  - vm_compute. reflexivity.
  - apply H; vm_compute; reflexivity.
Defined.

Lemma Handle_review_without_authorize_witness :
  exists (res : option error) (w' : World Fake.Store Approve.Call),
    Handle (reviewWebhook alice PullRequestReviewStateApproved) (config token)
      (emptyWorld (store []))
    = Returns (res, w')
    /\ ((calls w' = [getGitCli] ++ [Approve.CallSetLabel IssueTypePullRequest 42 "approved"]
         /\ res <> None)
        \/ calls w'
           = [getGitCli]
             ++ [Approve.CallSetLabel IssueTypePullRequest 42 "approved";
                 Approve.CallRegisterComment IssueTypePullRequest 42
                   (Approve.generateApprovedComment "bob")]).
Proof.
  destruct (Handle_review_without_authorize GetGitCli unauthorizedErrorText
              (comment "looks good" PullRequestReviewStateApproved 1700000000) (pr42 [] [])
              client eq_refl (reviewWebhook alice PullRequestReviewStateApproved)
              (config token) tkn (emptyWorld (store []))) as [H _].
  - reflexivity.
  - reflexivity.
  - reflexivity.
  - reflexivity.
  - reflexivity.
  - apply H. reflexivity.
Defined.

Lemma Handle_ignores_other_events_witness :
  Handle (commentWebhook bob "/approve") (config token) (emptyWorld (store []))
  = Returns (None, emptyWorld (store [])).
Proof.
  apply (Handle_ignores_other_events GetGitCli unauthorizedErrorText
           (commentWebhook bob "/approve") (config token) (emptyWorld (store []))).
  left. split; discriminate.
Defined.

Lemma handleLabelEvent_leaves_alone_witness :
  Approve.handleLabelEvent unauthorizedErrorText (labelWebhook bob [approved]) (config token)
    client (emptyWorld (store [approved]))
  = Returns (None,
             {| remote := store [approved]; calls := [Approve.CallCanUserWriteToRepo bob] |})
  /\ [Approve.CallCanUserWriteToRepo bob] = [] ++ [Approve.CallCanUserWriteToRepo bob].
Proof.
  apply (handleLabelEvent_leaves_alone unauthorizedErrorText (labelWebhook bob [approved])
           (config token) client (pr42 [approved] [approved]) eq_refl
           (emptyWorld (store [approved]))).
  - vm_compute. reflexivity.
  - vm_compute. reflexivity.
Defined.

Lemma handleLabelEvent_privilege_error_witness :
  Approve.handleLabelEvent unauthorizedErrorText (labelWebhook carol [approved])
    (config token) client (emptyWorld (store [approved]))
  = Returns (Some (errors_New "404 no such user"),
             {| remote := store [approved];
                calls := [] ++ [Approve.CallCanUserWriteToRepo carol] |}).
Proof.
  apply (handleLabelEvent_privilege_error unauthorizedErrorText (labelWebhook carol [approved])
           (config token) client (pr42 [approved] [approved]) eq_refl
           (emptyWorld (store [approved])) (errors_New "404 no such user") (store [approved])).
  - vm_compute. reflexivity.
  - vm_compute. discriminate.
  - vm_compute. reflexivity.
  - intros user repo. discriminate.
Defined.

Lemma Reconcile_job_not_fetched_witness :
  Reconcile (scriptedCluster goneScript) req (emptyWorld tt)
  = Returns ((Controllers.emptyResult, if IsNotFound notFound then None else Some notFound),
             {| remote := tt; calls := [] ++ [Controllers.EvGetIntegrationJob req] |}).
Proof.
  apply (Reconcile_job_not_fetched finalizer Failed (fun status => status)
           (fun _ => "test-run") (scriptedCluster goneScript) req (emptyWorld tt) notFound tt).
  reflexivity.
Defined.

Lemma Reconcile_adds_finalizer_witness :
  Reconcile (scriptedCluster newJobScript) req (emptyWorld tt)
  = Returns ((Controllers.emptyResult, None),
             {| remote := tt;
                calls := [] ++
                  [Controllers.EvGetIntegrationJob req;
                   Controllers.EvPatch
                     (IntegrationJob_setFinalizers newJob
                        (["other.io/finalizer"] ++ [finalizer]))] |}).
Proof.
  apply (Reconcile_adds_finalizer finalizer Failed (fun status => status)
           (fun _ => "test-run") (scriptedCluster newJobScript) req newJob (emptyWorld tt) tt).
  - reflexivity.
  - intros H. apply list_elem_of_singleton in H. discriminate H.
Defined.

Lemma Reconcile_completed_job_skipped_witness :
  Reconcile (scriptedCluster endedScript) req (emptyWorld tt)
  = Returns ((Controllers.emptyResult, None),
             {| remote := tt; calls := [] ++ [Controllers.EvGetIntegrationJob req] |}).
Proof.
  apply (Reconcile_completed_job_skipped finalizer Failed (fun status => status)
           (fun _ => "test-run") (scriptedCluster endedScript) req endedJob 0%nat 1700000000
           (emptyWorld tt) tt).
  - reflexivity.
  - vm_compute. reflexivity.
  - reflexivity.
  - reflexivity.
Defined.

Lemma DeleteLabel_removes_first_witness :
  exists st' : Fake.Store,
    Fake.Client_DeleteLabel fake IssueTypePullRequest 42 "approved"
      (store [lgtm; approved; approved]) = (None, st')
    /\ labelsOf "test-repo" 42 st' = Some ([lgtm] ++ [approved]).
Proof.
  apply (DeleteLabel_removes_first fake IssueTypePullRequest 42 "approved"
           (store [lgtm; approved; approved]) [lgtm] [approved] approved).
  - vm_compute. reflexivity.
  - intros H. apply list_elem_of_singleton in H. discriminate H.
  - reflexivity.
Defined.

Lemma SetLabel_then_DeleteLabel_witness :
  exists st1 : Fake.Store,
    Fake.SetLabel fake IssueTypePullRequest 42 "approved" (store [lgtm]) = (None, st1)
    /\ Fake.Client_DeleteLabel fake IssueTypePullRequest 42 "approved" st1
       = (None, store [lgtm]).
Proof.
  apply (SetLabel_then_DeleteLabel fake IssueTypePullRequest 42 "approved" (store [lgtm])
           [lgtm]).
  - vm_compute. reflexivity.
  - intros H. apply list_elem_of_singleton in H. discriminate H.
Defined.

Lemma label_calls_on_missing_pr_witness :
  Fake.SetLabel fake IssueTypePullRequest 43 "approved" (store [])
  = (Some (errors_New "404 no such PR"), store [])
  /\ Fake.Client_DeleteLabel fake IssueTypePullRequest 43 "approved" (store [])
     = (Some (errors_New "404 no such PR"), store [])
  /\ Fake.ListLabels fake 43 (store []) = Panics.
Proof.
  eapply (label_calls_on_missing_pr fake IssueTypePullRequest 43 "approved" (store [])).
  - reflexivity.
  - vm_compute. reflexivity.
  - reflexivity.
  - vm_compute. reflexivity.
Defined.

Lemma RegisterComment_then_ListComments_witness :
  exists (st' : Fake.Store) (new : IssueComment) (old : list IssueComment),
    Fake.RegisterComment fake IssueTypePullRequest 42 "/approve" (store []) = (None, st')
    /\ Fake.ListComments fake 42 (store []) = (Ok old, store [])
    /\ Fake.ListComments fake 42 st' = (Ok (old ++ [new]), st')
    /\ Comment_Body (IssueComment_Comment new) = "/approve"
    /\ createdAt new = Some 1700000000
    /\ (forall other : Z, other <> 42 ->
          fst (Fake.ListComments fake other st') = fst (Fake.ListComments fake other (store [])))
    /\ (forall id : Z, labelsOf "test-repo" id st' = labelsOf "test-repo" id (store [])).
Proof.
  eapply (RegisterComment_then_ListComments fake IssueTypePullRequest 42 "/approve"
            (store [])).
  - vm_compute. reflexivity.
  - reflexivity.
Defined.

End OnFixtures.

(** ** The transport and the store properties on the fixtures *)
Section OnServers.

Import Fixtures.

Local Abbreviation RequestHTTP :=
  (Http.RequestHTTP (St := nat) (Obj := string) json_Marshal http_NewRequest Do).
Local Abbreviation GetPaginatedRequest :=
  (Http.GetPaginatedRequest (St := nat) json_Marshal http_NewRequest Do url_Parse url_String
     json_Unmarshal ParseLinkHeader Find).

Lemma RequestHTTP_status_error_witness :
  exists reply,
    RequestHTTP "POST" "https://git.example/api/hooks" authHeader (Some tt) None
      (emptyWorld 0%nat)
    = Returns (reply,
               {| remote := 1%nat;
                  calls := [] ++
                    [Http.EvDo
                       (Http.addHeaders
                          {| Http.Request_Method := "POST";
                             Http.Request_URL := "https://git.example/api/hooks";
                             Http.Request_Body := "null";
                             Http.Request_Header := [] |} authHeader)] |})
    /\ Http.Reply_Body reply = "Rate limit exceeded"
    /\ Git.CheckRateLimitGetResetTime (Http.Reply_Err reply) = Panics.
Proof.
  destruct (RequestHTTP_status_error (Obj := string) json_Marshal http_NewRequest Do
              authHeader None "POST" "https://git.example/api/hooks" (Some tt) "null"
              {| Http.Request_Method := "POST";
                 Http.Request_URL := "https://git.example/api/hooks";
                 Http.Request_Body := "null";
                 Http.Request_Header := [] |}
              {| Http.StatusCode := 403;
                 Http.Response_Header := linked EmptyString;
                 Http.Response_Body := Ok "Rate limit exceeded" |}
              "Rate limit exceeded" 1%nat (emptyWorld 0%nat))
    as (reply & Hrun & Hbody & _ & _ & Hpanic).
  - reflexivity.
  - reflexivity.
  - vm_compute. reflexivity.
  - reflexivity.
  - cbn. lia.
  - exists reply. split; [exact Hrun |]. split; [exact Hbody |].
    apply Hpanic; vm_compute; reflexivity.
Defined.

Lemma GetPaginatedRequest_accumulates_every_page_witness :
  exists w',
    GetPaginatedRequest 5%nat itemsURL None authHeader (emptyWorld 0%nat)
    = Returns (Some None, w')
    /\ remote w' = 2%nat
    /\ accumulated (calls w') = [] ++ ["[1,2]"] ++ ["[3]"]
    /\ length (requested (calls w')) = (0 + 1 + 1)%nat.
Proof.
  apply (GetPaginatedRequest_accumulates_every_page (Data := unit) json_Marshal
           http_NewRequest Do url_Parse url_String json_Unmarshal ParseLinkHeader Find
           authHeader None itemsURL
           {| Http.URL_Location := itemsURL; Http.RawQuery := EmptyString |}
           ["[1,2]"] (itemsURL +:+ "?page=2") 1%nat 2%nat "[3]" (linked EmptyString)
           5%nat (emptyWorld 0%nat)).
  - reflexivity.
  - apply (Chain_cons http_NewRequest Do json_Unmarshal ParseLinkHeader Find authHeader None
             _ _ _ (linked (itemsURL +:+ "?page=2")) 1%nat (itemsURL +:+ "?page=2")).
    + exists 200, "[1,2]". split; [| split; [lia | reflexivity]].
      eexists. eexists. split; [reflexivity |]. split; [vm_compute; reflexivity |].
      split; [reflexivity |]. split; reflexivity.
    + vm_compute. reflexivity.
    + apply Chain_nil.
  - exists 200, "[3]". split; [| split; [lia | reflexivity]].
    eexists. eexists. split; [reflexivity |]. split; [vm_compute; reflexivity |].
    split; [reflexivity |]. split; reflexivity.
  - vm_compute. reflexivity.
  - cbn. lia.
Defined.

Lemma GetPaginatedRequest_stops_at_error_witness :
  exists w',
    GetPaginatedRequest 5%nat runsURL None authHeader (emptyWorld 0%nat)
    = Returns (Some (Some (Http.statusError "GET" (runsURL +:+ "?page=2") 403
                             "Rate limit exceeded")), w')
    /\ remote w' = 2%nat
    /\ accumulated (calls w') = [] ++ ["[1]"]
    /\ length (requested (calls w')) = (0 + 1 + 1)%nat.
Proof.
  apply (GetPaginatedRequest_stops_at_error (Data := unit) json_Marshal
           http_NewRequest Do url_Parse url_String json_Unmarshal ParseLinkHeader Find
           authHeader None runsURL
           {| Http.URL_Location := runsURL; Http.RawQuery := EmptyString |}
           ["[1]"] (runsURL +:+ "?page=2") 1%nat 2%nat 403 (linked EmptyString)
           "Rate limit exceeded" 5%nat (emptyWorld 0%nat)).
  - reflexivity.
  - apply (Chain_cons http_NewRequest Do json_Unmarshal ParseLinkHeader Find authHeader None
             _ _ _ (linked (runsURL +:+ "?page=2")) 1%nat (runsURL +:+ "?page=2")).
    + exists 200, "[1]". split; [| split; [lia | reflexivity]].
      eexists. eexists. split; [reflexivity |]. split; [vm_compute; reflexivity |].
      split; [reflexivity |]. split; reflexivity.
    + vm_compute. reflexivity.
    + apply Chain_nil.
  - eexists. eexists. split; [reflexivity |]. split; [vm_compute; reflexivity |].
    split; [reflexivity |]. split; reflexivity.
  - lia.
  - cbn. lia.
Defined.

Lemma GetPaginatedRequest_follows_links_without_bound_witness :
  exists w',
    GetPaginatedRequest 3%nat eventsURL None authHeader (emptyWorld 0%nat)
    = Returns (None, w')
    /\ accumulated (calls w') = [] ++ replicate 3 "[0]"
    /\ length (requested (calls w')) = (0 + 3)%nat.
Proof.
  apply (GetPaginatedRequest_follows_links_without_bound (Data := unit) json_Marshal
           http_NewRequest Do url_Parse url_String json_Unmarshal ParseLinkHeader Find
           authHeader None eventsURL
           {| Http.URL_Location := eventsURL; Http.RawQuery := EmptyString |}
           "[0]" (linked (eventsURL +:+ "?per_page=100"))).
  - reflexivity.
  - intros s. exists (S s). exists 200, "[0]". split; [| split; [lia | reflexivity]].
    eexists. eexists. split; [reflexivity |]. split; [vm_compute; reflexivity |].
    split; [reflexivity |]. split; reflexivity.
  - vm_compute. reflexivity.
Defined.

Local Abbreviation hooks := ({[ 7 := hook7 ]} : gmap Z FakeRemote.WebhookEntry).
Local Abbreviation noCommits := (Some (∅ : gmap string (list FakeRemote.Commit))).

Lemma RegisterWebhook_then_ListWebhook_witness :
  exists st' listed,
    FakeRemote.RegisterWebhook fake 7 "https://ci.example/webhook/new"
      (remoteStore hooks noCommits) = (None, st')
    /\ FakeRemote.ListWebhook fake st' = Ok listed
    /\ listed ≡ₚ {| FakeRemote.WebhookEntry_ID := 7;
                    FakeRemote.WebhookEntry_URL := "https://ci.example/webhook/new" |}
                 :: (snd <$> map_to_list (delete 7 hooks)).
Proof.
  eapply (RegisterWebhook_then_ListWebhook fake 7 "https://ci.example/webhook/new"
            (remoteStore hooks noCommits)).
  - vm_compute. reflexivity.
  - reflexivity.
  - unfold rateLimited. vm_compute. discriminate.
  - intros i w Hi. apply lookup_singleton_Some in Hi as [_ <-].
    unfold rateLimited. vm_compute. discriminate.
Defined.

Lemma RegisterWebhook_then_DeleteWebhook_witness :
  exists st1 st2,
    FakeRemote.RegisterWebhook fake 8 "https://ci.example/webhook/new"
      (remoteStore hooks noCommits) = (None, st1)
    /\ FakeRemote.DeleteWebhook fake 8 st1 = (None, st2)
    /\ FakeRemote.Webhooks <$> repoOf "test-repo" st2 = Some (Some (delete 8 hooks))
    /\ (hooks !! 8 = None -> st2 = remoteStore hooks noCommits).
Proof.
  eapply (RegisterWebhook_then_DeleteWebhook fake 8 "https://ci.example/webhook/new"
            (remoteStore hooks noCommits)).
  - vm_compute. reflexivity.
  - reflexivity.
  - unfold rateLimited. vm_compute. discriminate.
Defined.

Lemma fake_rate_limit_read_back_witness :
  exists e,
    (rateLimited "https://ci.example/test-rate-limit" ->
     FakeRemote.RegisterWebhook fake 8 "https://ci.example/test-rate-limit"
       (remoteStore hooks noCommits) = (Some e, remoteStore hooks noCommits))
    /\ ((exists i w, hooks !! i = Some w /\ rateLimited (FakeRemote.WebhookEntry_URL w)) ->
        FakeRemote.ListWebhook fake (remoteStore hooks noCommits) = Err e)
    /\ Git.CheckRateLimitGetResetTime (Some e) = Returns (1700000000 + 100)
    /\ Git.GetGapTime 1700000000 (1700000000 + 100) = 100.
Proof.
  eapply (fake_rate_limit_read_back fake 8 "https://ci.example/test-rate-limit"
            (remoteStore hooks noCommits)).
  - vm_compute. reflexivity.
  - reflexivity.
  - cbn. unfold minInt, maxInt. lia.
Defined.

Lemma SetCommitStatus_then_ListCommitStatuses_witness :
  exists st',
    FakeRemote.SetCommitStatus fake "abc123" success (remoteStore hooks noCommits)
    = (None, st')
    /\ FakeRemote.ListCommitStatuses fake "abc123" st'
       = Ok (default [] ((∅ : gmap string (list FakeRemote.CommitStatus)) !! "abc123")
             ++ [success])
    /\ ((∅ : gmap string (list FakeRemote.CommitStatus)) !! "abc123" = None ->
        FakeRemote.ListCommitStatuses fake "abc123" (remoteStore hooks noCommits)
        = Err (errors_New "404 no such ref"))
    /\ (forall ref, ref <> "abc123" ->
        FakeRemote.ListCommitStatuses fake ref st'
        = FakeRemote.ListCommitStatuses fake ref (remoteStore hooks noCommits)).
Proof.
  eapply (SetCommitStatus_then_ListCommitStatuses fake "abc123" success
            (remoteStore hooks noCommits)).
  - vm_compute. reflexivity.
  - reflexivity.
Defined.

Lemma MergePullRequest_closes_and_commits_witness :
  exists st' repo' commits',
    FakeRemote.MergePullRequest fake 7 "abc123" "squash" EmptyString
      (remoteStore hooks noCommits) = Returns (None, st')
    /\ FakeRemote.GetPullRequest fake 7 st' = Ok (FakeRemote.PullRequest_close pr7)
    /\ repoOf "test-repo" st' = Some repo'
    /\ FakeRemote.Commits repo' = Some commits'
    /\ commits' !! "master"
       = Some [{| FakeRemote.Commit_SHA := "abc123";
                  FakeRemote.Commit_Message := "Fix bug(#7)" |}].
Proof.
  destruct (MergePullRequest_closes_and_commits fake 7 "abc123" "squash" EmptyString
              (remoteStore hooks noCommits)
              {[ "test-repo" :=
                   {| FakeRemote.Webhooks := Some hooks;
                      FakeRemote.PullRequests := Some {[ 7 := pr7 ]};
                      FakeRemote.Commits := noCommits;
                      FakeRemote.CommitStatuses := Some ∅ |} ]}
              {| FakeRemote.Webhooks := Some hooks;
                 FakeRemote.PullRequests := Some {[ 7 := pr7 ]};
                 FakeRemote.Commits := noCommits;
                 FakeRemote.CommitStatuses := Some ∅ |}
              {[ 7 := pr7 ]} pr7 ∅)
    as (st' & repo' & commits' & commit & Hrun & Hget & _ & _ & _ & _ & Hrepo & Hcommits
        & Hbase & Hsha & _ & Hmsg & _).
  - vm_compute. reflexivity.
  - reflexivity.
  - vm_compute. reflexivity.
  - reflexivity.
  - exists st', repo', commits'. split; [exact Hrun |]. split; [exact Hget |].
    split; [exact Hrepo |]. split; [exact Hcommits |].
    etransitivity; [exact Hbase |]. destruct commit as [sha message].
    cbn in Hsha. specialize (Hmsg eq_refl). cbn in Hmsg. subst sha message.
    vm_compute. reflexivity.
Defined.

Lemma MergePullRequest_nil_maps_witness :
  FakeRemote.MergePullRequest fake 7 "abc123" "squash" EmptyString (remoteStore hooks None)
  = Panics.
Proof.
  destruct (MergePullRequest_nil_maps fake 7 "abc123" "squash" EmptyString
              (remoteStore hooks None)
              {[ "test-repo" :=
                   {| FakeRemote.Webhooks := Some hooks;
                      FakeRemote.PullRequests := Some {[ 7 := pr7 ]};
                      FakeRemote.Commits := None;
                      FakeRemote.CommitStatuses := Some ∅ |} ]}
              {| FakeRemote.Webhooks := Some hooks;
                 FakeRemote.PullRequests := Some {[ 7 := pr7 ]};
                 FakeRemote.Commits := None;
                 FakeRemote.CommitStatuses := Some ∅ |}) as [_ H].
  - vm_compute. reflexivity.
  - apply (H {[ 7 := pr7 ]} pr7); [reflexivity | vm_compute; reflexivity | reflexivity].
Defined.

End OnServers.

(** ** The revert of an unauthorized change of the 'approved' label *)
Section UnauthorizedLabelChange.

Variable unauthorizedErrorText : string -> string -> string.

Local Abbreviation approved := Approve.approvedLabel.
Local Abbreviation PR := IssueTypePullRequest.

Lemma rejected_authorize {St : Type} (cli : Client St) (cfg : IntegrationConfig)
    (sender author : User) (w w1 : World St Approve.Call) :
  rejected cli sender author w w1 ->
  Approve.authorize unauthorizedErrorText cfg sender author cli w
  = Returns (Some (Approve.newUnauthorizedError unauthorizedErrorText
                     (User_Name sender) (Git_Repository cfg)), w1).
Proof.
  intros [[Heq ->] | (Hne & s1 & Hw & ->)]; unfold Approve.authorize.
  - rewrite bool_decide_eq_true_2 by exact Heq. reflexivity.
  - rewrite bool_decide_eq_false_2 by exact Hne. unfold bind, call. rewrite Hw.
    reflexivity.
Qed.

(** The run of [handleLabelEvent] behind a rejection, for every client. *)
Lemma handleLabelEvent_rejected {St : Type} (cli : Client St) (wh : Webhook)
    (ic : IntegrationConfig) (pr : PullRequest) (w w1 : World St Approve.Call) :
  Webhook_PullRequest wh = Some pr ->
  Approve.hasLabel (PullRequest_LabelChanged pr) approved = true ->
  rejected cli (Webhook_Sender wh) (PullRequest_Author pr) w w1 ->
  let id := PullRequest_ID pr in
  let reject := Approve.generateUserUnauthorizedComment (User_Name (Webhook_Sender wh)) in
  let labeled := Approve.hasLabel (PullRequest_Labels pr) approved in
  let revert :=
    if labeled then Approve.CallDeleteLabel PR id approved
    else Approve.CallSetLabel PR id approved in
  let reverted :=
    if labeled
    then (Approve.isDeleteLabelFailure (fst (DeleteLabel cli PR id approved (remote w1))),
          snd (DeleteLabel cli PR id approved (remote w1)))
    else SetLabel cli PR id approved (remote w1) in
  Approve.handleLabelEvent unauthorizedErrorText wh ic cli w
  = Returns
      match fst reverted with
      | Some err => (Some err, {| remote := snd reverted; calls := calls w1 ++ [revert] |})
      | None =>
          (fst (RegisterComment cli PR id reject (snd reverted)),
           {| remote := snd (RegisterComment cli PR id reject (snd reverted));
              calls := calls w1 ++ [revert; Approve.CallRegisterComment PR id reject] |})
      end.
Proof.
  intros Hpr Hchanged Hrej id reject labeled revert reverted.
  unfold Approve.handleLabelEvent. unfold bind at 1. unfold deref. rewrite Hpr.
  unfold ret at 1. rewrite Hchanged. cbn [negb].
  unfold bind at 1. rewrite (rejected_authorize cli ic _ _ w w1 Hrej).
  cbn [dynType Approve.newUnauthorizedError].
  subst reverted revert labeled reject id.
  destruct (Approve.hasLabel (PullRequest_Labels pr) approved).
  - unfold bind, call, ret.
    destruct (DeleteLabel cli PR (PullRequest_ID pr) approved (remote w1)) as [d s2].
    cbn [fst snd]. destruct (Approve.isDeleteLabelFailure d) as [e'|]; [reflexivity |].
    cbn [remote calls].
    destruct (RegisterComment cli PR (PullRequest_ID pr)
                (Approve.generateUserUnauthorizedComment (User_Name (Webhook_Sender wh))) s2)
      as [r s3].
    cbn [fst snd]. rewrite <- app_assoc. reflexivity.
  - unfold bind, call, ret.
    destruct (SetLabel cli PR (PullRequest_ID pr) approved (remote w1)) as [[e'|] s2];
      [reflexivity |].
    cbn [fst snd remote calls].
    destruct (RegisterComment cli PR (PullRequest_ID pr)
                (Approve.generateUserUnauthorizedComment (User_Name (Webhook_Sender wh))) s2)
      as [r s3].
    cbn [fst snd]. rewrite <- app_assoc. reflexivity.
Qed.

(** The fake client reads the write privilege without changing the store. *)
Lemma Fake_CanUserWriteToRepo_reads (c : Fake.Client) (user : User) (st : Fake.Store) :
  snd (Fake.CanUserWriteToRepo c user st) = st.
Proof.
  unfold Fake.CanUserWriteToRepo.
  destruct (Fake.lookupRepo _ st) as [[repos repo]|e]; [|reflexivity].
  destruct (Fake.UserCanWrite repo) as [canWrite|]; [|reflexivity].
  destruct (canWrite !! User_Name user); reflexivity.
Qed.

Lemma rejected_fake_remote (c : Fake.Client) (sender author : User)
    (w w1 : World Fake.Store Approve.Call) :
  rejected (fakeClient c) sender author w w1 -> remote w1 = remote w.
Proof.
  intros [[_ ->] | (_ & s1 & Hw & ->)]; [reflexivity |].
  cbn [remote]. cbn [CanUserWriteToRepo fakeClient] in Hw.
  pose proof (Fake_CanUserWriteToRepo_reads c sender (remote w)) as H.
  rewrite Hw in H. exact H.
Qed.

Lemma hasLabel_split (labels : list IssueLabel) (name : string) :
  Approve.hasLabel labels name = true ->
  exists pre l post,
    (labels = pre ++ l :: post)
    /\ (name ∉ (IssueLabel_Name <$> pre))
    /\ (IssueLabel_Name l = name).
Proof.
  unfold Approve.hasLabel.
  induction labels as [|x xs IH]; cbn [existsb]; [discriminate |].
  destruct (bool_decide (IssueLabel_Name x = name)) eqn:E.
  - intros _. apply bool_decide_eq_true in E. exists [], x, xs.
    split; [reflexivity |]. split; [apply not_elem_of_nil | exact E].
  - cbn [orb]. intros H. destruct (IH H) as (pre & l & post & -> & Hpre & Hl).
    exists (x :: pre), l, post. split; [reflexivity |]. split; [| exact Hl].
    rewrite fmap_cons. apply not_elem_of_cons. split; [| exact Hpre].
    apply bool_decide_eq_false in E. congruence.
Qed.

Lemma withoutLabel_other (name : string) (labels : list IssueLabel) :
  name ∉ (IssueLabel_Name <$> labels) -> withoutLabel name labels = labels.
Proof.
  unfold withoutLabel. induction labels as [|x xs IH]; intros H; [reflexivity |].
  rewrite fmap_cons in H. apply not_elem_of_cons in H as [Hne H].
  rewrite filter_cons_True by congruence. rewrite (IH H). reflexivity.
Qed.

Lemma withoutLabel_unique (name : string) (pre post : list IssueLabel) (l : IssueLabel) :
  NoDup (IssueLabel_Name <$> (pre ++ l :: post)) ->
  IssueLabel_Name l = name ->
  withoutLabel name (pre ++ l :: post) = pre ++ post.
Proof.
  intros Hnd Hl. rewrite fmap_app, fmap_cons in Hnd.
  apply NoDup_app in Hnd as (_ & Hdisj & Hpost).
  apply NoDup_cons in Hpost as [Hnotin _].
  assert (Hpre : name ∉ (IssueLabel_Name <$> pre)).
  { intros Hin. apply (Hdisj _ Hin). rewrite Hl. apply list_elem_of_here. }
  rewrite Hl in Hnotin.
  unfold withoutLabel. rewrite filter_app.
  rewrite filter_cons_False by (intros H; apply H; exact Hl).
  fold (withoutLabel name pre). fold (withoutLabel name post).
  rewrite (withoutLabel_other _ _ Hpre), (withoutLabel_other _ _ Hnotin). reflexivity.
Qed.

Lemma hasLabel_withoutLabel (name : string) (labels : list IssueLabel) :
  Approve.hasLabel (withoutLabel name labels) name = false.
Proof.
  unfold Approve.hasLabel, withoutLabel.
  induction labels as [|x xs IH]; [reflexivity |].
  destruct (decide (IssueLabel_Name x = name)) as [Heq|Hne].
  - rewrite filter_cons_False by (intros H; apply H; exact Heq). exact IH.
  - rewrite filter_cons_True by exact Hne. cbn [existsb].
    rewrite bool_decide_eq_false_2 by exact Hne. exact IH.
Qed.

Lemma hasLabel_appended (name : string) (labels : list IssueLabel) :
  Approve.hasLabel (labels ++ [{| IssueLabel_Name := name |}]) name = true.
Proof.
  unfold Approve.hasLabel. rewrite existsb_app. cbn [existsb IssueLabel_Name].
  rewrite bool_decide_eq_true_2 by reflexivity. apply orb_true_iff. right. reflexivity.
Qed.

(** A change of the pull requests of a repository leaves its comments. *)
Lemma commentsOf_setPullRequests (st : Fake.Store) (repos : gmap string Fake.Repo)
    (name : string) (repo : Fake.Repo) (prs : gmap Z PullRequest) :
  Fake.Repos st = Some repos ->
  repos !! name = Some repo ->
  commentsOf name (Fake.Store_setRepo st repos name (Fake.Repo_setPullRequests repo prs))
  = commentsOf name st.
Proof.
  intros Hr Hrepo. unfold commentsOf, Fake.Store_setRepo. cbn [Fake.Repos mbind option_bind].
  rewrite lookup_insert_eq, Hr. cbn [mbind option_bind]. rewrite Hrepo. reflexivity.
Qed.

Lemma labelsOf_other (st : Fake.Store) (repos : gmap string Fake.Repo) (name : string)
    (repo : Fake.Repo) (prs : gmap Z PullRequest) (id id' : Z) (pr : PullRequest) :
  Fake.Repos st = Some repos ->
  repos !! name = Some repo ->
  Fake.PullRequests repo = Some prs ->
  id' <> id ->
  labelsOf name id'
    (Fake.Store_setRepo st repos name (Fake.Repo_setPullRequests repo (<[id := pr]> prs)))
  = labelsOf name id' st.
Proof.
  intros Hr Hrepo Hprs Hne. rewrite labelsOf_setRepo. rewrite decide_False by congruence.
  unfold labelsOf. rewrite Hr. cbn [mbind option_bind]. rewrite Hrepo. cbn [mbind option_bind].
  rewrite Hprs. cbn [mbind option_bind]. destruct (prs !! id'); reflexivity.
Qed.

(** [DeleteLabel] of a label that is there, among labels of unique names. *)
Lemma DeleteLabel_unique (c : Fake.Client) (issueType : IssueType) (id : Z) (label : string)
    (st : Fake.Store) (labels : list IssueLabel) :
  let name := Git_Repository (Fake.Client_IntegrationConfig c) in
  labelsOf name id st = Some labels ->
  NoDup (IssueLabel_Name <$> labels) ->
  Approve.hasLabel labels label = true ->
  exists st' : Fake.Store,
    Fake.Client_DeleteLabel c issueType id label st = (None, st')
    /\ labelsOf name id st' = Some (withoutLabel label labels)
    /\ (forall id', id' <> id -> labelsOf name id' st' = labelsOf name id' st)
    /\ commentsOf name st' = commentsOf name st.
Proof.
  intros name H Hnd Hhas.
  destruct (hasLabel_split _ _ Hhas) as (pre & l & post & -> & Hpre & Hl).
  destruct (labelsOf_inv _ _ _ _ H) as (repos & repo & prs & pr & Hr & Hrepo & Hprs & Hpr & Hlab).
  unfold Fake.Client_DeleteLabel, Fake.DeleteLabel, Fake.lookupRepo. fold name.
  rewrite Hr, Hrepo, Hprs, Hpr, Hlab.
  rewrite (indexOfLabel_first pre post l label Hpre Hl).
  eexists. split; [reflexivity |]. split; [| split].
  - rewrite labelsOf_setRepo. rewrite decide_True by reflexivity. cbn [PullRequest_Labels
      PullRequest_setLabels]. f_equal.
    rewrite (withoutLabel_unique _ _ _ _ Hnd Hl).
    case_bool_decide as Hlast.
    + rewrite length_app in Hlast. cbn [length] in Hlast.
      destruct post; [| cbn [length] in Hlast; lia].
      rewrite take_app_length, app_nil_r. reflexivity.
    + rewrite take_app_length.
      replace (pre ++ l :: post) with ((pre ++ [l]) ++ post)
        by (rewrite <- app_assoc; reflexivity).
      rewrite drop_app_length'; [reflexivity |].
      rewrite length_app. cbn [length]. lia.
  - intros id' Hne. apply labelsOf_other; assumption.
  - apply commentsOf_setPullRequests; assumption.
Qed.

(** [SetLabel] on a pull request that is there. *)
Lemma SetLabel_appends (c : Fake.Client) (issueType : IssueType) (id : Z) (label : string)
    (st : Fake.Store) (labels : list IssueLabel) :
  let name := Git_Repository (Fake.Client_IntegrationConfig c) in
  labelsOf name id st = Some labels ->
  exists st' : Fake.Store,
    Fake.SetLabel c issueType id label st = (None, st')
    /\ labelsOf name id st' = Some (labels ++ [{| IssueLabel_Name := label |}])
    /\ (forall id', id' <> id -> labelsOf name id' st' = labelsOf name id' st)
    /\ commentsOf name st' = commentsOf name st.
Proof.
  intros name H.
  destruct (labelsOf_inv _ _ _ _ H) as (repos & repo & prs & pr & Hr & Hrepo & Hprs & Hpr & Hlab).
  unfold Fake.SetLabel, Fake.lookupRepo. fold name.
  rewrite Hr, Hrepo, Hprs, Hpr, Hlab.
  eexists. split; [reflexivity |]. split; [| split].
  - rewrite labelsOf_setRepo. rewrite decide_True by reflexivity. reflexivity.
  - intros id' Hne. apply labelsOf_other; assumption.
  - apply commentsOf_setPullRequests; assumption.
Qed.

(** [RegisterComment] on a repository whose comments are initialised. *)
Lemma RegisterComment_appends (c : Fake.Client) (issueType : IssueType) (issueNo : Z)
    (body : string) (st : Fake.Store) (comments : gmap Z (list IssueComment)) :
  let name := Git_Repository (Fake.Client_IntegrationConfig c) in
  commentsOf name st = Some comments ->
  exists (st' : Fake.Store) (new : IssueComment),
    Fake.RegisterComment c issueType issueNo body st = (None, st')
    /\ commentsOf name st'
       = Some (<[issueNo := default [] (comments !! issueNo) ++ [new]]> comments)
    /\ Comment_Body (IssueComment_Comment new) = body
    /\ (forall id, labelsOf name id st' = labelsOf name id st).
Proof.
  intros name H. unfold commentsOf in H.
  destruct (Fake.Repos st) as [repos|] eqn:Hr; [|discriminate]. cbn [mbind option_bind] in H.
  destruct (repos !! name) as [repo|] eqn:Hrepo; [|discriminate].
  cbn [mbind option_bind] in H.
  unfold Fake.RegisterComment, Fake.lookupRepo. fold name. rewrite Hr, Hrepo, H.
  eexists. eexists. split; [reflexivity |].
  unfold commentsOf, labelsOf, Fake.Store_setRepo, Fake.Repo_setComments.
  cbn [Fake.Repos mbind option_bind].
  rewrite lookup_insert_eq. cbn [mbind option_bind Fake.Comments Fake.PullRequests].
  split; [reflexivity |]. split; [reflexivity |].
  intros id. rewrite Hr. cbn [mbind option_bind]. rewrite Hrepo. reflexivity.
Qed.

(** C5.  When [authorize] rejects the sender of a label-changed event for
    the 'approved' label as unauthorized - the sender is the author of the
    pull request, or the client reports that the sender has no write
    privilege - [handleLabelEvent] reverts the flip before it posts the
    rejection comment.

    For every client: the handler calls [DeleteLabel] when the pull
    request of the event carries the label and [SetLabel] when it does
    not, on the state that [authorize] left; when that call fails (a
    "Label does not exist" of [DeleteLabel] is no failure) its error is
    returned and no comment is posted; otherwise [RegisterComment] posts
    the rejection that names the sender, on the state the revert left, and
    its result is the result.  The remote state and the log are those of
    these calls and of nothing else.

    On the fake client, for a pull request whose stored label names are
    unique and agree with the event on 'approved', and a repository whose
    comments are initialised: the rejected authorization has left the
    store as it was; the handler returns nil; afterwards the label is
    absent if it was present and present if it was absent, the other labels
    of the pull request and the labels of every other pull request are as
    before, and the rejection is the last comment of the pull request. *)
Theorem handleLabelEvent_unauthorized_reverts :
  (forall (St : Type) (cli : Client St) (wh : Webhook) (ic : IntegrationConfig)
          (pr : PullRequest) (w w1 : World St Approve.Call),
      Webhook_PullRequest wh = Some pr ->
      Approve.hasLabel (PullRequest_LabelChanged pr) approved = true ->
      rejected cli (Webhook_Sender wh) (PullRequest_Author pr) w w1 ->
      let id := PullRequest_ID pr in
      let reject :=
        Approve.generateUserUnauthorizedComment (User_Name (Webhook_Sender wh)) in
      let labeled := Approve.hasLabel (PullRequest_Labels pr) approved in
      let revert :=
        if labeled then Approve.CallDeleteLabel PR id approved
        else Approve.CallSetLabel PR id approved in
      let reverted :=
        if labeled
        then (Approve.isDeleteLabelFailure (fst (DeleteLabel cli PR id approved (remote w1))),
              snd (DeleteLabel cli PR id approved (remote w1)))
        else SetLabel cli PR id approved (remote w1) in
      Approve.handleLabelEvent unauthorizedErrorText wh ic cli w
      = Returns
          match fst reverted with
          | Some err =>
              (Some err, {| remote := snd reverted; calls := calls w1 ++ [revert] |})
          | None =>
              (fst (RegisterComment cli PR id reject (snd reverted)),
               {| remote := snd (RegisterComment cli PR id reject (snd reverted));
                  calls := calls w1 ++ [revert; Approve.CallRegisterComment PR id reject] |})
          end)
  /\ (forall (c : Fake.Client) (wh : Webhook) (ic : IntegrationConfig) (pr : PullRequest)
             (w w1 : World Fake.Store Approve.Call) (labels : list IssueLabel)
             (comments : gmap Z (list IssueComment)),
        let name := Git_Repository (Fake.Client_IntegrationConfig c) in
        let id := PullRequest_ID pr in
        let reject :=
          Approve.generateUserUnauthorizedComment (User_Name (Webhook_Sender wh)) in
        let revert :=
          if Approve.hasLabel labels approved then Approve.CallDeleteLabel PR id approved
          else Approve.CallSetLabel PR id approved in
        let labels' :=
          if Approve.hasLabel labels approved then withoutLabel approved labels
          else labels ++ [{| IssueLabel_Name := approved |}] in
        Webhook_PullRequest wh = Some pr ->
        Approve.hasLabel (PullRequest_LabelChanged pr) approved = true ->
        rejected (fakeClient c) (Webhook_Sender wh) (PullRequest_Author pr) w w1 ->
        labelsOf name id (remote w) = Some labels ->
        NoDup (IssueLabel_Name <$> labels) ->
        Approve.hasLabel (PullRequest_Labels pr) approved = Approve.hasLabel labels approved ->
        commentsOf name (remote w) = Some comments ->
        remote w1 = remote w
        /\ Approve.hasLabel labels' approved = negb (Approve.hasLabel labels approved)
        /\ exists (w' : World Fake.Store Approve.Call) (new : IssueComment),
            Approve.handleLabelEvent unauthorizedErrorText wh ic (fakeClient c) w
            = Returns (None, w')
            /\ calls w' = calls w1 ++ [revert; Approve.CallRegisterComment PR id reject]
            /\ labelsOf name id (remote w') = Some labels'
            /\ (forall id', id' <> id ->
                  labelsOf name id' (remote w') = labelsOf name id' (remote w))
            /\ commentsOf name (remote w')
               = Some (<[id := default [] (comments !! id) ++ [new]]> comments)
            /\ Comment_Body (IssueComment_Comment new) = reject).
Proof.
  split.
  - intros St cli wh ic pr w w1 Hpr Hchanged Hrej.
    exact (handleLabelEvent_rejected cli wh ic pr w w1 Hpr Hchanged Hrej).
  - intros c wh ic pr w w1 labels comments name id reject revert labels'
      Hpr Hchanged Hrej Hlabels Hnd Hagree Hcomments.
    subst name.
    pose proof (rejected_fake_remote c _ _ w w1 Hrej) as Hremote.
    split; [exact Hremote |]. split.
    { subst labels'. destruct (Approve.hasLabel labels approved) eqn:Hhas; cbn [negb].
      - apply hasLabel_withoutLabel.
      - apply hasLabel_appended. }
    rewrite (handleLabelEvent_rejected (fakeClient c) wh ic pr w w1 Hpr Hchanged Hrej).
    rewrite Hagree, Hremote. cbn [DeleteLabel SetLabel RegisterComment fakeClient].
    subst revert labels'. fold id. fold reject.
    destruct (Approve.hasLabel labels approved) eqn:Hhas.
    + destruct (DeleteLabel_unique c PR id approved (remote w) labels Hlabels Hnd Hhas)
        as (st1 & Hdel & Hl1 & Hother1 & Hc1).
      rewrite Hdel. cbn [fst snd Approve.isDeleteLabelFailure].
      rewrite Hcomments in Hc1.
      destruct (RegisterComment_appends c PR id reject st1 comments Hc1)
        as (st2 & new & Hreg & Hc2 & Hbody & Hl2).
      rewrite Hreg. cbn [fst snd]. eexists. exists new.
      cbn [remote calls]. split; [reflexivity |]. split; [reflexivity |].
      split; [rewrite Hl2; exact Hl1 |].
      split; [intros id' Hne; rewrite Hl2; apply Hother1; exact Hne |].
      split; [exact Hc2 | exact Hbody].
    + destruct (SetLabel_appends c PR id approved (remote w) labels Hlabels)
        as (st1 & Hset & Hl1 & Hother1 & Hc1).
      rewrite Hset. cbn [fst snd].
      rewrite Hcomments in Hc1.
      destruct (RegisterComment_appends c PR id reject st1 comments Hc1)
        as (st2 & new & Hreg & Hc2 & Hbody & Hl2).
      rewrite Hreg. cbn [fst snd]. eexists. exists new.
      cbn [remote calls]. split; [reflexivity |]. split; [reflexivity |].
      split; [rewrite Hl2; exact Hl1 |].
      split; [intros id' Hne; rewrite Hl2; apply Hother1; exact Hne |].
      split; [exact Hc2 | exact Hbody].
Qed.

End UnauthorizedLabelChange.

Section UnauthorizedLabelChangeOnFixtures.

Import Fixtures.

Local Abbreviation handleLabelEvent := (Approve.handleLabelEvent unauthorizedErrorText).

(** Both directions of the revert, and both ways of being rejected: alice,
    the author, has put the label on her pull request and it is removed
    again; dave, who may not write, has removed the label and it is set
    again. *)
Lemma handleLabelEvent_unauthorized_reverts_witness :
  (exists (w' : World Fake.Store Approve.Call) (new : IssueComment),
      handleLabelEvent (labelWebhook alice [lgtm; approved]) (config token)
        (fakeClient fake) (emptyWorld (store [lgtm; approved]))
      = Returns (None, w')
      /\ calls w'
         = [Approve.CallDeleteLabel IssueTypePullRequest 42 "approved";
            Approve.CallRegisterComment IssueTypePullRequest 42
              (Approve.generateUserUnauthorizedComment "alice")]
      /\ labelsOf "test-repo" 42 (remote w') = Some [lgtm]
      /\ Comment_Body (IssueComment_Comment new)
         = Approve.generateUserUnauthorizedComment "alice")
  /\ (exists (w' : World Fake.Store Approve.Call) (new : IssueComment),
        handleLabelEvent (labelWebhook dave [lgtm]) (config token)
          (fakeClient fake) (emptyWorld (teamStore [lgtm]))
        = Returns (None, w')
        /\ calls w'
           = [Approve.CallCanUserWriteToRepo dave;
              Approve.CallSetLabel IssueTypePullRequest 42 "approved";
              Approve.CallRegisterComment IssueTypePullRequest 42
                (Approve.generateUserUnauthorizedComment "dave")]
        /\ labelsOf "test-repo" 42 (remote w') = Some [lgtm; approved]
        /\ Comment_Body (IssueComment_Comment new)
           = Approve.generateUserUnauthorizedComment "dave").
Proof.
  split.
  - destruct (proj2 (handleLabelEvent_unauthorized_reverts unauthorizedErrorText)
                fake (labelWebhook alice [lgtm; approved]) (config token)
                (pr42 [lgtm; approved] [approved])
                (emptyWorld (store [lgtm; approved])) (emptyWorld (store [lgtm; approved]))
                [lgtm; approved] ∅)
      as (_ & _ & w' & new & Hrun & Hcalls & Hlabels & _ & _ & Hbody).
    + reflexivity.
    + vm_compute. reflexivity.
    + left. split; reflexivity.
    + vm_compute. reflexivity.
    + cbn. apply NoDup_cons. split; [| apply NoDup_singleton].
      intros H. apply list_elem_of_singleton in H. discriminate H.
    + vm_compute. reflexivity.
    + vm_compute. reflexivity.
    + exists w', new. split; [exact Hrun |]. split; [exact Hcalls |].
      split; [exact Hlabels | exact Hbody].
  - destruct (proj2 (handleLabelEvent_unauthorized_reverts unauthorizedErrorText)
                fake (labelWebhook dave [lgtm]) (config token)
                (pr42 [lgtm] [approved])
                (emptyWorld (teamStore [lgtm]))
                {| remote := teamStore [lgtm];
                   calls := [Approve.CallCanUserWriteToRepo dave] |}
                [lgtm] ∅)
      as (_ & _ & w' & new & Hrun & Hcalls & Hlabels & _ & _ & Hbody).
    + reflexivity.
    + vm_compute. reflexivity.
    + right. split; [vm_compute; discriminate |].
      exists (teamStore [lgtm]). split; [vm_compute; reflexivity | reflexivity].
    + vm_compute. reflexivity.
    + cbn. apply NoDup_singleton.
    + vm_compute. reflexivity.
    + vm_compute. reflexivity.
    + exists w', new. split; [exact Hrun |]. split; [exact Hcalls |].
      split; [exact Hlabels | exact Hbody].
Defined.

(** C5 as stated fails: not every failed authorization is followed by the
    revert.  carol is not known to the repository; the read of her write
    privilege fails with "404 no such user", which is no
    [UnauthorizedError]; [handleLabelEvent] returns that error, and the
    'approved' label she has put on the pull request of alice stays. *)
Lemma handleLabelEvent_failed_lookup_keeps_flip :
  ~ (forall (c : Fake.Client) (wh : Webhook) (ic : IntegrationConfig) (pr : PullRequest)
            (w w1 w' : World Fake.Store Approve.Call) (labels : list IssueLabel)
            (comments : gmap Z (list IssueComment)) (err : error) (res : option error),
        Webhook_PullRequest wh = Some pr ->
        Approve.hasLabel (PullRequest_LabelChanged pr) Approve.approvedLabel = true ->
        labelsOf (Git_Repository (Fake.Client_IntegrationConfig c)) (PullRequest_ID pr)
          (remote w) = Some labels ->
        NoDup (IssueLabel_Name <$> labels) ->
        Approve.hasLabel (PullRequest_Labels pr) Approve.approvedLabel
        = Approve.hasLabel labels Approve.approvedLabel ->
        commentsOf (Git_Repository (Fake.Client_IntegrationConfig c)) (remote w)
        = Some comments ->
        Approve.authorize unauthorizedErrorText ic (Webhook_Sender wh) (PullRequest_Author pr)
          (fakeClient c) w = Returns (Some err, w1) ->
        handleLabelEvent wh ic (fakeClient c) w = Returns (res, w') ->
        exists labels' : list IssueLabel,
          labelsOf (Git_Repository (Fake.Client_IntegrationConfig c)) (PullRequest_ID pr)
            (remote w') = Some labels'
          /\ Approve.hasLabel labels' Approve.approvedLabel
             = negb (Approve.hasLabel labels Approve.approvedLabel)).
Proof.
  intros H.
  destruct (H fake (labelWebhook carol [approved]) (config token) (pr42 [approved] [approved])
              (emptyWorld (store [approved]))
              {| remote := store [approved]; calls := [Approve.CallCanUserWriteToRepo carol] |}
              {| remote := store [approved]; calls := [Approve.CallCanUserWriteToRepo carol] |}
              [approved] ∅ (errors_New "404 no such user")
              (Some (errors_New "404 no such user")))
    as (labels' & Hl & Hflip).
  - reflexivity.
  - vm_compute. reflexivity.
  - vm_compute. reflexivity.
  - cbn. apply NoDup_singleton.
  - vm_compute. reflexivity.
  - vm_compute. reflexivity.
  - vm_compute. reflexivity.
  - vm_compute. reflexivity.
  - vm_compute in Hl. injection Hl as <-. vm_compute in Hflip. discriminate Hflip.
Qed.

End UnauthorizedLabelChangeOnFixtures.
